(** * LUKS-TOKEN: the self-destructing token session and its destruct unit

    A shallow embedding of [LUKS-TOKEN.py] (class [LUKSTokenSystem] and
    [main]) and of the bash script [dd-destruct.sh] that
    [create_destruct_script] writes, over a small model of the operating
    system the program drives: mount table, device mapper, files and
    directories.

    Layout: the machine model, the bash side (the generated script), the
    Python side (the session), then the theorems. *)

From Stdlib Require Import ZArith List String Ascii Bool Lia QArith Qround
  DecimalString Sorted.
Import ListNotations.
Local Open Scope Z_scope.
Local Open Scope string_scope.
Local Open Scope list_scope.

Infix "+++" := String.append (at level 60, right associativity).

(* ================================================================== *)
(** * The machine *)
(* ================================================================== *)

(** The text of [dd-destruct.sh] is an f-string with five holes; a script is
    represented by what fills them.  [script_timer_seconds] is
    [{timer_seconds}], [script_failsafe_timer] is [{failsafe_timer}], the
    three paths are the right-hand sides of the assignments to the shell
    variables of the same names. *)
Record destruct_script := {
  script_timer_seconds : Z;
  script_failsafe_timer : Z;
  RAMDISK : string;
  LUKS_FILE : string;
  MOUNT_POINT : string }.

(** What a regular file holds.  [Luks len key inner] is an encrypted
    container of [len] bytes that the passphrase [key] unlocks to a
    filesystem with the files [inner]; [Random len] is [len] bytes read
    from /dev/urandom; [Partial len c] is the first [len] bytes of [c], cut
    short. *)
Inductive content :=
| Data (bytes : string)
| Script (u : destruct_script)
| Luks (len : Z) (key : string) (inner : list (string * string))
| Random (len : Z)
| Partial (len : Z) (whole : content).

Record mount_entry := {
  target : string;
  source : string;
  options : string }.

(** What a mount hides: the files and directories that were visible below
    its target [over] when it was made.  They are out of reach while the
    mount is there and come back when it is unmounted. *)
Record cover := {
  over : string;
  covered_files : list (string * content);
  covered_dirs : list string }.

(** The mount table is a stack (newest first): the same target can be
    mounted more than once.  The namespace is flat: [files] and [dirs] are
    what is visible; [covers] is what the mounts hide, newest first.
    Mounting moves what was visible below the target to a new cover;
    unmounting drops what the filesystem held and brings back what the
    newest cover of the target holds.  Ancestors of the paths are not
    tracked. *)
Record machine := {
  mounts : list mount_entry;
  mapper : list (string * list (string * string));
  files : list (string * content);
  dirs : list string;
  covers : list cover }.

Definition set_mounts (l : list mount_entry) (m : machine) : machine :=
  {| mounts := l; mapper := mapper m; files := files m; dirs := dirs m;
     covers := covers m |}.
Definition set_mapper (l : list (string * list (string * string)))
  (m : machine) : machine :=
  {| mounts := mounts m; mapper := l; files := files m; dirs := dirs m;
     covers := covers m |}.
Definition set_files (l : list (string * content)) (m : machine) : machine :=
  {| mounts := mounts m; mapper := mapper m; files := l; dirs := dirs m;
     covers := covers m |}.
Definition set_dirs (l : list string) (m : machine) : machine :=
  {| mounts := mounts m; mapper := mapper m; files := files m; dirs := l;
     covers := covers m |}.
Definition set_covers (l : list cover) (m : machine) : machine :=
  {| mounts := mounts m; mapper := mapper m; files := files m;
     dirs := dirs m; covers := l |}.

(** [under d p]: the path [p] lies strictly below the directory [d]. *)
Definition under (d p : string) : bool := String.prefix (d +++ "/") p.

Definition mapper_path (name : string) : string := "/dev/mapper/" +++ name.

Definition is_mountpoint (p : string) (m : machine) : bool :=
  existsb (fun e => target e =? p) (mounts m).
Definition is_file (p : string) (m : machine) : bool :=
  existsb (fun f => fst f =? p) (files m).
Definition is_dir (p : string) (m : machine) : bool :=
  existsb (fun d => d =? p) (dirs m).
Definition is_mapped (name : string) (m : machine) : bool :=
  existsb (fun d => fst d =? name) (mapper m).
Definition is_device (p : string) (m : machine) : bool :=
  existsb (fun d => mapper_path (fst d) =? p) (mapper m).
Definition path_exists (p : string) (m : machine) : bool :=
  is_file p m || is_dir p m || is_device p m.

Definition read_file (p : string) (m : machine) : option content :=
  option_map snd (find (fun f => fst f =? p) (files m)).

Definition content_length (c : content) : Z :=
  match c with
  | Data bytes => Z.of_nat (String.length bytes)
  | Script _ => 1
  | Luks len _ _ => len
  | Random len => len
  | Partial len _ => len
  end.

(** Everything visible below [d] goes. *)
Definition drop_under (d : string) (m : machine) : machine :=
  set_dirs (filter (fun q => negb (under d q)) (dirs m))
    (set_files (filter (fun f => negb (under d (fst f))) (files m)) m).

(** A filesystem is mounted on [d]: what was visible below [d] is hidden
    under a new cover. *)
Definition cover_under (d : string) (m : machine) : machine :=
  set_covers
    ({| over := d;
        covered_files := filter (fun f => under d (fst f)) (files m);
        covered_dirs := filter (under d) (dirs m) |} :: covers m)
    (drop_under d m).

Fixpoint remove_cover (d : string) (l : list cover) : list cover :=
  match l with
  | [] => []
  | c :: l' => if over c =? d then l' else c :: remove_cover d l'
  end.

(** What unmounting [d] brings back: the part below [d] of what the newest
    cover of [d] holds. *)
Definition uncovered_files (d : string) (m : machine)
  : list (string * content) :=
  match find (fun c => over c =? d) (covers m) with
  | Some c => filter (fun f => under d (fst f)) (covered_files c)
  | None => []
  end.

Definition uncovered_dirs (d : string) (m : machine) : list string :=
  match find (fun c => over c =? d) (covers m) with
  | Some c => filter (under d) (covered_dirs c)
  | None => []
  end.

Definition uncover (d : string) (m : machine) : machine :=
  set_covers (remove_cover d (covers m))
    (set_dirs (dirs m ++ uncovered_dirs d m)
       (set_files (files m ++ uncovered_files d m) m)).

Fixpoint remove_mount (p : string) (l : list mount_entry) : list mount_entry :=
  match l with
  | [] => []
  | e :: l' => if target e =? p then l' else e :: remove_mount p l'
  end.

(** [umount p]: pops the newest mount on [p]; what its filesystem showed
    below [p] goes and what it hid is visible again.  Exit status 32 when
    [p] is not mounted. *)
Definition sys_umount (p : string) (m : machine) : Z * machine :=
  if is_mountpoint p m
  then (0, uncover p
             (drop_under p (set_mounts (remove_mount p (mounts m)) m)))
  else (32, m).

Definition is_digit (c : ascii) : bool :=
  let n := nat_of_ascii c in ((48 <=? n) && (n <=? 57))%nat.

(** The end of a size: nothing, a unit, a percent sign. *)
Definition size_suffix (s : string) : bool :=
  existsb (String.eqb s)
    [""; "k"; "K"; "m"; "M"; "g"; "G"; "t"; "T"; "p"; "P"; "e"; "E"; "%"].

Fixpoint size_tail (s : string) : bool :=
  match s with
  | String c s' => if is_digit c then size_tail s' else size_suffix s
  | EmptyString => true
  end.

(** The mount options the program passes are [size=<value>]; tmpfs takes
    the value when it is a decimal number with, or without, a unit or a
    percent sign, and refuses the mount otherwise.  (Other options, and
    numbers in other bases, are not looked at: they are refused here.) *)
Definition tmpfs_options_ok (opts : string) : bool :=
  match opts with
  | String s (String i (String z (String e (String q (String c rest))))) =>
      (String s (String i (String z (String e (String q "")))) =? "size=")
      && is_digit c && size_tail rest
  | _ => false
  end.

(** [mount -t tmpfs -o opts tmpfs p]: an empty filesystem on [p], hiding
    what was below [p].  Exit status 32 when [p] is no directory or the
    size option is not one tmpfs takes. *)
Definition sys_mount_tmpfs (opts p : string) (m : machine) : Z * machine :=
  if is_dir p m && tmpfs_options_ok opts
  then (0, set_mounts ({| target := p; source := "tmpfs"; options := opts |}
                         :: mounts m) (cover_under p m))
  else (32, m).

(** [mount dev p] for a mapped device: the files of the unlocked filesystem
    appear below [p].  The model keeps them apart from the image file the
    device was opened from: what a later write to the image does to a
    volume still mounted from it is not followed, and nothing here says
    what such files then read as. *)
Definition sys_mount_dev (dev p : string) (m : machine) : Z * machine :=
  match find (fun d => mapper_path (fst d) =? dev) (mapper m) with
  | Some d =>
      if is_dir p m
      then
        let m' := cover_under p m in
        (0, set_mounts ({| target := p; source := dev; options := "" |}
                          :: mounts m)
              (set_files
                 (files m' ++
                  map (fun f => (p +++ "/" +++ fst f, Data (snd f))) (snd d))
                 m'))
      else (32, m)
  | None => (32, m)
  end.

(** [cryptsetup open img name] with the passphrase on standard input:
    exit status and standard error. *)
Definition sys_cryptsetup_open (img name pass : string) (m : machine)
  : (Z * string) * machine :=
  if is_mapped name m
  then ((5, "Device " +++ name +++ " already exists."), m)
  else
    match read_file img m with
    | Some (Luks _ key inner) =>
        if pass =? key
        then ((0, ""), set_mapper ((name, inner) :: mapper m) m)
        else ((2, "No key available with this passphrase."), m)
    | Some _ => ((1, "Device " +++ img +++ " is not a valid LUKS device."), m)
    | None =>
        ((4, "Device " +++ img +++ " does not exist or access denied."), m)
    end.

(** [cryptsetup close name]: status 4 when there is no such mapping, 5 when
    the device is still mounted somewhere. *)
Definition sys_cryptsetup_close (name : string) (m : machine) : Z * machine :=
  if is_mapped name m
  then
    if existsb (fun e => source e =? mapper_path name) (mounts m)
    then (5, m)
    else (0, set_mapper (filter (fun d => negb (fst d =? name)) (mapper m)) m)
  else (4, m).

Definition write_file (p : string) (c : content) (m : machine) : machine :=
  if is_file p m
  then set_files
         (map (fun f => if fst f =? p then (p, c) else f) (files m)) m
  else set_files (files m ++ [(p, c)]) m.

Definition unlink (p : string) (m : machine) : machine :=
  set_files (filter (fun f => negb (fst f =? p)) (files m)) m.

(** [dd if=/dev/urandom of=p bs=.. count=..]: without [conv=notrunc] the
    output is truncated and then holds exactly [bs * count] random bytes,
    whatever its former length. *)
Definition sys_dd_urandom (p : string) (bs count : Z) (m : machine)
  : Z * machine :=
  if is_file p m then (0, write_file p (Random (bs * count)) m)
  else if is_dir p m then (1, m)
  else (0, write_file p (Random (bs * count)) m).

(** [rm -f p]: status 0 also when there is nothing to remove. *)
Definition sys_rm_f (p : string) (m : machine) : Z * machine :=
  if is_file p m then (0, unlink p m)
  else if is_dir p m then (1, m)
  else (0, m).

Definition is_empty_dir (p : string) (m : machine) : bool :=
  negb (existsb (fun f => under p (fst f)) (files m))
  && negb (existsb (fun q => under p q) (dirs m)).

Definition sys_rmdir (p : string) (m : machine) : Z * machine :=
  if is_dir p m && negb (is_mountpoint p m) && is_empty_dir p m
  then (0, set_dirs (filter (fun q => negb (q =? p)) (dirs m)) m)
  else (1, m).

(** The regular files below [d], as [find d -type f] lists them. *)
Definition find_files (d : string) (m : machine) : list string :=
  map fst (filter (fun f => under d (fst f)) (files m)).

(* ================================================================== *)
(** * The destruct unit: [dd-destruct.sh] *)
(* ================================================================== *)

Inductive command :=
| echo (text : string)
| umount (p : string)
| cryptsetup_close (name : string)
| dd_urandom (of_ : string) (bs count : Z)
| rm_f (p : string)
| find_type_f (dir : string)
| rmdir (p : string).

(** One entry per command the shell ran, with its exit status. *)
Inductive sh_event := Ran (c : command) (status : Z).

(** The shell's world.  [sh_faults] decides, command by command, whether the
    command fails for a reason outside the model (device busy, I/O error,
    no space); such a command changes nothing.  The list is read head
    first, and past its end no command is disturbed. *)
Record shell := {
  sh_machine : machine;
  sh_faults : list bool;
  sh_log : list sh_event }.

Definition Sh (A : Type) : Type := shell -> A * shell.

Definition sh_ret {A} (a : A) : Sh A := fun s => (a, s).
Definition sh_bind {A B} (c : Sh A) (k : A -> Sh B) : Sh B :=
  fun s => let (a, s') := c s in k a s'.

Declare Scope sh_scope.
Delimit Scope sh_scope with sh.
Notation "x <- c ;; k" := (sh_bind c (fun x => k))
  (at level 100, c at next level, right associativity) : sh_scope.
Notation "c ;; k" := (sh_bind c (fun _ => k))
  (at level 100, right associativity) : sh_scope.

Definition semantics (c : command) (m : machine) : Z * machine :=
  match c with
  | echo _ => (0, m)
  | umount p => sys_umount p m
  | cryptsetup_close name => sys_cryptsetup_close name m
  | dd_urandom p bs count => sys_dd_urandom p bs count m
  | rm_f p => sys_rm_f p m
  | find_type_f d => (if is_dir d m then 0 else 1, m)
  | rmdir p => sys_rmdir p m
  end.

Definition pop_fault (l : list bool) : bool * list bool :=
  match l with
  | [] => (false, [])
  | b :: l' => (b, l')
  end.

(** [echo] is a builtin writing to the script's standard output, which
    [start_destruct_timer] points at /dev/null: nothing disturbs it. *)
Definition faultable (c : command) : bool :=
  match c with
  | echo _ => false
  | _ => true
  end.

(** Run one command: no [set -e] in the script, so the status is only
    returned. *)
Definition run_command (c : command) : Sh Z := fun s =>
  let (fault, rest) :=
    if faultable c then pop_fault (sh_faults s) else (false, sh_faults s) in
  let (status, m') :=
    if fault then (1, sh_machine s) else semantics c (sh_machine s) in
  (status,
   {| sh_machine := m'; sh_faults := rest;
      sh_log := sh_log s ++ [Ran c status] |}).

Definition mountpoint_q (p : string) : Sh bool :=
  fun s => (is_mountpoint p (sh_machine s), s).
Definition test_e (p : string) : Sh bool :=
  fun s => (path_exists p (sh_machine s), s).
Definition test_f (p : string) : Sh bool :=
  fun s => (is_file p (sh_machine s), s).

Fixpoint exec_each (cs : list command) : Sh Z :=
  match cs with
  | [] => sh_ret 0
  | c :: cs' => (_ <- run_command c;; exec_each cs')%sh
  end.

(** [find dir -type f -exec dd if=/dev/urandom of={} bs=.. count=.. \;]
    One [dd] per regular file found; [find] itself fails when [dir] is not
    there. *)
Definition find_exec_dd (dir : string) (bs count : Z) : Sh Z := fun s =>
  let found := find_files dir (sh_machine s) in
  (_ <- exec_each (map (fun f => dd_urandom f bs count) found);;
   run_command (find_type_f dir))%sh s.

(** The shell function [cleanup_all] of the script. *)
Definition cleanup_all (u : destruct_script) : Sh Z :=
  (_ <- run_command (echo "🔥 Initiating self-destruct sequence...");;
   (* Unmount LUKS if mounted *)
   _ <- (mounted <- mountpoint_q (MOUNT_POINT u);;
         if mounted then run_command (umount (MOUNT_POINT u))
         else sh_ret 0);;
   (* Close LUKS device if open *)
   _ <- (opened <- test_e "/dev/mapper/luks_token";;
         if opened then run_command (cryptsetup_close "luks_token")
         else sh_ret 0);;
   (* Shred LUKS file *)
   _ <- (present <- test_f (LUKS_FILE u);;
         if present
         then (_ <- run_command (dd_urandom (LUKS_FILE u) 1048576 2);;
               run_command (rm_f (LUKS_FILE u)))
         else sh_ret 0);;
   (* Shred RAM disk contents *)
   _ <- find_exec_dd (RAMDISK u) 1024 1024;;
   (* Unmount RAM disk *)
   _ <- run_command (umount (RAMDISK u));;
   _ <- run_command (rmdir (RAMDISK u));;
   run_command (echo "💥 Self-destruct completed"))%sh.

(** ** The two timers

    The top level of the script starts two subshells in the background,
    [(sleep N && cleanup_all) &], each followed by an [echo]. *)

Record process := {
  pid : nat;
  started : Z;         (* the time the subshell was forked *)
  delay : Z;           (* the argument of its [sleep] *)
  action : Sh Z }.     (* what runs after [&&] *)

Record bash := {
  now : Z;
  procs : list process;
  stdout : list string }.

(** [( sleep d && act ) &] *)
Definition background (d : Z) (act : Sh Z) (b : bash) : bash :=
  {| now := now b;
     procs := procs b ++
              [{| pid := S (List.length (procs b)); started := now b;
                  delay := d; action := act |}];
     stdout := stdout b |}.

Definition bash_echo (text : string) (b : bash) : bash :=
  {| now := now b; procs := procs b; stdout := stdout b ++ [text] |}.

Definition str_of_Z (z : Z) : string := NilZero.string_of_int (Z.to_int z).

(** The commands of the script after the definition of [cleanup_all]. *)
Definition dd_destruct_sh (u : destruct_script) (b : bash) : bash :=
  let timer_seconds := script_timer_seconds u in
  let failsafe_timer := script_failsafe_timer u in
  (* Primary timer *)
  let b := background timer_seconds (cleanup_all u) b in
  let b := bash_echo ("⏰ Primary self-destruct timer set for "
                      +++ str_of_Z timer_seconds +++ " seconds") b in
  (* Failsafe timer (3 minutes later) *)
  let b := background failsafe_timer (cleanup_all u) b in
  bash_echo ("🛡️ Failsafe self-destruct timer set for "
             +++ str_of_Z failsafe_timer +++ " seconds") b.

(** [bash script] started at time [t0]. *)
Definition launch (u : destruct_script) (t0 : Z) : bash :=
  dd_destruct_sh u {| now := t0; procs := []; stdout := [] |}.

Definition wake (p : process) : Z := started p + delay p.

(** A signal is a pair of a pid and the time it is delivered.  A subshell
    runs its action when its [sleep] accepts the interval (it rejects a
    negative one) and nothing killed the subshell before the sleep ended. *)
Definition fires (kills : list (nat * Z)) (p : process) : bool :=
  (0 <=? delay p)%Z
  && forallb (fun k => negb ((fst k =? pid p)%nat && (snd k <? wake p)%Z))
       kills.

Fixpoint insert_by_wake (p : process) (l : list process) : list process :=
  match l with
  | [] => [p]
  | q :: l' =>
      if (wake p <? wake q)%Z then p :: q :: l' else q :: insert_by_wake p l'
  end.

Definition by_wake (l : list process) : list process :=
  fold_right insert_by_wake [] l.

(** What the surviving subshells do, in the order of their deadlines: for
    each, the time, the pid and the status of its action. *)
Fixpoint run_timers (l : list process) : Sh (list (Z * nat * Z)) :=
  match l with
  | [] => sh_ret []
  | p :: l' =>
      (status <- action p;;
       rest <- run_timers l';;
       sh_ret ((wake p, pid p, status) :: rest))%sh
  end.

Definition timeline (kills : list (nat * Z)) (b : bash)
  : Sh (list (Z * nat * Z)) :=
  run_timers (by_wake (filter (fires kills) (procs b))).

(* ================================================================== *)
(** * The session: [LUKS-TOKEN.py] *)
(* ================================================================== *)

(** ** Python values and text *)

Definition nl : string := String (ascii_of_nat 10) "".
Definition cr : string := String (ascii_of_nat 13) "".

(** [s * n] *)
Fixpoint repeat_str (s : string) (n : nat) : string :=
  match n with
  | O => ""
  | S n' => s +++ repeat_str s n'
  end.

Fixpoint join (sep : string) (l : list string) : string :=
  match l with
  | [] => ""
  | [s] => s
  | s :: l' => s +++ sep +++ join sep l'
  end.

Definition repr_str (s : string) : string := "'" +++ s +++ "'".
Definition repr_list (l : list string) : string :=
  "[" +++ join ", " (map repr_str l) +++ "]".

(** Text is a [str] in its UTF-8 encoding.  [str.strip()] removes the
    characters [str.isspace()] accepts: U+0009..U+000D, U+001C..U+0020,
    U+0085, U+00A0, U+1680, U+2000..U+200A, U+2028, U+2029, U+202F, U+205F
    and U+3000, which take one, two or three bytes. *)
Definition is_space (c : ascii) : bool :=
  let n := nat_of_ascii c in
  ((9 <=? n) && (n <=? 13) || (28 <=? n) && (n <=? 32))%nat.

(** U+0085 is C2 85 and U+00A0 is C2 A0. *)
Definition is_space2 (a b : ascii) : bool :=
  let x := nat_of_ascii a in
  let y := nat_of_ascii b in
  ((x =? 194) && ((y =? 133) || (y =? 160)))%nat.

(** U+1680 is E1 9A 80; U+2000..U+200A, U+2028, U+2029 and U+202F are
    E2 80 80..8A, E2 80 A8, E2 80 A9 and E2 80 AF; U+205F is E2 81 9F;
    U+3000 is E3 80 80. *)
Definition is_space3 (a b c : ascii) : bool :=
  let x := nat_of_ascii a in
  let y := nat_of_ascii b in
  let z := nat_of_ascii c in
  ((x =? 225) && (y =? 154) && (z =? 128)
   || (x =? 226) && (y =? 128)
      && ((128 <=? z) && (z <=? 138) || (z =? 168) || (z =? 169)
          || (z =? 175))
   || (x =? 226) && (y =? 129) && (z =? 159)
   || (x =? 227) && (y =? 128) && (z =? 128))%nat.

(** Drop the white space a text starts with; [sp2] and [sp3] recognise the
    characters of two and three bytes. *)
Fixpoint lstrip_with (sp2 : ascii -> ascii -> bool)
  (sp3 : ascii -> ascii -> ascii -> bool) (s : string) : string :=
  match s with
  | EmptyString => EmptyString
  | String a s1 =>
      if is_space a then lstrip_with sp2 sp3 s1
      else
        match s1 with
        | EmptyString => s
        | String b s2 =>
            if sp2 a b then lstrip_with sp2 sp3 s2
            else
              match s2 with
              | EmptyString => s
              | String c s3 =>
                  if sp3 a b c then lstrip_with sp2 sp3 s3 else s
              end
        end
  end.

Definition lstrip (s : string) : string := lstrip_with is_space2 is_space3 s.

Fixpoint rev_append_string (s acc : string) : string :=
  match s with
  | EmptyString => acc
  | String c s' => rev_append_string s' (String c acc)
  end.

Definition rev_string (s : string) : string := rev_append_string s "".

(** The same from the end: on the reversed text the bytes of a character
    come last byte first. *)
Definition rstrip (s : string) : string :=
  rev_string
    (lstrip_with (fun b a => is_space2 a b) (fun c b a => is_space3 a b c)
       (rev_string s)).

Definition strip (s : string) : string := rstrip (lstrip s).

Definition lower_ascii (c : ascii) : ascii :=
  let n := nat_of_ascii c in
  if ((65 <=? n) && (n <=? 90))%nat then ascii_of_nat (n + 32) else c.

Fixpoint lower (s : string) : string :=
  match s with
  | EmptyString => EmptyString
  | String c s' => String (lower_ascii c) (lower s')
  end.

(** A dict with string keys, as the list of its items. *)
Definition dict_get {V : Type} (k : string) (d : list (string * V))
  : option V :=
  option_map snd (find (fun kv => fst kv =? k) d).

Inductive exn :=
| KeyboardInterrupt
| SystemExit (code : Z)
| CalledProcessError (cmd : list string) (returncode : Z)
| EOFError (msg : string)
| OSError (msg : string)
| URLError (reason : string)
| ContentTooShortError (msg : string)
| UnicodeDecodeError (msg : string).

(** [isinstance(e, Exception)]: [KeyboardInterrupt] and [SystemExit] derive
    from [BaseException] only. *)
Definition is_Exception (e : exn) : bool :=
  match e with
  | KeyboardInterrupt | SystemExit _ => false
  | _ => true
  end.

(** [str(e)] *)
Definition str_exn (e : exn) : string :=
  match e with
  | KeyboardInterrupt => ""
  | SystemExit code => str_of_Z code
  | CalledProcessError cmd returncode =>
      "Command '" +++ repr_list cmd +++ "' returned non-zero exit status "
      +++ str_of_Z returncode +++ "."
  | EOFError msg => msg
  | OSError msg => msg
  | URLError reason => "<urlopen error " +++ reason +++ ">"
  | ContentTooShortError msg => "<urlopen error " +++ msg +++ ">"
  | UnicodeDecodeError msg => msg
  end.

(** ** The world of the Python process *)

(** What the operator does when the program waits for a line: type one, or
    press Ctrl-C.  The end of the list is end of file (Ctrl-D at a terminal,
    the end of a pipe).  An interrupt reaches the program where it waits: at
    a prompt, or during the fetch ([Aborted] below). *)
Inductive key := Line (s : string) | CtrlC.

(** What happens to the one GET: the server answers with a body (and says,
    or not, how long it is), the transport fails, or the operator
    interrupts. *)
Inductive fetch :=
| Served (content_length_header : option Z) (body : content)
| Refused (reason : string)
| Aborted.

(** What the process does that can be seen from outside. *)
Inductive event :=
| Printed (text : string)
| Progress (downloaded total_size : Z)
| Ask (prompt : string)
| AskSecret (prompt : string)
| Get (url : string)
| Exec (argv : list string) (stdin : option string) (returncode : Z)
| Shell (cmd : string)
| Written (path : string)
| Removed (path : string).

(** [interactive]: standard input and standard output are both a terminal,
    so that [input()] reads its line through the terminal's line editor;
    otherwise it reads standard input as a file.  The two ways differ in
    the [EOFError] they raise. *)
Record world := {
  sys : machine;
  euid : Z;
  tty : list key;
  interactive : bool;
  net : fetch;
  faults : list bool;                 (* as [sh_faults] *)
  detached : list destruct_script;    (* units launched in the background *)
  out : list event }.

Definition set_sys (m : machine) (w : world) : world :=
  {| sys := m; euid := euid w; tty := tty w; interactive := interactive w;
     net := net w; faults := faults w; detached := detached w;
     out := out w |}.
Definition set_tty (l : list key) (w : world) : world :=
  {| sys := sys w; euid := euid w; tty := l; interactive := interactive w;
     net := net w; faults := faults w; detached := detached w;
     out := out w |}.
Definition set_net (n : fetch) (w : world) : world :=
  {| sys := sys w; euid := euid w; tty := tty w;
     interactive := interactive w; net := n; faults := faults w;
     detached := detached w; out := out w |}.
Definition set_faults (l : list bool) (w : world) : world :=
  {| sys := sys w; euid := euid w; tty := tty w;
     interactive := interactive w; net := net w; faults := l;
     detached := detached w; out := out w |}.
Definition set_detached (l : list destruct_script) (w : world) : world :=
  {| sys := sys w; euid := euid w; tty := tty w;
     interactive := interactive w; net := net w; faults := faults w;
     detached := l; out := out w |}.
Definition set_out (l : list event) (w : world) : world :=
  {| sys := sys w; euid := euid w; tty := tty w;
     interactive := interactive w; net := net w; faults := faults w;
     detached := detached w; out := l |}.

Inductive result (A : Type) :=
| Return (a : A)
| Raise (e : exn).
Arguments Return {A} a.
Arguments Raise {A} e.

(** A Python computation: it returns or raises, and the world moves on
    either way. *)
Definition Py (A : Type) : Type := world -> result A * world.

Definition ret {A} (a : A) : Py A := fun w => (Return a, w).
Definition raise {A} (e : exn) : Py A := fun w => (Raise e, w).
Definition bind {A B} (c : Py A) (k : A -> Py B) : Py B := fun w =>
  match c w with
  | (Return a, w') => k a w'
  | (Raise e, w') => (Raise e, w')
  end.

(** [try: c except ...]: the handler answers [None] for an exception no
    clause matches. *)
Definition try_except {A} (c : Py A) (handler : exn -> option (Py A))
  : Py A := fun w =>
  match c w with
  | (Return a, w') => (Return a, w')
  | (Raise e, w') =>
      match handler e with
      | Some h => h w'
      | None => (Raise e, w')
      end
  end.

Declare Scope py_scope.
Delimit Scope py_scope with py.
Notation "x <- c ;; k" := (bind c (fun x => k))
  (at level 100, c at next level, right associativity) : py_scope.
Notation "c ;; k" := (bind c (fun _ => k))
  (at level 100, right associativity) : py_scope.
Local Open Scope py_scope.

(** [while True: body].  The body answers [Some v] to leave the loop
    ([return v], [break]) and [None] to go round again. *)
Fixpoint while_true {A} (fuel : nat) (body : Py (option A)) (w : world)
  : option (result A * world) :=
  match fuel with
  | O => None
  | S fuel' =>
      match body w with
      | (Return (Some v), w') => Some (Return v, w')
      | (Return None, w') => while_true fuel' body w'
      | (Raise e, w') => Some (Raise e, w')
      end
  end.

(** Both loops of the program read a line in every round, so one round more
    than there are keys left is enough ([while_true_enough] below); the
    default is never taken. *)
Definition loop {A} (body : Py (option A)) : Py A := fun w =>
  match while_true (S (List.length (tty w))) body w with
  | Some r => r
  | None => (Raise (EOFError ""), w)
  end.

(** ** Builtins and library calls *)

Definition emit (e : event) : Py unit := fun w =>
  (Return tt, set_out (out w ++ [e]) w).

Definition print (text : string) : Py unit := emit (Printed text).

(** Read a line; [eof] is the message of the [EOFError] at the end of the
    input. *)
Definition read_key (eof : string) : Py string := fun w =>
  match tty w with
  | [] => (Raise (EOFError eof), w)
  | Line s :: rest => (Return s, set_tty rest w)
  | CtrlC :: rest => (Raise KeyboardInterrupt, set_tty rest w)
  end.

(** The [EOFError] of [input()]: raised without a message by the
    terminal's line editor, with one when standard input is read as a
    file. *)
Definition input_eof (w : world) : string :=
  if interactive w then "" else "EOF when reading a line".

Definition input (prompt : string) : Py string :=
  _ <- emit (Ask prompt);; fun w => read_key (input_eof w) w.

(** [getpass.getpass]: the line is not echoed; at the end of the input it
    raises [EOFError] without a message. *)
Definition getpass (prompt : string) : Py string :=
  _ <- emit (AskSecret prompt);; read_key "".

Definition geteuid : Py Z := fun w => (Return (euid w), w).

Definition sys_exit {A} (code : Z) : Py A := raise (SystemExit code).

Definition fault : Py bool := fun w =>
  let (b, rest) := pop_fault (faults w) in (Return b, set_faults rest w).

(** [os.makedirs(path, exist_ok=True)] *)
Definition os_makedirs (path : string) : Py unit :=
  failed <- fault;;
  if failed
  then raise (OSError ("[Errno 13] Permission denied: " +++ repr_str path))
  else fun w =>
    if is_file path (sys w)
    then (Raise (OSError ("[Errno 17] File exists: " +++ repr_str path)), w)
    else if is_dir path (sys w) then (Return tt, w)
    else (Return tt, set_sys (set_dirs (dirs (sys w) ++ [path]) (sys w)) w).

(** What the programs the session starts do to the machine, from their
    argument vector and standard input: exit status and standard error. *)
Definition execute (argv : list string) (stdin : option string) (m : machine)
  : (Z * string) * machine :=
  let quiet (r : Z * machine) := ((fst r, ""), snd r) in
  match argv with
  | [prog; p] =>
      if prog =? "umount" then quiet (sys_umount p m)
      else ((127, "command not found"), m)
  | [prog; a; b] =>
      if (prog =? "cryptsetup") && (a =? "close")
      then quiet (sys_cryptsetup_close b m)
      else if prog =? "mount" then quiet (sys_mount_dev a b m)
      else ((127, "command not found"), m)
  | [prog; a; img; name] =>
      if (prog =? "cryptsetup") && (a =? "open")
      then sys_cryptsetup_open img name
             (match stdin with Some pass => pass | None => "" end) m
      else ((127, "command not found"), m)
  | [prog; t; fstype; o; opts; src; p] =>
      if (prog =? "mount") && (t =? "-t") && (fstype =? "tmpfs")
         && (o =? "-o") && (src =? "tmpfs")
      then quiet (sys_mount_tmpfs opts p m)
      else ((127, "command not found"), m)
  | _ => ((127, "command not found"), m)
  end.

(** Start a program and wait for it.  The programs the session starts
    ([mount], [umount], [cryptsetup]) are taken to be installed: a program
    that cannot be started at all is outside this model. *)
Definition spawn (argv : list string) (stdin : option string)
  : Py (Z * string) :=
  failed <- fault;;
  fun w =>
    let (r, m') :=
      if failed then ((1, ""), sys w) else execute argv stdin (sys w) in
    (Return r, set_out (out w ++ [Exec argv stdin (fst r)]) (set_sys m' w)).

(** [subprocess.run(argv, check=check)], the return code. *)
Definition subprocess_run (argv : list string) (check : bool) : Py Z :=
  r <- spawn argv None;;
  if check && negb (fst r =? 0)%Z
  then raise (CalledProcessError argv (fst r))
  else ret (fst r).

(** [proc = subprocess.Popen(argv, stdin=PIPE, stdout=PIPE, stderr=PIPE)]
    and [proc.communicate(input=data)]: [proc.returncode] and [stderr]. *)
Definition Popen_communicate (argv : list string) (data : string)
  : Py (Z * string) :=
  spawn argv (Some data).

(** The detached [nohup bash script_path > /dev/null 2>&1 &]: bash runs the
    script the file holds, if it holds one.  The world of the session
    records the launch only: what the unit does to the machine, and when,
    is on the bash side ([launch], [timeline]), so that a world is what the
    session itself has done up to that point. *)
Definition nohup_bash (script_path : string) : Py unit := fun w =>
  match read_file script_path (sys w) with
  | Some (Script u) => (Return tt, set_detached (detached w ++ [u]) w)
  | _ => (Return tt, w)
  end.

(** [subprocess.Popen(cmd, shell=True, preexec_fn=os.setsid)]; [meaning] is
    what the command line does. *)
Definition Popen_shell (cmd : string) (meaning : Py unit) : Py unit :=
  failed <- fault;;
  if failed
  then raise (OSError "[Errno 11] Resource temporarily unavailable")
  else (_ <- emit (Shell cmd);; meaning).

(** [with open(path, 'w') as f: f.write(c)] *)
Definition open_write (path : string) (c : content) : Py unit :=
  failed <- fault;;
  if failed
  then raise (OSError ("[Errno 28] No space left on device: "
                       +++ repr_str path))
  else fun w =>
    if is_dir path (sys w)
    then (Raise (OSError ("[Errno 21] Is a directory: " +++ repr_str path)), w)
    else (Return tt,
          set_out (out w ++ [Written path]) (set_sys (write_file path c (sys w)) w)).

(** [with open(path, 'r') as f: f.read()] *)
Definition open_read (path : string) : Py string :=
  failed <- fault;;
  if failed
  then raise (OSError ("[Errno 5] Input/output error: " +++ repr_str path))
  else fun w =>
    match read_file path (sys w) with
    | Some (Data bytes) => (Return bytes, w)
    | Some _ =>
        (Raise (UnicodeDecodeError
                  "'utf-8' codec can't decode byte: invalid start byte"), w)
    | None =>
        (Raise (OSError ("[Errno 2] No such file or directory: "
                         +++ repr_str path)), w)
    end.

Definition os_chmod (path : string) (mode : Z) : Py unit := fun w =>
  if is_file path (sys w) then (Return tt, w)
  else (Raise (OSError ("[Errno 2] No such file or directory: "
                        +++ repr_str path)), w).

Definition os_path_exists (path : string) : Py bool := fun w =>
  (Return (path_exists path (sys w)), w).

Definition os_path_ismount (path : string) : Py bool := fun w =>
  (Return (is_mountpoint path (sys w)), w).

(** [os.remove(path)] *)
Definition os_remove (path : string) : Py unit :=
  failed <- fault;;
  if failed
  then raise (OSError ("[Errno 13] Permission denied: " +++ repr_str path))
  else fun w =>
    if is_file path (sys w)
    then (Return tt,
          set_out (out w ++ [Removed path]) (set_sys (unlink path (sys w)) w))
    else (Raise (OSError ("[Errno 2] No such file or directory: "
                          +++ repr_str path)), w).

(** [reporthook(k, bs, size)] for [k = first, first + 1, ...], [n] times. *)
Fixpoint report_blocks (reporthook : Z -> Z -> Z -> Py unit) (n : nat)
  (first bs size : Z) : Py unit :=
  match n with
  | O => ret tt
  | S n' =>
      _ <- reporthook first bs size;;
      report_blocks reporthook n' (first + 1) bs size
  end.

(** What the client reads of the body the server sends: no more than the
    Content-Length, when there is one (and it is not negative). *)
Definition received (header : option Z) (body : content) : content :=
  match header with
  | Some n =>
      if (0 <=? n)%Z && (n <? content_length body)%Z
      then Partial n body
      else body
  | None => body
  end.

(** [urllib.request.urlretrieve(url, filename, reporthook)]: the hook is
    called once before the first block and once after each block of
    [bs = 1024*8] bytes read, with the block count so far; [size] is the
    Content-Length, or -1 without one.  The client reads no further than
    the announced length; a body shorter than announced raises after the
    file was written. *)
Definition urlretrieve (url filename : string)
  (reporthook : Z -> Z -> Z -> Py unit) : Py unit :=
  _ <- emit (Get url);;
  fun w =>
    match net w with
    | Refused reason => (Raise (URLError reason), w)
    | Aborted => (Raise KeyboardInterrupt, w)
    | Served header body =>
        (let bs := 1024 * 8 in
         let size := match header with Some n => n | None => -1 end in
         let got := received header body in
         let read := content_length got in
         _ <- open_write filename got;;
         _ <- reporthook 0 bs size;;
         _ <- report_blocks reporthook (Z.to_nat ((read + bs - 1) / bs))
                1 bs size;;
         if (0 <=? size)%Z && (read <? size)%Z
         then raise (ContentTooShortError
                       ("retrieval incomplete: got only " +++ str_of_Z read
                        +++ " out of " +++ str_of_Z size +++ " bytes"))
         else ret tt) w
    end.

(** ** class LUKSTokenSystem *)

Record LUKSTokenSystem := {
  ramdisk_path : string;
  ramdisk_size : string;
  luks_url : string;
  luks_file : string;
  mount_point : string;
  loop_device : option string }.

(** [__init__] *)
Definition init : LUKSTokenSystem :=
  {| ramdisk_path := "/tmp/luks_ramdisk";
     ramdisk_size := "5M";
     luks_url := "https://github.com/GlitchLinux/LUKS-TOKEN/raw/refs/heads/main/LUKS-TOKEN-2MB.img";
     luks_file := "/tmp/LUKS-TOKEN-2MB.img";
     mount_point := "/tmp/LUKS-TOKEN-2MB";
     loop_device := None |}.

Definition check_root (self : LUKSTokenSystem) : Py unit :=
  uid <- geteuid;;
  if negb (uid =? 0)%Z
  then
    _ <- print "❌ This script requires root privileges for LUKS operations!";;
    _ <- print "Please run with: sudo python3 script.py";;
    sys_exit 1
  else ret tt.

Definition create_ramdisk (self : LUKSTokenSystem) : Py bool :=
  _ <- print ("🚀 Creating " +++ ramdisk_size self +++ " RAM disk at "
              +++ ramdisk_path self +++ "...");;
  try_except
    ((* Create mount point *)
     _ <- os_makedirs (ramdisk_path self);;
     (* Mount tmpfs RAM disk *)
     _ <- subprocess_run
            ["mount"; "-t"; "tmpfs"; "-o"; "size=" +++ ramdisk_size self;
             "tmpfs"; ramdisk_path self] true;;
     _ <- print ("✅ RAM disk created successfully at " +++ ramdisk_path self);;
     ret true)
    (fun e =>
       match e with
       | CalledProcessError _ _ =>
           Some (_ <- print ("❌ Failed to create RAM disk: " +++ str_exn e);;
                 ret false)
       | _ => None
       end).

(** The hook prints [percent = (downloaded / total_size) * 100] with one
    decimal.  The quotient is a float; the event keeps the two integers it
    is computed from. *)
Definition progress_hook (block_num block_size total_size : Z) : Py unit :=
  let downloaded := block_num * block_size in
  if (total_size >? 0)%Z
  then emit (Progress downloaded total_size)
  else ret tt.

Definition download_luks_volume (self : LUKSTokenSystem) : Py bool :=
  _ <- print ("📥 Downloading LUKS volume from " +++ luks_url self +++ "...");;
  try_except
    (_ <- urlretrieve (luks_url self) (luks_file self) progress_hook;;
     _ <- print (nl +++ "✅ Downloaded LUKS volume to " +++ luks_file self);;
     ret true)
    (fun e =>
       if is_Exception e
       then Some (_ <- print (nl +++ "❌ Failed to download LUKS volume: "
                              +++ str_exn e);;
                  ret false)
       else None).

Definition timer_map : list (string * (Z * string)) :=
  [("1", (60, "1 minute"));
   ("2", (300, "5 minutes"));
   ("3", (600, "10 minutes"))].

(** One round of the [while True] of [get_timer_selection]. *)
Definition get_timer_selection_round : Py (option Z) :=
  try_except
    (line <- input (nl +++ "Enter your choice (1-3): ");;
     let choice := strip line in
     match dict_get choice timer_map with
     | Some (seconds, description) =>
         _ <- print ("⏱️ Selected: " +++ description);;
         ret (Some seconds)
     | None =>
         _ <- print "❌ Invalid choice. Please enter 1, 2, or 3.";;
         ret None
     end)
    (fun e =>
       match e with
       | KeyboardInterrupt =>
           Some (_ <- print (nl +++ nl +++ "🛑 Operation cancelled by user");;
                 sys_exit 1)
       | _ => None
       end).

Definition get_timer_selection (self : LUKSTokenSystem) : Py Z :=
  _ <- print (nl +++ "⏰ Select TOKEN LIFETIME:");;
  _ <- print "1. 1 Minute";;
  _ <- print "2. 5 Minutes";;
  _ <- print "3. 10 Minutes";;
  loop get_timer_selection_round.

(** [script_content]: the f-string, by what it interpolates. *)
Definition script_content (self : LUKSTokenSystem) (timer_seconds : Z)
  : destruct_script :=
  let failsafe_timer := timer_seconds + 180 in  (* 3 minutes later *)
  {| script_timer_seconds := timer_seconds;
     script_failsafe_timer := failsafe_timer;
     RAMDISK := ramdisk_path self;
     LUKS_FILE := luks_file self;
     MOUNT_POINT := mount_point self |}.

(** The script path, or [None]. *)
Definition create_destruct_script (self : LUKSTokenSystem) (timer_seconds : Z)
  : Py (option string) :=
  let destruct_script := ramdisk_path self +++ "/dd-destruct.sh" in
  try_except
    (_ <- open_write destruct_script (Script (script_content self timer_seconds));;
     _ <- os_chmod destruct_script 493;;   (* 0o755 *)
     _ <- print ("🔥 Self-destruct script created at " +++ destruct_script);;
     ret (Some destruct_script))
    (fun e =>
       if is_Exception e
       then Some (_ <- print ("❌ Failed to create destruct script: "
                              +++ str_exn e);;
                  ret None)
       else None).

Definition start_destruct_timer (self : LUKSTokenSystem) (script_path : string)
  : Py bool :=
  try_except
    ((* Start as nohup background process with misleading name *)
     let cmd := "nohup bash " +++ script_path +++ " > /dev/null 2>&1 &" in
     _ <- Popen_shell cmd (nohup_bash script_path);;
     _ <- print "⏳ Self-destruct timers activated and running in background";;
     ret true)
    (fun e =>
       if is_Exception e
       then Some (_ <- print ("❌ Failed to start destruct timer: "
                              +++ str_exn e);;
                  ret false)
       else None).

Definition max_attempts : Z := 3.

(** [range(n)] *)
Definition range (n : Z) : list Z :=
  map Z.of_nat (seq 0 (Z.to_nat n)).

(** The body of the [for attempt in range(max_attempts)] of
    [mount_luks_volume]: [Some v] is [return v], [None] the end of the
    round. *)
Definition mount_luks_volume_attempt (self : LUKSTokenSystem) (attempt : Z)
  : Py (option bool) :=
  try_except
    ((* Get passphrase *)
     passphrase <- getpass ("🔑 Enter LUKS passphrase (attempt "
                            +++ str_of_Z (attempt + 1) +++ "/"
                            +++ str_of_Z max_attempts +++ "): ");;
     (* Open LUKS device *)
     proc <- Popen_communicate
               ["cryptsetup"; "open"; luks_file self; "luks_token"]
               passphrase;;
     let (returncode, stderr) := proc in
     if (returncode =? 0)%Z
     then
       _ <- print "✅ LUKS device opened successfully";;
       (* Mount the filesystem *)
       _ <- subprocess_run
              ["mount"; "/dev/mapper/luks_token"; mount_point self] true;;
       _ <- print ("✅ LUKS volume mounted at " +++ mount_point self);;
       ret (Some true)
     else
       _ <- print ("❌ Failed to open LUKS device: " +++ stderr);;
       if (attempt =? max_attempts - 1)%Z
       then
         _ <- print "🚫 Maximum attempts reached. Exiting.";;
         ret (Some false)
       else ret None)
    (fun e =>
       match e with
       | CalledProcessError _ _ =>
           Some (_ <- print ("❌ Mount failed: " +++ str_exn e);;
                 ret (Some false))
       | KeyboardInterrupt =>
           Some (_ <- print (nl +++ nl +++ "🛑 Operation cancelled by user");;
                 ret (Some false))
       | _ => None
       end).

(** [for x in xs: body]; falling off the end of the function returns
    [None]. *)
Fixpoint for_return {X A} (xs : list X) (body : X -> Py (option A))
  : Py (option A) :=
  match xs with
  | [] => ret None
  | x :: xs' =>
      r <- body x;;
      match r with
      | Some v => ret (Some v)
      | None => for_return xs' body
      end
  end.

(** [True], [False], or [None]. *)
Definition mount_luks_volume (self : LUKSTokenSystem) : Py (option bool) :=
  _ <- print (nl +++ "🔐 Mounting LUKS volume...");;
  (* Create mount point *)
  _ <- os_makedirs (mount_point self);;
  for_return (range max_attempts) (mount_luks_volume_attempt self).

(** The inner [try] of [display_file_menu]: display file content. *)
Definition display_file_content (file_path file_name : string) : Py unit :=
  try_except
    (present <- os_path_exists file_path;;
     if present
     then
       _ <- print (nl +++ "📄 Contents of " +++ file_name +++ ":");;
       _ <- print (repeat_str "=" 50);;
       content <- open_read file_path;;
       _ <- print content;;
       print (repeat_str "=" 50)
     else
       print ("❌ File " +++ file_name +++ " not found in LUKS volume"))
    (fun e =>
       if is_Exception e
       then Some (print ("❌ Error reading file: " +++ str_exn e))
       else None).

(** One round of the [while True] of [display_file_menu]; [Some tt] is
    [break]. *)
Definition display_file_menu_round (self : LUKSTokenSystem)
  : Py (option unit) :=
  try_except
    (line <- input (nl +++ "Enter your choice (1-2): ");;
     let choice := strip line in
     match
       (if choice =? "1"
        then Some (mount_point self +++ "/Notes.txt", "Notes.txt")
        else if choice =? "2"
        then Some (mount_point self +++ "/GitHub Token", "GitHub Token")
        else None)
     with
     | None =>
         _ <- print "❌ Invalid choice. Please enter 1 or 2.";;
         ret None                                     (* continue *)
     | Some (file_path, file_name) =>
         (* Display file content *)
         _ <- display_file_content file_path file_name;;
         (* Ask if user wants to view another file *)
         line <- input (nl +++ "View another file? (y/n): ");;
         let another := lower (strip line) in
         if negb (another =? "y") then ret (Some tt)  (* break *)
         else ret None
     end)
    (fun e =>
       match e with
       | KeyboardInterrupt =>
           Some (_ <- print (nl +++ nl +++ "🛑 Operation cancelled by user");;
                 ret (Some tt))                       (* break *)
       | _ => None
       end).

Definition display_file_menu (self : LUKSTokenSystem) : Py unit :=
  _ <- print (nl +++ "📁 Available files:");;
  _ <- print "1. Notes.txt";;
  _ <- print "2. GitHub Token";;
  loop (display_file_menu_round self).

Definition cleanup_on_exit (self : LUKSTokenSystem) : Py unit :=
  try_except
    (mounted <- os_path_ismount (mount_point self);;
     _ <- (if mounted
           then (_ <- subprocess_run ["umount"; mount_point self] false;;
                 ret tt)
           else ret tt);;
     _ <- subprocess_run ["cryptsetup"; "close"; "luks_token"] false;;
     present <- os_path_exists (luks_file self);;
     if present then os_remove (luks_file self) else ret tt)
    (fun e => if is_Exception e then Some (ret tt) else None).

Definition session_ended : string :=
  nl +++ "👋 Session ended. Self-destruct timers remain active.".

Definition run (self : LUKSTokenSystem) : Py bool :=
  _ <- print "🔐 LUKS Token Self-Destruct System";;
  _ <- print (repeat_str "=" 40);;
  try_except
    ((* Check root privileges *)
     _ <- check_root self;;
     (* Create RAM disk *)
     created <- create_ramdisk self;;
     if negb created then ret false else
     (* Download LUKS volume *)
     downloaded <- download_luks_volume self;;
     if negb downloaded then ret false else
     (* Get timer selection *)
     timer_seconds <- get_timer_selection self;;
     (* Create destruct script *)
     script_path <- create_destruct_script self timer_seconds;;
     match script_path with
     | None => ret false
     | Some script_path =>
     if script_path =? "" then ret false else
     (* Mount LUKS volume *)
     mounted <- mount_luks_volume self;;
     if negb (match mounted with Some b => b | None => false end)
     then ret false else
     (* Start destruct timer *)
     started <- start_destruct_timer self script_path;;
     if negb started then ret false else
     _ <- print (nl +++ "🎯 LUKS token system ready! Timer: "
                 +++ str_of_Z (timer_seconds / 60) +++ " minute(s)");;
     _ <- print "⚠️  RAM disk will self-destruct automatically!";;
     (* Display file menu *)
     _ <- display_file_menu self;;
     _ <- print session_ended;;
     ret true
     end)
    (fun e =>
       match e with
       | KeyboardInterrupt =>
           Some (_ <- print (nl +++ nl +++ "🛑 Operation cancelled by user");;
                 ret false)
       | _ =>
           if is_Exception e
           then Some (_ <- print (nl +++ "❌ Unexpected error: " +++ str_exn e);;
                      ret false)
           else None
       end).

(** [main]: [sys.exit(0 if success else 1)]. *)
Definition main : Py unit :=
  let system := init in
  success <- run system;;
  sys_exit (if success then 0 else 1).

(** The exit status of the interpreter for what the program ended with. *)
Definition exit_status (r : result unit) : Z :=
  match r with
  | Return _ => 0
  | Raise (SystemExit code) => code
  | Raise KeyboardInterrupt => 130
  | Raise _ => 1
  end.

(** [python3 LUKS-TOKEN.py]: exit status and final world. *)
Definition program (w : world) : Z * world :=
  let (r, w') := main w in (exit_status r, w').

(* ================================================================== *)
(** * Reading the traces, and a sample session *)
(* ================================================================== *)

(** The commands of a shell log, in order. *)
Definition commands (l : list sh_event) : list command :=
  map (fun e => match e with Ran c _ => c end) l.

(** The log entries for the commands [cs] with the statuses [sts]. *)
Definition ran (cs : list command) (sts : list Z) : list sh_event :=
  map (fun p => Ran (fst p) (snd p)) (combine cs sts).

(** Every [rm -f img] in a list of commands comes right after a
    [dd if=/dev/urandom of=img] of 2 MiB. *)
Fixpoint rm_after_dd (img : string) (previous : option command)
  (cs : list command) : bool :=
  match cs with
  | [] => true
  | c :: cs' =>
      match c with
      | rm_f p =>
          if p =? img
          then match previous with
               | Some (dd_urandom q bs count) =>
                   (q =? img) && (bs * count =? 2097152)%Z
               | _ => false
               end
          else true
      | _ => true
      end
      && rm_after_dd img (Some c) cs'
  end.

(** What [cleanup_all] makes of a machine when no command is disturbed. *)
Definition wiped (u : destruct_script) (m : machine) : machine :=
  let m1 :=
    if is_mountpoint (MOUNT_POINT u) m
    then snd (sys_umount (MOUNT_POINT u) m) else m in
  let m2 :=
    if path_exists "/dev/mapper/luks_token" m1
    then snd (sys_cryptsetup_close "luks_token" m1) else m1 in
  let m3 :=
    if is_file (LUKS_FILE u) m2
    then snd (sys_rm_f (LUKS_FILE u)
                (snd (sys_dd_urandom (LUKS_FILE u) 1048576 2 m2)))
    else m2 in
  let m4 :=
    fold_left (fun m f => snd (sys_dd_urandom f 1024 1024 m))
      (find_files (RAMDISK u) m3) m3 in
  snd (sys_rmdir (RAMDISK u) (snd (sys_umount (RAMDISK u) m4))).

(** The end state the unit is for: no mount at the mount point, no mapper
    entry, no image file, no volatile-store directory (nor a mount or a file
    of it). *)
Definition destroyed (u : destruct_script) (m : machine) : Prop :=
  is_mountpoint (MOUNT_POINT u) m = false /\
  is_mapped "luks_token" m = false /\
  is_file (LUKS_FILE u) m = false /\
  is_dir (RAMDISK u) m = false /\
  is_mountpoint (RAMDISK u) m = false /\
  find_files (RAMDISK u) m = [].

(** The machines the unit is armed on: the mount point and the volatile
    store do not lie one inside the other, no target is mounted twice, the
    unlocked device is mounted nowhere but at the mount point, and the
    volatile store is either mounted with nothing hidden below the mount,
    or not mounted with nothing in it (already gone, for one). *)
Definition armed (u : destruct_script) (m : machine) : Prop :=
  under (MOUNT_POINT u) (RAMDISK u) = false /\
  under (RAMDISK u) (MOUNT_POINT u) = false /\
  NoDup (map target (mounts m)) /\
  (forall e, In e (mounts m) ->
             source e = mapper_path "luks_token" -> target e = MOUNT_POINT u) /\
  ((is_mountpoint (RAMDISK u) m = true /\
    uncovered_files (RAMDISK u) m = [] /\ uncovered_dirs (RAMDISK u) m = [])
   \/ (is_mountpoint (RAMDISK u) m = false /\
       is_empty_dir (RAMDISK u) m = true)).

Definition quiet_shell (m : machine) : shell :=
  {| sh_machine := m; sh_faults := []; sh_log := [] |}.

(** The events a computation added. *)
Definition exec_events (l : list event) : list (list string * option string) :=
  flat_map (fun e => match e with
                     | Exec argv stdin _ => [(argv, stdin)]
                     | _ => []
                     end) l.

Definition stdin_payloads (l : list event) : list string :=
  flat_map (fun e => match e with
                     | Exec _ (Some data) _ => [data]
                     | _ => []
                     end) l.

Definition lines_typed (l : list key) : list string :=
  flat_map (fun k => match k with Line s => [s] | CtrlC => [] end) l.

Definition secret_prompts (l : list event) : list string :=
  flat_map (fun e => match e with AskSecret p => [p] | _ => [] end) l.

Definition progress_reports (l : list event) : list (Z * Z) :=
  flat_map (fun e => match e with
                     | Progress downloaded total_size =>
                         [(downloaded, total_size)]
                     | _ => []
                     end) l.

(** ** The stages of [run] *)

(** An exception that ends the process with status 1 when nothing catches
    it, or that [run] catches. *)
Definition benign (e : exn) : Prop :=
  match e with
  | SystemExit code => code = 1
  | _ => True
  end.

Definition raises_only {A} (P : exn -> Prop) (c : Py A) : Prop :=
  forall w e w', c w = (Raise e, w') -> P e.

(** The world once a prompt is out. *)
Definition asked (prompt : string) (w : world) : world :=
  set_out (out w ++ [Ask prompt]) w.

Definition asked_secret (prompt : string) (w : world) : world :=
  set_out (out w ++ [AskSecret prompt]) w.

(** The two argument vectors of [mount_luks_volume] and its prompt. *)
Definition cryptsetup_argv (self : LUKSTokenSystem) : list string :=
  ["cryptsetup"; "open"; luks_file self; "luks_token"].

Definition mount_argv (self : LUKSTokenSystem) : list string :=
  ["mount"; "/dev/mapper/luks_token"; mount_point self].

Definition attempt_prompt (attempt : Z) : string :=
  "🔑 Enter LUKS passphrase (attempt " +++ str_of_Z (attempt + 1) +++ "/"
  +++ str_of_Z max_attempts +++ "): ".

(** The encryption service does not accept the passphrase [p] for the
    image on the machine [m]. *)
Definition rejected (self : LUKSTokenSystem) (m : machine) (p : string)
  : Prop :=
  fst (fst (sys_cryptsetup_open (luks_file self) "luks_token" p m)) <> 0.

(** What a part of [mount_luks_volume] did between two worlds: it printed
    [new], read [consumed] from the terminal, handed every line it read to a
    process on standard input, and started nothing but [cryptsetup open] and
    [mount], with argument vectors that are built from [self] alone. *)
Definition unlock_trace (self : LUKSTokenSystem) (w w' : world)
  (prompts : list string) : Prop :=
  exists new consumed,
    out w' = out w ++ new /\
    tty w = consumed ++ tty w' /\
    secret_prompts new = prompts /\
    stdin_payloads new = lines_typed consumed /\
    forall argv stdin,
      In (argv, stdin) (exec_events new) ->
      (argv = cryptsetup_argv self /\
       exists p, stdin = Some p /\ In (Line p) consumed) \/
      (argv = mount_argv self /\ stdin = None).

(** The world after the two lines [run] starts with. *)
Definition greeted (w : world) : world :=
  snd ((_ <- print "🔐 LUKS Token Self-Destruct System";;
        print (repeat_str "=" 40)) w).

(** The world after the two lines [run] prints before the menu. *)
Definition ready (timer_seconds : Z) (w : world) : world :=
  snd ((_ <- print (nl +++ "🎯 LUKS token system ready! Timer: "
                    +++ str_of_Z (timer_seconds / 60) +++ " minute(s)");;
        print "⚠️  RAM disk will self-destruct automatically!") w).

(** [run] gets as far as [mount_luks_volume], in the world [w4]. *)
Definition reaches_unlock (self : LUKSTokenSystem) (w : world)
  (timer_seconds : Z) (script_path : string) (w4 : world) : Prop :=
  exists w0 w1 w2 w3,
    check_root self (greeted w) = (Return tt, w0) /\
    create_ramdisk self w0 = (Return true, w1) /\
    download_luks_volume self w1 = (Return true, w2) /\
    get_timer_selection self w2 = (Return timer_seconds, w3) /\
    create_destruct_script self timer_seconds w3
    = (Return (Some script_path), w4).

(** [run] gets as far as the file menu: the volume is mounted and the
    destruct unit activated, in the world [w6]. *)
Definition reaches_menu (self : LUKSTokenSystem) (w : world)
  (timer_seconds : Z) (w6 : world) : Prop :=
  exists script_path w4 w5,
    reaches_unlock self w timer_seconds script_path w4 /\
    mount_luks_volume self w4 = (Return (Some true), w5) /\
    start_destruct_timer self script_path w5 = (Return true, w6).

(** The session completes: every step succeeds and the file menu is left by
    its [break]. *)
Definition completes (self : LUKSTokenSystem) (w : world) : Prop :=
  exists timer_seconds w6 w7,
    reaches_menu self w timer_seconds w6 /\
    display_file_menu self (ready timer_seconds w6) = (Return tt, w7).

(** ** The percentage of the progress line

    [percent = (downloaded / total_size) * 100] is computed in binary
    floating point and printed with [{percent:.1f}].  The three operations
    are parameters: the true division of two integers, the product by 100
    and the rounding to one decimal. *)
Definition percent {F : Type} (truediv : Z -> Z -> F) (times100 fmt1 : F -> F)
  (report : Z * Z) : F :=
  fmt1 (times100 (truediv (fst report) (snd report))).

(** The reports of a fetch of [n] calls of the hook against [size]. *)
Definition reports_of (size : Z) (n : nat) : list (Z * Z) :=
  if (size >? 0)%Z
  then map (fun k => (Z.of_nat k * 8192, size)) (seq 0 n)
  else [].

(** The same three operations on exact rationals. *)
Definition Q_truediv (a b : Z) : Q := (inject_Z a / inject_Z b)%Q.
Definition Q_times100 (x : Q) : Q := (x * inject_Z 100)%Q.
Definition Q_fmt1 (x : Q) : Q :=
  (inject_Z (Qfloor (x * inject_Z 10 + (1 # 2))) / inject_Z 10)%Q.

(** A sample: a fresh machine, a two-file token image, and an operator who
    picks one minute, mistypes the passphrase once, reads both files and
    leaves the menu with Ctrl-C. *)
Definition fresh_machine : machine :=
  {| mounts := []; mapper := []; files := []; dirs := []; covers := [] |}.

Definition token_image : content :=
  Luks 20000 "correct horse"
    [("Notes.txt", "remember the milk"); ("GitHub Token", "ghp_example")].

Definition sample_world : world :=
  {| sys := fresh_machine;
     euid := 0;
     tty := [Line "1"; Line "battery staple"; Line "correct horse";
             Line " 1 "; Line "Y"; Line "3"; Line "2"; CtrlC];
     interactive := true;
     net := Served (Some 20000) token_image;
     faults := [];
     detached := [];
     out := [] |}.

Definition sample_end : Z * world := Eval vm_compute in program sample_world.

Definition sample_unit : destruct_script := script_content init 60.

(** The machine as the sample session leaves it, the unit armed. *)
Definition sample_machine : machine := Eval vm_compute in sys (snd sample_end).

(** The worlds the sample session goes through, stage by stage. *)
Definition sample_w0 : world :=
  Eval vm_compute in snd (check_root init (greeted sample_world)).
Definition sample_w1 : world :=
  Eval vm_compute in snd (create_ramdisk init sample_w0).
Definition sample_w2 : world :=
  Eval vm_compute in snd (download_luks_volume init sample_w1).
Definition sample_w3 : world :=
  Eval vm_compute in snd (get_timer_selection init sample_w2).
Definition sample_w4 : world :=
  Eval vm_compute in snd (create_destruct_script init 60 sample_w3).
Definition sample_w5 : world :=
  Eval vm_compute in snd (mount_luks_volume init sample_w4).
Definition sample_w6 : world :=
  Eval vm_compute in
    snd (start_destruct_timer init "/tmp/luks_ramdisk/dd-destruct.sh"
           sample_w5).
Definition sample_w7 : world :=
  Eval vm_compute in snd (display_file_menu init (ready 60 sample_w6)).

(** The same operator with three wrong passphrases; a fourth line is on the
    terminal and stays there. *)
Definition locked_out_world : world :=
  set_tty [Line "1"; Line "battery"; Line "staple"; Line "horse";
           Line "correct horse"] sample_world.

Definition locked_out_w0 : world :=
  Eval vm_compute in snd (check_root init (greeted locked_out_world)).
Definition locked_out_w1 : world :=
  Eval vm_compute in snd (create_ramdisk init locked_out_w0).
Definition locked_out_w2 : world :=
  Eval vm_compute in snd (download_luks_volume init locked_out_w1).
Definition locked_out_w3 : world :=
  Eval vm_compute in snd (get_timer_selection init locked_out_w2).
Definition locked_out_w4 : world :=
  Eval vm_compute in snd (create_destruct_script init 60 locked_out_w3).

(** ** Idempotence, as the specification states it *)







(* ================================================================== *)
(** * What a step leaves alone *)
(* ================================================================== *)


Definition foreign_mapping (d : string * list (string * string)) : bool :=
  negb (fst d =? "luks_token").


(** [keeps R c]: however the computation [c] ends, the world it leaves is
    related by [R] to the world it started in. *)
Definition keeps {A : Type} (R : world -> world -> Prop) (c : Py A) : Prop :=
  forall w r w', c w = (r, w') -> R w w'.

(** The worlds agree on the observation [f]. *)
Definition same {X : Type} (f : world -> X) (w w' : world) : Prop :=
  f w' = f w.

(** An event that only shows something to the operator. *)
Definition shown (e : event) : Prop :=
  match e with
  | Printed _ | Ask _ => True
  | _ => False
  end.

(** Between the two worlds the process did nothing one can see from
    outside but print and prompt. *)
Definition only_shows (w w' : world) : Prop :=
  exists new, out w' = out w ++ new /\ Forall shown new.

(** The argument vector of the [mount] of [create_ramdisk], and the entry
    of the mount table it makes. *)
Definition tmpfs_argv (self : LUKSTokenSystem) : list string :=
  ["mount"; "-t"; "tmpfs"; "-o"; "size=" +++ ramdisk_size self; "tmpfs";
   ramdisk_path self].

Definition tmpfs_entry (self : LUKSTokenSystem) : mount_entry :=
  {| target := ramdisk_path self; source := "tmpfs";
     options := "size=" +++ ramdisk_size self |}.

(** What [get_timer_selection] shows: the menu, the prompt, and the two
    events of a round that ends with an invalid choice. *)
Definition timer_prompt : string := nl +++ "Enter your choice (1-3): ".

Definition timer_menu : list event :=
  [Printed (nl +++ "⏰ Select TOKEN LIFETIME:");
   Printed "1. 1 Minute";
   Printed "2. 5 Minutes";
   Printed "3. 10 Minutes"].

Definition timer_retry : list event :=
  [Ask timer_prompt; Printed "❌ Invalid choice. Please enter 1, 2, or 3."].

Definition cancelled : event :=
  Printed (nl +++ nl +++ "🛑 Operation cancelled by user").

(** How one round of the loop of [mount_luks_volume] ends, by what the
    operator does at the prompt and by the exit status of the two programs
    it starts: the world it leaves, and [return True], [return False], the
    next round ([Return None]) or an uncaught [EOFError]. *)
Inductive attempt_ends (self : LUKSTokenSystem) (attempt : Z) (w : world)
  : result (option bool) -> world -> Prop :=
| ends_at_eof :
    tty w = [] ->
    attempt_ends self attempt w (Raise (EOFError ""))
      (asked_secret (attempt_prompt attempt) w)
| ends_interrupted (rest : list key) :
    tty w = CtrlC :: rest ->
    attempt_ends self attempt w (Return (Some false))
      (set_out (out w ++ [AskSecret (attempt_prompt attempt); cancelled])
         (set_tty rest w))
| ends_rejected (p : string) (rest : list key) (rc : Z) (err : string)
    (fs : list bool) :
    tty w = Line p :: rest ->
    rc <> 0 ->
    attempt_ends self attempt w
      (if (attempt =? max_attempts - 1)%Z then Return (Some false)
       else Return None)
      (set_out
         (out w ++
          [AskSecret (attempt_prompt attempt);
           Exec (cryptsetup_argv self) (Some p) rc;
           Printed ("❌ Failed to open LUKS device: " +++ err)] ++
          (if (attempt =? max_attempts - 1)%Z
           then [Printed "🚫 Maximum attempts reached. Exiting."]
           else []))
         (set_faults fs (set_tty rest w)))
| ends_mount_failed (p : string) (rest : list key) (err : string)
    (m1 : machine) (rc : Z) (fs : list bool) :
    tty w = Line p :: rest ->
    sys_cryptsetup_open (luks_file self) "luks_token" p (sys w)
    = ((0, err), m1) ->
    rc <> 0 ->
    attempt_ends self attempt w (Return (Some false))
      (set_out
         (out w ++
          [AskSecret (attempt_prompt attempt);
           Exec (cryptsetup_argv self) (Some p) 0;
           Printed "✅ LUKS device opened successfully";
           Exec (mount_argv self) None rc;
           Printed ("❌ Mount failed: "
                    +++ str_exn (CalledProcessError (mount_argv self) rc))])
         (set_sys m1 (set_faults fs (set_tty rest w))))
| ends_mounted (p : string) (rest : list key) (err : string)
    (m1 m2 : machine) (fs : list bool) :
    tty w = Line p :: rest ->
    sys_cryptsetup_open (luks_file self) "luks_token" p (sys w)
    = ((0, err), m1) ->
    sys_mount_dev "/dev/mapper/luks_token" (mount_point self) m1 = (0, m2) ->
    attempt_ends self attempt w (Return (Some true))
      (set_out
         (out w ++
          [AskSecret (attempt_prompt attempt);
           Exec (cryptsetup_argv self) (Some p) 0;
           Printed "✅ LUKS device opened successfully";
           Exec (mount_argv self) None 0;
           Printed ("✅ LUKS volume mounted at " +++ mount_point self)])
         (set_sys m2 (set_faults fs (set_tty rest w)))).

(** The sample session at the unlock, the operator typing the passphrase at
    once and the [mount] failing: the third of the outside calls of
    [mount_luks_volume] ([os.makedirs], [cryptsetup open], [mount]). *)
Definition mount_failed_world : world :=
  set_faults [false; false; true]
    (set_tty [Line "correct horse"; Line "1"] sample_w4).

Definition mount_failed_end : world :=
  Eval vm_compute in snd (mount_luks_volume init mount_failed_world).

(** A session like the sample one whose input ends while the file menu
    waits for a choice. *)
Definition eof_world : world :=
  set_tty [Line "1"; Line "correct horse"; Line "1"; Line "y"] sample_world.

Definition eof_w0 : world :=
  Eval vm_compute in snd (check_root init (greeted eof_world)).
Definition eof_w1 : world :=
  Eval vm_compute in snd (create_ramdisk init eof_w0).
Definition eof_w2 : world :=
  Eval vm_compute in snd (download_luks_volume init eof_w1).
Definition eof_w3 : world :=
  Eval vm_compute in snd (get_timer_selection init eof_w2).
Definition eof_w4 : world :=
  Eval vm_compute in snd (create_destruct_script init 60 eof_w3).
Definition eof_w5 : world :=
  Eval vm_compute in snd (mount_luks_volume init eof_w4).
Definition eof_w6 : world :=
  Eval vm_compute in
    snd (start_destruct_timer init "/tmp/luks_ramdisk/dd-destruct.sh" eof_w5).
Definition eof_w7 : world :=
  Eval vm_compute in snd (display_file_menu init (ready 60 eof_w6)).

(** What [cleanup_on_exit] is about: the image file, what lies below the
    mount point, the mounts on it and the mapping [luks_token].
    [same_but_volume self m m']: the machine [m'] is [m] in everything
    else. *)
Definition off_mount_point (self : LUKSTokenSystem) (e : mount_entry) : bool :=
  negb (target e =? mount_point self).

Definition same_but_volume (self : LUKSTokenSystem) (m m' : machine) : Prop :=
  (forall p, p <> luks_file self -> under (mount_point self) p = false ->
             read_file p m' = read_file p m) /\
  (forall d, under (mount_point self) d = false ->
             is_dir d m' = is_dir d m) /\
  filter (off_mount_point self) (mounts m')
  = filter (off_mount_point self) (mounts m) /\
  filter foreign_mapping (mapper m') = filter foreign_mapping (mapper m).

Definition volume_only (self : LUKSTokenSystem) (w w' : world) : Prop :=
  same_but_volume self (sys w) (sys w').

(** The world the operator who is locked out leaves. *)
Definition locked_out_w5 : world :=
  Eval vm_compute in snd (mount_luks_volume init locked_out_w4).

(** A session like the sample one in which the shell that should run the
    destruct script cannot be started: the ninth call that can fail does. *)
Definition launch_failed_world : world :=
  set_faults (repeat false 8 ++ [true]) sample_world.

Definition launch_failed_w0 : world :=
  Eval vm_compute in snd (check_root init (greeted launch_failed_world)).
Definition launch_failed_w1 : world :=
  Eval vm_compute in snd (create_ramdisk init launch_failed_w0).
Definition launch_failed_w2 : world :=
  Eval vm_compute in snd (download_luks_volume init launch_failed_w1).
Definition launch_failed_w3 : world :=
  Eval vm_compute in snd (get_timer_selection init launch_failed_w2).
Definition launch_failed_w4 : world :=
  Eval vm_compute in snd (create_destruct_script init 60 launch_failed_w3).
Definition launch_failed_w5 : world :=
  Eval vm_compute in snd (mount_luks_volume init launch_failed_w4).
Definition launch_failed_w6 : world :=
  Eval vm_compute in
    snd (start_destruct_timer init "/tmp/luks_ramdisk/dd-destruct.sh"
           launch_failed_w5).

(** A server that announces 100 bytes and sends the whole sample image. *)
Definition cut_short_w1 : world :=
  set_net (Served (Some 100) token_image) sample_w1.

Definition cut_short_w2 : world :=
  Eval vm_compute in snd (download_luks_volume init cut_short_w1).

(** What the newest mount on the RAM disk path hides. *)
Definition ramdisk_cover (self : LUKSTokenSystem) (w : world) : option cover :=
  find (fun c => over c =? ramdisk_path self) (covers (sys w)).

(* ================================================================== *)
(** * Facts about the machine *)
(* ================================================================== *)

Arguments under : simpl never.
Arguments mapper_path : simpl never.

Section Lists.
Context {A B : Type}.

Lemma existsb_false (f : A -> bool) (l : list A) :
  existsb f l = false <-> forall x, In x l -> f x = false.
Proof.
  induction l as [|a l IH]; cbn; [intuition|].
  rewrite orb_false_iff, IH. split.
  - intros [Ha Hl] x [<-|Hx]; auto.
  - intros H. split; auto.
Qed.

Lemma existsb_of_map (f : B -> bool) (g : A -> B) (l : list A) :
  existsb f (map g l) = existsb (fun x => f (g x)) l.
Proof. induction l as [|a l IH]; cbn; [|rewrite IH]; reflexivity. Qed.

Lemma existsb_filter_false (f : A -> bool) (l : list A) :
  existsb f (filter (fun x => negb (f x)) l) = false.
Proof.
  apply existsb_false. intros x Hx. apply filter_In in Hx.
  destruct Hx as [_ Hx]. now apply negb_true_iff in Hx.
Qed.

Lemma existsb_filter_keep (f g : A -> bool) (l : list A) :
  (forall x, f x = true -> g x = true) ->
  existsb f (filter g l) = existsb f l.
Proof.
  intros H. induction l as [|a l IH]; cbn; [reflexivity|].
  destruct (g a) eqn:Ga; cbn.
  - now rewrite IH.
  - destruct (f a) eqn:Fa; [|exact IH].
    apply H in Fa. congruence.
Qed.

Lemma existsb_filter_mono (f g : A -> bool) (l : list A) :
  existsb f l = false -> existsb f (filter g l) = false.
Proof.
  rewrite !existsb_false. intros H x Hx. apply filter_In in Hx.
  now apply H.
Qed.

Lemma filter_all (f : A -> bool) (l : list A) :
  existsb (fun x => negb (f x)) l = false -> filter f l = l.
Proof.
  induction l as [|a l IH]; cbn; [reflexivity|].
  intros H. apply orb_false_iff in H. destruct H as [Ha Hl].
  apply negb_false_iff in Ha. rewrite Ha, IH; auto.
Qed.

Lemma filter_none (f : A -> bool) (l : list A) :
  existsb f l = false -> filter f l = [].
Proof.
  induction l as [|a l IH]; cbn; [reflexivity|].
  intros H. apply orb_false_iff in H. destruct H as [Ha Hl].
  rewrite Ha. auto.
Qed.
End Lists.

Section Paths.

Lemma prefix_comparable (q a b : string) :
  String.prefix a q = true -> String.prefix b q = true ->
  String.prefix a b = true \/ String.prefix b a = true.
Proof.
  revert a b. induction q as [|c q IH]; intros [|x a] [|y b]; cbn; auto;
    try discriminate.
  destruct (ascii_dec x c) as [->|]; [|discriminate].
  destruct (ascii_dec y c) as [->|]; [|discriminate].
  destruct (ascii_dec c c) as [_|N]; [|now elim N].
  apply IH.
Qed.

(** Two directories neither of which is below or equal to the other have
    nothing in common below them. *)
Lemma under_apart (d e q : string) :
  String.prefix (d +++ "/") (e +++ "/") = false ->
  String.prefix (e +++ "/") (d +++ "/") = false ->
  under d q = true -> under e q = false.
Proof.
  unfold under. intros Hde Hed Hd.
  destruct (String.prefix (e +++ "/") q) eqn:He; [|reflexivity].
  destruct (prefix_comparable _ _ _ Hd He); congruence.
Qed.

Lemma prefix_slash (a b : string) :
  String.prefix (a +++ "/") (b +++ "/") = true -> a = b \/ under a b = true.
Proof.
  unfold under. revert b.
  induction a as [|x a IH]; intros [|y b];
    cbn [String.prefix String.append]; auto.
  - destruct (ascii_dec "/" y); [|discriminate]. intros _. right.
    now destruct b.
  - destruct (ascii_dec x "/"); [|discriminate]. now destruct a.
  - destruct (ascii_dec x y) as [->|]; [|discriminate].
    intros H. destruct (IH b H) as [->|U]; auto.
Qed.

(** Two different directories neither of which is below the other have
    nothing in common below them. *)
Lemma under_other (d e q : string) :
  d <> e -> under d e = false -> under e d = false ->
  under d q = true -> under e q = false.
Proof.
  intros N Hde Hed. apply under_apart.
  - destruct (String.prefix (d +++ "/") (e +++ "/")) eqn:P; [|reflexivity].
    destruct (prefix_slash _ _ P); congruence.
  - destruct (String.prefix (e +++ "/") (d +++ "/")) eqn:P; [|reflexivity].
    destruct (prefix_slash _ _ P); congruence.
Qed.

Lemma mapper_path_eqb (a b : string) :
  (mapper_path a =? mapper_path b) = (a =? b).
Proof. reflexivity. Qed.

End Paths.

Section Names.

(** The guards of the script look at names only. *)
Lemma is_file_drop_under (d p : string) (m : machine) :
  under d p = false -> is_file p (drop_under d m) = is_file p m.
Proof.
  intros H. unfold is_file, drop_under. cbn.
  apply existsb_filter_keep. intros f Hf.
  apply String.eqb_eq in Hf. now rewrite Hf, H.
Qed.

Lemma is_dir_drop_under (d p : string) (m : machine) :
  under d p = false -> is_dir p (drop_under d m) = is_dir p m.
Proof.
  intros H. unfold is_dir, drop_under. cbn.
  apply existsb_filter_keep. intros f Hf.
  apply String.eqb_eq in Hf. now rewrite Hf, H.
Qed.

(** What comes back from under a mount on [d] lies below [d]. *)
Lemma uncovered_files_under (d : string) (m : machine)
  (f : string * content) :
  In f (uncovered_files d m) -> under d (fst f) = true.
Proof.
  unfold uncovered_files. destruct (find _ _); [|easy].
  intros H. now apply filter_In in H.
Qed.

Lemma uncovered_dirs_under (d : string) (m : machine) (q : string) :
  In q (uncovered_dirs d m) -> under d q = true.
Proof.
  unfold uncovered_dirs. destruct (find _ _); [|easy].
  intros H. now apply filter_In in H.
Qed.

Lemma is_file_uncover (d p : string) (m : machine) :
  under d p = false -> is_file p (uncover d m) = is_file p m.
Proof.
  intros H. unfold is_file, uncover. cbn. rewrite existsb_app.
  rewrite (proj2 (existsb_false _ (uncovered_files d m)));
    [apply orb_false_r|].
  intros f Hf. apply uncovered_files_under in Hf.
  apply String.eqb_neq. intros E. congruence.
Qed.

Lemma is_dir_uncover (d p : string) (m : machine) :
  under d p = false -> is_dir p (uncover d m) = is_dir p m.
Proof.
  intros H. unfold is_dir, uncover. cbn. rewrite existsb_app.
  rewrite (proj2 (existsb_false _ (uncovered_dirs d m)));
    [apply orb_false_r|].
  intros q Hq. apply uncovered_dirs_under in Hq.
  apply String.eqb_neq. intros E. congruence.
Qed.

Lemma read_file_uncover (d p : string) (m : machine) :
  under d p = false -> read_file p (uncover d m) = read_file p m.
Proof.
  intros H. unfold read_file, uncover. cbn. f_equal.
  induction (files m) as [|f l IH]; cbn.
  - pose proof (uncovered_files_under d m) as U.
    induction (uncovered_files d m) as [|g l IH]; [reflexivity|]. cbn.
    destruct (String.eqb_spec (fst g) p) as [E|E].
    + specialize (U g (or_introl eq_refl)). congruence.
    + apply IH. intros f Hf. apply U. now right.
  - destruct (fst f =? p); [reflexivity|exact IH].
Qed.

Lemma path_exists_umount (d p : string) (m : machine) :
  under d p = false ->
  path_exists p (snd (sys_umount d m)) = path_exists p m.
Proof.
  intros H. unfold sys_umount. destruct (is_mountpoint d m); [|reflexivity].
  cbn [snd]. unfold path_exists.
  rewrite is_file_uncover, is_dir_uncover by exact H.
  rewrite is_file_drop_under, is_dir_drop_under by exact H. reflexivity.
Qed.

Lemma is_file_umount (d p : string) (m : machine) :
  under d p = false -> is_file p (snd (sys_umount d m)) = is_file p m.
Proof.
  intros H. unfold sys_umount. destruct (is_mountpoint d m); [|reflexivity].
  cbn [snd]. rewrite is_file_uncover by exact H.
  now rewrite is_file_drop_under.
Qed.

Lemma files_cryptsetup_close (n : string) (m : machine) :
  files (snd (sys_cryptsetup_close n m)) = files m.
Proof.
  unfold sys_cryptsetup_close.
  destruct (is_mapped n m); [destruct (existsb _ _)|]; reflexivity.
Qed.

Lemma find_files_umount (r d : string) (m : machine) :
  (forall q, under r q = true -> under d q = false) ->
  find_files r (snd (sys_umount d m)) = find_files r m.
Proof.
  intros H. unfold sys_umount. destruct (is_mountpoint d m); [|reflexivity].
  cbn [snd]. unfold find_files, uncover, drop_under. cbn. f_equal.
  rewrite filter_app.
  rewrite (filter_none (fun f => under r (fst f)) (uncovered_files _ _)).
  - rewrite app_nil_r.
    induction (files m) as [|f l IH]; cbn; [reflexivity|].
    destruct (under r (fst f)) eqn:U.
    + rewrite (H _ U). cbn. rewrite U. now rewrite IH.
    + destruct (negb (under d (fst f))); cbn; [rewrite U|]; exact IH.
  - apply existsb_false. intros f Hf. apply uncovered_files_under in Hf.
    destruct (under r (fst f)) eqn:U; [|reflexivity].
    apply H in U. congruence.
Qed.

Lemma find_files_write_file (r p : string) (c : content) (m : machine) :
  under r p = false ->
  find_files r (write_file p c m) = find_files r m.
Proof.
  intros H. unfold write_file, find_files.
  destruct (is_file p m); cbn.
  - induction (files m) as [|f l IH]; cbn; [reflexivity|].
    destruct (fst f =? p) eqn:E; cbn.
    + apply String.eqb_eq in E. rewrite E, H. exact IH.
    + destruct (under r (fst f)); cbn; now rewrite IH.
  - rewrite filter_app, map_app. cbn. rewrite H. cbn.
    now rewrite app_nil_r.
Qed.

Lemma find_files_unlink (r p : string) (m : machine) :
  under r p = false ->
  find_files r (unlink p m) = find_files r m.
Proof.
  intros H. unfold unlink, find_files. cbn. f_equal.
  induction (files m) as [|f l IH]; cbn; [reflexivity|].
  destruct (fst f =? p) eqn:E; cbn.
  - apply String.eqb_eq in E. rewrite E, H. exact IH.
  - destruct (under r (fst f)); cbn; now rewrite IH.
Qed.

Lemma find_files_dd (r p : string) (bs count : Z) (m : machine) :
  under r p = false ->
  find_files r (snd (sys_dd_urandom p bs count m)) = find_files r m.
Proof.
  intros H. unfold sys_dd_urandom.
  destruct (is_file p m); [|destruct (is_dir p m)]; cbn [snd];
    auto using find_files_write_file.
Qed.

Lemma find_files_rm_f (r p : string) (m : machine) :
  under r p = false ->
  find_files r (snd (sys_rm_f p m)) = find_files r m.
Proof.
  intros H. unfold sys_rm_f.
  destruct (is_file p m); [|destruct (is_dir p m)]; cbn [snd];
    auto using find_files_unlink.
Qed.

End Names.

Section Mounts.

Lemma remove_mount_In (p : string) (l : list mount_entry) (e : mount_entry) :
  In e (remove_mount p l) -> In e l.
Proof.
  induction l as [|a l IH]; cbn; [easy|].
  destruct (target a =? p); cbn; intuition.
Qed.

Lemma remove_mount_NoDup (p : string) (l : list mount_entry) :
  NoDup (map target l) -> NoDup (map target (remove_mount p l)).
Proof.
  induction l as [|a l IH]; cbn; [easy|].
  intros H. inversion H as [|x xs Hx Hl]; subst.
  destruct (target a =? p); [exact Hl|].
  cbn. constructor; [|auto].
  intros Hin. apply Hx. apply in_map_iff in Hin.
  destruct Hin as (e & Et & He). apply in_map_iff. exists e.
  split; [exact Et|]. eapply remove_mount_In; eauto.
Qed.

Lemma remove_mount_gone (p : string) (l : list mount_entry) :
  NoDup (map target l) ->
  existsb (fun e => target e =? p) (remove_mount p l) = false.
Proof.
  induction l as [|a l IH]; cbn; [easy|].
  intros H. inversion H as [|x xs Hx Hl]; subst.
  destruct (target a =? p) eqn:E.
  - apply String.eqb_eq in E. apply existsb_false. intros e He.
    apply String.eqb_neq. intros Et. apply Hx. rewrite E, <- Et.
    now apply in_map.
  - cbn. rewrite E. cbn. auto.
Qed.

Lemma remove_mount_other (p q : string) (l : list mount_entry) :
  p <> q ->
  existsb (fun e => target e =? q) (remove_mount p l)
  = existsb (fun e => target e =? q) l.
Proof.
  intros N. induction l as [|a l IH]; cbn; [easy|].
  destruct (target a =? p) eqn:E; cbn.
  - apply String.eqb_eq in E.
    assert ((target a =? q) = false) as ->
      by (apply String.eqb_neq; congruence).
    reflexivity.
  - now rewrite IH.
Qed.

Lemma find_remove_cover (p q : string) (l : list cover) :
  p <> q ->
  find (fun c => over c =? q) (remove_cover p l)
  = find (fun c => over c =? q) l.
Proof.
  intros N. induction l as [|a l IH]; cbn; [easy|].
  destruct (over a =? p) eqn:E; cbn.
  - apply String.eqb_eq in E.
    assert ((over a =? q) = false) as ->
      by (apply String.eqb_neq; congruence).
    reflexivity.
  - now rewrite IH.
Qed.

(** Unmounting one target leaves what the mounts of another hide. *)
Lemma uncovered_umount_other (p q : string) (m : machine) :
  p <> q ->
  uncovered_files q (snd (sys_umount p m)) = uncovered_files q m /\
  uncovered_dirs q (snd (sys_umount p m)) = uncovered_dirs q m.
Proof.
  intros N. unfold sys_umount. destruct (is_mountpoint p m); [|auto].
  cbn [snd]. unfold uncovered_files, uncovered_dirs, uncover. cbn.
  now rewrite find_remove_cover.
Qed.

Lemma remove_mount_mono (p q : string) (l : list mount_entry) :
  existsb (fun e => target e =? q) l = false ->
  existsb (fun e => target e =? q) (remove_mount p l) = false.
Proof.
  rewrite !existsb_false. intros H e He. apply H.
  eapply remove_mount_In; eauto.
Qed.

End Mounts.

Section Emptiness.

Lemma is_empty_dir_drop_same (r : string) (m : machine) :
  is_empty_dir r (drop_under r m) = true.
Proof.
  unfold is_empty_dir, drop_under. cbn.
  rewrite (existsb_filter_false (fun f => under r (fst f))).
  now rewrite (existsb_filter_false (under r)).
Qed.

Lemma is_empty_dir_drop (r d : string) (m : machine) :
  is_empty_dir r m = true -> is_empty_dir r (drop_under d m) = true.
Proof.
  unfold is_empty_dir, drop_under. cbn. intros H.
  apply andb_true_iff in H. destruct H as [Hf Hd].
  apply negb_true_iff in Hf, Hd.
  now rewrite !existsb_filter_mono.
Qed.

Lemma is_empty_dir_uncover (r d : string) (m : machine) :
  (forall q, under d q = true -> under r q = false) ->
  is_empty_dir r (uncover d m) = is_empty_dir r m.
Proof.
  intros H. unfold is_empty_dir, uncover. cbn. rewrite !existsb_app.
  rewrite (proj2 (existsb_false _ (uncovered_files d m))).
  - rewrite (proj2 (existsb_false _ (uncovered_dirs d m)));
      [now rewrite !orb_false_r|].
    intros q Hq. apply H. now apply uncovered_dirs_under in Hq.
  - intros f Hf. apply H. now apply uncovered_files_under in Hf.
Qed.

(** Unmounting a target that hides nothing leaves nothing below it. *)
Lemma is_empty_dir_umount_same (r : string) (m : machine) :
  is_mountpoint r m = true ->
  uncovered_files r m = [] -> uncovered_dirs r m = [] ->
  is_empty_dir r (snd (sys_umount r m)) = true.
Proof.
  intros Hm Hf Hd. unfold sys_umount. rewrite Hm. cbn [snd].
  unfold is_empty_dir, uncover, uncovered_files, uncovered_dirs in *.
  cbn. cbn in Hf, Hd. rewrite Hf, Hd, !app_nil_r.
  rewrite (existsb_filter_false (fun f => under r (fst f))).
  now rewrite (existsb_filter_false (under r)).
Qed.

Lemma files_umount_nothing (r : string) (m : machine) :
  is_mountpoint r m = true -> uncovered_files r m = [] ->
  files (snd (sys_umount r m))
  = filter (fun f => negb (under r (fst f))) (files m).
Proof.
  intros Hm Hf. unfold sys_umount. rewrite Hm. cbn [snd].
  unfold uncover, uncovered_files in *. cbn. cbn in Hf.
  now rewrite Hf, app_nil_r.
Qed.

Lemma is_empty_dir_umount_other (r d : string) (m : machine) :
  d <> r -> under d r = false -> under r d = false ->
  is_empty_dir r m = true ->
  is_empty_dir r (snd (sys_umount d m)) = true.
Proof.
  intros N Hdr Hrd He. unfold sys_umount.
  destruct (is_mountpoint d m); [|exact He]. cbn [snd].
  rewrite is_empty_dir_uncover by (intros q; now apply under_other).
  apply is_empty_dir_drop.
  unfold is_empty_dir in *. exact He.
Qed.

Lemma is_empty_dir_find_files (r : string) (m : machine) :
  is_empty_dir r m = true -> find_files r m = [].
Proof.
  unfold is_empty_dir, find_files. intros H.
  apply andb_true_iff in H. destruct H as [Hf _].
  apply negb_true_iff in Hf. now rewrite filter_none.
Qed.

Lemma is_device_mapper_path (n : string) (m : machine) :
  is_device (mapper_path n) m = is_mapped n m.
Proof. reflexivity. Qed.

Lemma is_file_write_file (p : string) (c : content) (m : machine) :
  is_file p (write_file p c m) = true.
Proof.
  unfold write_file. destruct (is_file p m) eqn:E; unfold is_file in *; cbn.
  - revert E. induction (files m) as [|f l IH]; cbn; [discriminate|].
    destruct (fst f =? p) eqn:F; cbn.
    + now rewrite String.eqb_refl.
    + rewrite F. cbn. auto.
  - rewrite existsb_app. cbn. rewrite String.eqb_refl.
    now rewrite orb_true_r.
Qed.

Lemma write_file_names (p : string) (c : content) (m : machine) :
  is_file p m = true ->
  map fst (files (write_file p c m)) = map fst (files m).
Proof.
  intros H. unfold write_file. rewrite H. cbn. clear H.
  induction (files m) as [|f l IH]; cbn; [reflexivity|].
  rewrite IH. destruct (fst f =? p) eqn:F; [|reflexivity].
  apply String.eqb_eq in F. now rewrite F.
Qed.

Lemma is_file_names (p : string) (m m' : machine) :
  map fst (files m') = map fst (files m) -> is_file p m' = is_file p m.
Proof.
  intros H. unfold is_file.
  rewrite <- (existsb_of_map (fun q => q =? p) fst (files m')).
  rewrite <- (existsb_of_map (fun q => q =? p) fst (files m)).
  now rewrite H.
Qed.

Lemma is_empty_dir_names (r : string) (m m' : machine) :
  map fst (files m') = map fst (files m) -> dirs m' = dirs m ->
  is_empty_dir r m' = is_empty_dir r m.
Proof.
  intros H D. unfold is_empty_dir. rewrite D.
  rewrite <- (existsb_of_map (under r) fst (files m')).
  rewrite <- (existsb_of_map (under r) fst (files m)).
  now rewrite H.
Qed.

Lemma find_files_In (r f : string) (m : machine) :
  In f (find_files r m) -> is_file f m = true.
Proof.
  unfold find_files, is_file. intros H. apply in_map_iff in H.
  destruct H as (x & Ex & Hx). apply filter_In in Hx.
  apply existsb_exists. exists x. split; [tauto|].
  rewrite Ex. apply String.eqb_refl.
Qed.

(** Overwriting files that are there changes no name. *)
Lemma fold_dd_names (bs count : Z) (fs : list string) :
  forall m,
    (forall f, In f fs -> is_file f m = true) ->
    let m' := fold_left (fun m f => snd (sys_dd_urandom f bs count m)) fs m in
    map fst (files m') = map fst (files m) /\
    mounts m' = mounts m /\ mapper m' = mapper m /\ dirs m' = dirs m /\
    covers m' = covers m.
Proof.
  induction fs as [|f fs IH]; intros m H; cbn; [auto 6|].
  assert (Hf : is_file f m = true) by (apply H; now left).
  assert (S1 : snd (sys_dd_urandom f bs count m)
               = write_file f (Random (bs * count)) m).
  { unfold sys_dd_urandom. now rewrite Hf. }
  rewrite S1.
  destruct (IH (write_file f (Random (bs * count)) m))
    as (N & Mo & Ma & Di & Co).
  { intros g Hg. rewrite (is_file_names g m).
    - apply H. now right.
    - now apply write_file_names. }
  cbn zeta in N, Mo, Ma, Di, Co. rewrite N, Mo, Ma, Di, Co.
  split; [now apply write_file_names|].
  unfold write_file. rewrite Hf. auto.
Qed.

End Emptiness.

(* ================================================================== *)
(** * Facts about the destruct unit *)
(* ================================================================== *)

Section ShellLog.

Lemma run_command_spec (c : command) (s : shell) :
  exists st s',
    run_command c s = (st, s') /\ sh_log s' = sh_log s ++ [Ran c st] /\
    (sh_machine s' = sh_machine s \/
     sh_machine s' = snd (semantics c (sh_machine s))).
Proof.
  unfold run_command.
  destruct (if faultable c then _ else _) as [f rest].
  destruct f.
  - eexists _, _; repeat split; auto.
  - destruct (semantics c (sh_machine s)) as [st m'].
    eexists _, _; repeat split; auto.
Qed.

Lemma run_echo (text : string) (s : shell) :
  exists s',
    run_command (echo text) s = (0, s') /\
    sh_log s' = sh_log s ++ [Ran (echo text) 0].
Proof. eexists; split; reflexivity. Qed.

Lemma exec_each_spec (cs : list command) :
  forall s, exists sts s',
    exec_each cs s = (0, s') /\
    List.length sts = List.length cs /\
    sh_log s' = sh_log s ++ ran cs sts.
Proof.
  induction cs as [|c cs IH]; intros s.
  - exists [], s. cbn. rewrite app_nil_r. auto.
  - destruct (run_command_spec c s) as (st & s1 & E1 & L1 & _).
    destruct (IH s1) as (sts & s2 & E2 & Len & L2).
    exists (st :: sts), s2. cbn [exec_each]. unfold sh_bind.
    rewrite E1, E2. repeat split.
    + cbn. now rewrite Len.
    + rewrite L2, L1, <- app_assoc. reflexivity.
Qed.

End ShellLog.

(** The shape of every run of [cleanup_all]: whatever the machine and
    whatever fails, the commands come in the order of the script, the three
    guarded blocks are in or out by their tests only, and the run reaches
    the last [echo].  [m1], [m2], [m3] are the machine as the second, third
    and fourth block find it: each command before them took effect or
    changed nothing. *)
Lemma cleanup_all_shape (u : destruct_script) (s : shell) :
  exists m1 m2 mx m3 st1 st2 st3 st3' sts st4 st5 st5' s',
    cleanup_all u s = (0, s') /\
    (m1 = sh_machine s \/
     m1 = snd (sys_umount (MOUNT_POINT u) (sh_machine s))) /\
    (m2 = m1 \/ m2 = snd (sys_cryptsetup_close "luks_token" m1)) /\
    (mx = m2 \/ mx = snd (sys_dd_urandom (LUKS_FILE u) 1048576 2 m2)) /\
    (m3 = mx \/ m3 = snd (sys_rm_f (LUKS_FILE u) mx)) /\
    List.length sts = List.length (find_files (RAMDISK u) m3) /\
    sh_log s' =
      sh_log s ++
      [Ran (echo "🔥 Initiating self-destruct sequence...") 0] ++
      (if is_mountpoint (MOUNT_POINT u) (sh_machine s)
       then [Ran (umount (MOUNT_POINT u)) st1] else []) ++
      (if path_exists "/dev/mapper/luks_token" m1
       then [Ran (cryptsetup_close "luks_token") st2] else []) ++
      (if is_file (LUKS_FILE u) m2
       then [Ran (dd_urandom (LUKS_FILE u) 1048576 2) st3;
             Ran (rm_f (LUKS_FILE u)) st3']
       else []) ++
      ran (map (fun f => dd_urandom f 1024 1024) (find_files (RAMDISK u) m3))
        sts ++
      [Ran (find_type_f (RAMDISK u)) st4;
       Ran (umount (RAMDISK u)) st5;
       Ran (rmdir (RAMDISK u)) st5';
       Ran (echo "💥 Self-destruct completed") 0].
Proof.
  unfold cleanup_all, sh_bind at 1.
  destruct (run_echo "🔥 Initiating self-destruct sequence..." s)
    as (s0 & E0 & L0).
  rewrite E0.
  assert (M0 : sh_machine s0 = sh_machine s).
  { cbn in E0. now inversion E0. }
  (* unmount *)
  unfold sh_bind at 1. unfold sh_bind at 1. unfold mountpoint_q at 1.
  assert (exists st1 sa,
    (if is_mountpoint (MOUNT_POINT u) (sh_machine s0)
     then run_command (umount (MOUNT_POINT u)) else sh_ret 0) s0 = (st1, sa)
    /\ sh_log sa = sh_log s0 ++
         (if is_mountpoint (MOUNT_POINT u) (sh_machine s)
          then [Ran (umount (MOUNT_POINT u)) st1] else [])
    /\ (sh_machine sa = sh_machine s \/
        sh_machine sa = snd (sys_umount (MOUNT_POINT u) (sh_machine s))))
    as (st1 & sa & Ea & La & Ma).
  { rewrite M0. destruct (is_mountpoint _ _).
    - destruct (run_command_spec (umount (MOUNT_POINT u)) s0)
        as (a & sx & Ex & Lx & Mx).
      rewrite M0 in Mx. now exists a, sx.
    - exists 0, s0. unfold sh_ret. rewrite app_nil_r. auto. }
  rewrite Ea.
  (* close *)
  unfold sh_bind at 1. unfold sh_bind at 1. unfold test_e at 1.
  assert (exists st2 sb,
    (if path_exists "/dev/mapper/luks_token" (sh_machine sa)
     then run_command (cryptsetup_close "luks_token") else sh_ret 0) sa
    = (st2, sb)
    /\ sh_log sb = sh_log sa ++
         (if path_exists "/dev/mapper/luks_token" (sh_machine sa)
          then [Ran (cryptsetup_close "luks_token") st2] else [])
    /\ (sh_machine sb = sh_machine sa \/
        sh_machine sb =
          snd (sys_cryptsetup_close "luks_token" (sh_machine sa))))
    as (st2 & sb & Eb & Lb & Mb).
  { destruct (path_exists _ _).
    - apply run_command_spec.
    - exists 0, sa. unfold sh_ret. rewrite app_nil_r. auto. }
  rewrite Eb.
  (* shred the image *)
  unfold sh_bind at 1. unfold sh_bind at 1. unfold test_f at 1.
  assert (exists st3 st3' r sc mx,
    (if is_file (LUKS_FILE u) (sh_machine sb)
     then sh_bind (run_command (dd_urandom (LUKS_FILE u) 1048576 2))
            (fun _ => run_command (rm_f (LUKS_FILE u)))
     else sh_ret 0) sb = (r, sc)
    /\ sh_log sc = sh_log sb ++
         (if is_file (LUKS_FILE u) (sh_machine sb)
          then [Ran (dd_urandom (LUKS_FILE u) 1048576 2) st3;
                Ran (rm_f (LUKS_FILE u)) st3']
          else [])
    /\ (mx = sh_machine sb \/
        mx = snd (sys_dd_urandom (LUKS_FILE u) 1048576 2 (sh_machine sb)))
    /\ (sh_machine sc = mx \/
        sh_machine sc = snd (sys_rm_f (LUKS_FILE u) mx)))
    as (st3 & st3' & r3 & sc & mx & Ec & Lc & Mx & Mc).
  { destruct (is_file _ _).
    - destruct (run_command_spec (dd_urandom (LUKS_FILE u) 1048576 2) sb)
        as (a & sx & Ex & Lx & Mx).
      destruct (run_command_spec (rm_f (LUKS_FILE u)) sx)
        as (b & sy & Ey & Ly & My).
      exists a, b, b, sy, (sh_machine sx). unfold sh_bind. rewrite Ex, Ey.
      split; [easy|]. split; [|auto].
      rewrite Ly, Lx, <- app_assoc. reflexivity.
    - exists 0, 0, 0, sb, (sh_machine sb). unfold sh_ret.
      rewrite app_nil_r. auto. }
  rewrite Ec.
  (* shred the store *)
  unfold sh_bind at 1. unfold find_exec_dd at 1. unfold sh_bind at 1.
  destruct (exec_each_spec
              (map (fun f => dd_urandom f 1024 1024)
                 (find_files (RAMDISK u) (sh_machine sc))) sc)
    as (sts & sd & Ed & Len & Ld).
  rewrite Ed.
  destruct (run_command_spec (find_type_f (RAMDISK u)) sd)
    as (st4 & se & Ee & Le & _).
  rewrite Ee.
  (* unmount and remove the store *)
  unfold sh_bind at 1.
  destruct (run_command_spec (umount (RAMDISK u)) se)
    as (st5 & sf & Ef & Lf & _).
  rewrite Ef. unfold sh_bind at 1.
  destruct (run_command_spec (rmdir (RAMDISK u)) sf)
    as (st5' & sg & Eg & Lg & _).
  rewrite Eg.
  destruct (run_echo "💥 Self-destruct completed" sg) as (sh & Eh & Lh).
  exists (sh_machine sa), (sh_machine sb), mx, (sh_machine sc),
    st1, st2, st3, st3', sts, st4, st5, st5', sh.
  split; [exact Eh|]. repeat (split; [assumption|]). split.
  { now rewrite Len, length_map. }
  rewrite Lh, Lg, Lf, Le, Ld, Lc, Lb, La, L0.
  repeat rewrite <- app_assoc. reflexivity.
Qed.

Lemma commands_ran (cs : list command) (sts : list Z) :
  List.length sts = List.length cs -> commands (ran cs sts) = cs.
Proof.
  revert sts. induction cs as [|c cs IH]; intros [|st sts] H; cbn in *;
    try discriminate; [reflexivity|].
  f_equal. apply IH. now inversion H.
Qed.

(** The paths of [__init__] are apart from one another. *)
Lemma default_paths (timer_seconds : Z) :
  let u := script_content init timer_seconds in
  under (MOUNT_POINT u) "/dev/mapper/luks_token" = false /\
  under (MOUNT_POINT u) (LUKS_FILE u) = false /\
  under (RAMDISK u) (LUKS_FILE u) = false /\
  (forall q, under (RAMDISK u) q = true -> under (MOUNT_POINT u) q = false).
Proof.
  cbn. repeat split; try reflexivity.
  intros q. now apply under_apart.
Qed.

(** The commands [cleanup_all] runs for the unit the program writes, as a
    function of the machine it starts on. *)
Lemma cleanup_all_plan
  (timer_seconds : Z) (s : shell) :
  let u := script_content init timer_seconds in
  let m := sh_machine s in
  exists new s',
    cleanup_all u s = (0, s') /\
    sh_log s' = sh_log s ++ new /\
    commands new =
      [echo "🔥 Initiating self-destruct sequence..."] ++
      (if is_mountpoint (MOUNT_POINT u) m
       then [umount (MOUNT_POINT u)] else []) ++
      (if path_exists "/dev/mapper/luks_token" m
       then [cryptsetup_close "luks_token"] else []) ++
      (if is_file (LUKS_FILE u) m
       then [dd_urandom (LUKS_FILE u) 1048576 2; rm_f (LUKS_FILE u)]
       else []) ++
      map (fun f => dd_urandom f 1024 1024) (find_files (RAMDISK u) m) ++
      [find_type_f (RAMDISK u); umount (RAMDISK u); rmdir (RAMDISK u);
       echo "💥 Self-destruct completed"].
Proof.
  intros u m.
  destruct (default_paths timer_seconds) as (Pdev & Pimg & Rimg & Apart).
  fold u in Pdev, Pimg, Rimg, Apart.
  destruct (cleanup_all_shape u s)
    as (m1 & m2 & mx & m3 & st1 & st2 & st3 & st3' & sts & st4 & st5 & st5'
        & s' & E & M1 & M2 & Mx & M3 & Len & L).
  fold m in M1, L.
  assert (G2 : path_exists "/dev/mapper/luks_token" m1
               = path_exists "/dev/mapper/luks_token" m).
  { destruct M1 as [->| ->]; [reflexivity|]. now apply path_exists_umount. }
  assert (F1 : is_file (LUKS_FILE u) m1 = is_file (LUKS_FILE u) m).
  { destruct M1 as [->| ->]; [reflexivity|]. now apply is_file_umount. }
  assert (G3 : is_file (LUKS_FILE u) m2 = is_file (LUKS_FILE u) m).
  { rewrite <- F1. destruct M2 as [->| ->]; [reflexivity|].
    unfold is_file. now rewrite files_cryptsetup_close. }
  assert (R1 : find_files (RAMDISK u) m1 = find_files (RAMDISK u) m).
  { destruct M1 as [->| ->]; [reflexivity|]. now apply find_files_umount. }
  assert (R2 : find_files (RAMDISK u) m2 = find_files (RAMDISK u) m).
  { rewrite <- R1. destruct M2 as [->| ->]; [reflexivity|].
    unfold find_files. now rewrite files_cryptsetup_close. }
  assert (Rx : find_files (RAMDISK u) mx = find_files (RAMDISK u) m).
  { rewrite <- R2. destruct Mx as [->| ->]; [reflexivity|].
    now apply find_files_dd. }
  assert (G4 : find_files (RAMDISK u) m3 = find_files (RAMDISK u) m).
  { rewrite <- Rx. destruct M3 as [->| ->]; [reflexivity|].
    now apply find_files_rm_f. }
  rewrite G2, G3, G4 in L. rewrite G4 in Len.
  eexists _, s'. split; [exact E|]. split; [exact L|].
  unfold commands. rewrite !map_app. fold (commands (ran
    (map (fun f => dd_urandom f 1024 1024) (find_files (RAMDISK u) m)) sts)).
  rewrite commands_ran by now rewrite length_map.
  destruct (is_mountpoint _ m), (path_exists _ m), (is_file _ m);
    reflexivity.
Qed.


(** ** The cleanup action run undisturbed, and run again *)

Lemma run_command_quiet (c : command) (m : machine) (l : list sh_event) :
  run_command c {| sh_machine := m; sh_faults := []; sh_log := l |}
  = (fst (semantics c m),
     {| sh_machine := snd (semantics c m); sh_faults := [];
        sh_log := l ++ [Ran c (fst (semantics c m))] |}).
Proof.
  unfold run_command. cbn.
  destruct (faultable c); cbn; destruct (semantics c m); reflexivity.
Qed.

Lemma exec_each_quiet (bs count : Z) (fs : list string) :
  forall m l, exists l',
    exec_each (map (fun f => dd_urandom f bs count) fs)
      {| sh_machine := m; sh_faults := []; sh_log := l |}
    = (0, {| sh_machine :=
               fold_left (fun m f => snd (sys_dd_urandom f bs count m)) fs m;
             sh_faults := []; sh_log := l' |}).
Proof.
  induction fs as [|f fs IH]; intros m l; cbn.
  - now exists l.
  - unfold sh_bind. rewrite run_command_quiet. cbn [semantics].
    apply IH.
Qed.

Lemma cleanup_all_quiet (u : destruct_script) (m : machine)
  (l : list sh_event) :
  exists l',
    cleanup_all u {| sh_machine := m; sh_faults := []; sh_log := l |}
    = (0, {| sh_machine := wiped u m; sh_faults := []; sh_log := l' |}).
Proof.
  unfold cleanup_all, wiped.
  unfold sh_bind at 1. rewrite run_command_quiet. cbn [semantics fst snd].
  unfold sh_bind at 1. unfold sh_bind at 1. unfold mountpoint_q at 1.
  cbn [sh_machine].
  destruct (is_mountpoint (MOUNT_POINT u) m);
    [rewrite run_command_quiet; cbn [semantics fst snd] | unfold sh_ret at 1];
  (unfold sh_bind at 1; unfold sh_bind at 1; unfold test_e at 1;
   cbn [sh_machine];
   match goal with |- context [path_exists ?d ?x] =>
     destruct (path_exists d x) end;
   [rewrite run_command_quiet; cbn [semantics fst snd] | unfold sh_ret at 1];
   (unfold sh_bind at 1; unfold sh_bind at 1; unfold test_f at 1;
    cbn [sh_machine];
    match goal with |- context [is_file (LUKS_FILE u) ?x] =>
      destruct (is_file (LUKS_FILE u) x) end;
    [unfold sh_bind at 1; rewrite !run_command_quiet;
     cbn [semantics fst snd]
    | unfold sh_ret at 1];
    (unfold sh_bind at 1; unfold find_exec_dd at 1; unfold sh_bind at 1;
     cbn [sh_machine];
     match goal with |- context [exec_each _ {| sh_machine := ?x;
                                                sh_log := ?y |}] =>
       destruct (exec_each_quiet 1024 1024 (find_files (RAMDISK u) x) x y)
         as (l1 & ->) end;
     rewrite run_command_quiet; cbn [semantics fst snd];
     unfold sh_bind at 1; rewrite run_command_quiet;
     cbn [semantics fst snd];
     unfold sh_bind at 1; rewrite run_command_quiet;
     cbn [semantics fst snd];
     rewrite run_command_quiet; cbn [semantics fst snd];
     eexists; reflexivity))).
Qed.

Lemma run_command_idle (c : command) (s : shell) :
  snd (semantics c (sh_machine s)) = sh_machine s ->
  exists st s', run_command c s = (st, s') /\ sh_machine s' = sh_machine s.
Proof.
  intros H. destruct (run_command_spec c s) as (st & s' & E & _ & [M|M]).
  - now exists st, s'.
  - exists st, s'. split; [exact E|]. now rewrite M.
Qed.


Lemma is_empty_dir_unlink (r p : string) (m : machine) :
  is_empty_dir r m = true -> is_empty_dir r (unlink p m) = true.
Proof.
  unfold is_empty_dir, unlink. cbn. intros H.
  apply andb_true_iff in H. destruct H as [Hf Hd].
  apply negb_true_iff in Hf. rewrite Hd.
  now rewrite existsb_filter_mono.
Qed.

(** How the store stands: mounted with nothing hidden below the mount, or
    not mounted and empty. *)
Lemma store_umount_mount_point (u : destruct_script) (m : machine) :
  armed u m ->
  let m1 := if is_mountpoint (MOUNT_POINT u) m
            then snd (sys_umount (MOUNT_POINT u) m) else m in
  is_mountpoint (MOUNT_POINT u) m1 = false /\
  NoDup (map target (mounts m1)) /\
  existsb (fun e => source e =? mapper_path "luks_token") (mounts m1)
  = false /\
  ((is_mountpoint (RAMDISK u) m1 = true /\
    uncovered_files (RAMDISK u) m1 = [] /\
    uncovered_dirs (RAMDISK u) m1 = [])
   \/ (is_mountpoint (RAMDISK u) m1 = false /\
       is_empty_dir (RAMDISK u) m1 = true)).
Proof.
  intros (Umr & Urm & ND & Hdev & Hstore). cbv zeta.
  set (MP := MOUNT_POINT u) in *. set (R := RAMDISK u) in *.
  destruct (is_mountpoint MP m) eqn:E.
  - assert (G : existsb (fun e => target e =? MP)
                  (remove_mount MP (mounts m)) = false)
      by now apply remove_mount_gone.
    assert (Mo : mounts (snd (sys_umount MP m)) = remove_mount MP (mounts m)).
    { unfold sys_umount. now rewrite E. }
    split; [unfold is_mountpoint; now rewrite Mo|].
    split; [rewrite Mo; now apply remove_mount_NoDup|]. split.
    + rewrite Mo. apply existsb_false. intros e He. cbn in He.
      destruct (source e =? mapper_path "luks_token") eqn:S; [|reflexivity].
      apply String.eqb_eq in S.
      assert (T : target e = MP).
      { apply Hdev; [|exact S]. eapply remove_mount_In; eauto. }
      rewrite existsb_false in G. specialize (G e He).
      rewrite T, String.eqb_refl in G. discriminate.
    + destruct (String.eqb_spec MP R) as [EQ|NE].
      * right. rewrite <- EQ in *.
        destruct Hstore as [(_ & Hf & Hd)|(Hm & _)]; [|congruence].
        split; [unfold is_mountpoint; now rewrite Mo|].
        now apply is_empty_dir_umount_same.
      * destruct (uncovered_umount_other MP R m NE) as (Uf & Ud).
        destruct Hstore as [(Hm & Hf & Hd)|(Hm & He)].
        -- left. rewrite Uf, Ud. split; [|auto].
           unfold is_mountpoint. rewrite Mo. now rewrite remove_mount_other.
        -- right. split.
           ++ unfold is_mountpoint. rewrite Mo. now apply remove_mount_mono.
           ++ now apply is_empty_dir_umount_other.
  - split; [exact E|]. split; [exact ND|]. split; [|exact Hstore].
    apply existsb_false. intros e He.
    destruct (source e =? mapper_path "luks_token") eqn:S; [|reflexivity].
    apply String.eqb_eq in S. pose proof (Hdev e He S) as T.
    unfold is_mountpoint in E. rewrite existsb_false in E.
    specialize (E e He). rewrite T, String.eqb_refl in E. discriminate.
Qed.

(** Undisturbed, the cleanup action destroys everything it is for on any
    machine the unit is armed on. *)
Lemma wiped_destroyed (u : destruct_script) (m : machine) :
  armed u m -> destroyed u (wiped u m).
Proof.
  intros Ha. pose proof (store_umount_mount_point u m Ha) as A.
  cbv zeta in A. unfold wiped.
  set (MP := MOUNT_POINT u) in *. set (R := RAMDISK u) in *.
  set (IMG := LUKS_FILE u) in *.
  change "/dev/mapper/luks_token" with (mapper_path "luks_token").
  (* the mount point *)
  set (m1 := if is_mountpoint MP m then snd (sys_umount MP m) else m) in *.
  destruct A as (A1 & A2 & A3 & A4).
  (* the mapping *)
  set (m2 := if path_exists (mapper_path "luks_token") m1
             then snd (sys_cryptsetup_close "luks_token" m1) else m1).
  assert (B : mounts m2 = mounts m1 /\ files m2 = files m1 /\
              dirs m2 = dirs m1 /\ covers m2 = covers m1 /\
              is_mapped "luks_token" m2 = false).
  { subst m2. destruct (path_exists _ m1) eqn:P.
    - unfold sys_cryptsetup_close.
      destruct (is_mapped "luks_token" m1) eqn:Mp; [rewrite A3|]; cbn [snd].
      + repeat split. unfold is_mapped. cbn.
        apply (existsb_filter_false (fun d => fst d =? "luks_token")).
      + auto.
    - repeat split. unfold path_exists in P.
      apply orb_false_iff in P. destruct P as [_ P].
      now rewrite is_device_mapper_path in P. }
  destruct B as (B1 & B2 & B3 & B4 & B5).
  (* the image *)
  set (m3 := if is_file IMG m2
             then snd (sys_rm_f IMG (snd (sys_dd_urandom IMG 1048576 2 m2)))
             else m2).
  assert (C : mounts m3 = mounts m2 /\ mapper m3 = mapper m2 /\
              dirs m3 = dirs m2 /\ covers m3 = covers m2 /\
              is_file IMG m3 = false /\
              (is_empty_dir R m2 = true -> is_empty_dir R m3 = true)).
  { subst m3. destruct (is_file IMG m2) eqn:F; [|auto 6].
    unfold sys_dd_urandom. rewrite F. cbn [snd].
    unfold sys_rm_f. rewrite is_file_write_file. cbn [snd].
    repeat split.
    - unfold unlink, write_file. now rewrite F.
    - unfold unlink, write_file. now rewrite F.
    - unfold unlink, write_file. now rewrite F.
    - unfold unlink, write_file. now rewrite F.
    - unfold is_file, unlink. cbn.
      apply (existsb_filter_false (fun f => fst f =? IMG)).
    - intros He. apply is_empty_dir_unlink.
      rewrite (is_empty_dir_names R m2); [exact He| |].
      + now apply write_file_names.
      + unfold write_file. now rewrite F. }
  destruct C as (C1 & C2 & C3 & C4 & C5 & C6).
  (* the files of the store *)
  set (m4 := fold_left (fun m f => snd (sys_dd_urandom f 1024 1024 m))
               (find_files R m3) m3).
  destruct (fold_dd_names 1024 1024 (find_files R m3) m3
              (fun f => find_files_In R f m3)) as (D1 & D2 & D3 & D4 & D5).
  fold m4 in D1, D2, D3, D4, D5.
  assert (E1 : is_mountpoint MP m4 = false).
  { unfold is_mountpoint. now rewrite D2, C1, B1. }
  assert (E2 : is_mapped "luks_token" m4 = false).
  { unfold is_mapped. rewrite D3, C2. exact B5. }
  assert (E3 : is_file IMG m4 = false).
  { now rewrite (is_file_names IMG m3). }
  assert (E4 : NoDup (map target (mounts m4))).
  { now rewrite D2, C1, B1. }
  assert (E5 : (is_mountpoint R m4 = true /\ uncovered_files R m4 = [] /\
                uncovered_dirs R m4 = [])
               \/ (is_mountpoint R m4 = false /\ is_empty_dir R m4 = true)).
  { unfold is_mountpoint, uncovered_files, uncovered_dirs in *.
    rewrite D2, C1, B1, D5, C4, B4.
    destruct A4 as [Hm|(Hm & He)]; [now left|].
    right. split; [exact Hm|].
    rewrite (is_empty_dir_names R m3) by assumption.
    apply C6. unfold is_empty_dir. rewrite B2, B3. exact He. }
  (* the store *)
  set (m5 := snd (sys_umount R m4)).
  assert (F : is_mountpoint MP m5 = false /\ is_mapped "luks_token" m5 = false
              /\ is_file IMG m5 = false /\ is_mountpoint R m5 = false
              /\ is_empty_dir R m5 = true).
  { destruct E5 as [(Hm & Hf & Hd)|(Hm & He)].
    - pose proof (is_empty_dir_umount_same R m4 Hm Hf Hd) as He.
      pose proof (files_umount_nothing R m4 Hm Hf) as Fi.
      fold m5 in He, Fi.
      assert (Mo : mounts m5 = remove_mount R (mounts m4) /\
                   mapper m5 = mapper m4).
      { subst m5. unfold sys_umount. rewrite Hm. auto. }
      destruct Mo as (Mo & Ma). repeat split.
      + unfold is_mountpoint. rewrite Mo. now apply remove_mount_mono.
      + unfold is_mapped. rewrite Ma. exact E2.
      + unfold is_file. rewrite Fi. now apply existsb_filter_mono.
      + unfold is_mountpoint. rewrite Mo. now apply remove_mount_gone.
      + exact He.
    - subst m5. unfold sys_umount. rewrite Hm. cbn [snd]. auto. }
  destruct F as (F1 & F2 & F3 & F4 & F5).
  unfold sys_rmdir. rewrite F4, F5. cbn [negb andb].
  rewrite !andb_true_r.
  destruct (is_dir R m5) eqn:Dir; cbn [snd]; unfold destroyed; fold MP R IMG.
  - repeat split; try assumption.
    + unfold is_dir. cbn.
      apply (existsb_filter_false (fun d => d =? R)).
    + exact (is_empty_dir_find_files R m5 F5).
  - repeat split; try assumption.
    now apply is_empty_dir_find_files.
Qed.
(** The cleanup action ends with status 0, whatever it finds and whatever
    fails: its last command is an [echo]. *)
Lemma cleanup_all_status (u : destruct_script) (s : shell) :
  fst (cleanup_all u s) = 0.
Proof.
  destruct (cleanup_all_shape u s)
    as (m1 & m2 & mx & m3 & st1 & st2 & st3 & st3' & sts & st4 & st5 & st5'
        & s' & E & _).
  now rewrite E.
Qed.


Lemma sample_machine_armed : armed sample_unit sample_machine.
Proof.
  split; [reflexivity|]. split; [reflexivity|]. split; [|split].
  - cbn. repeat constructor; cbn; intuition discriminate.
  - cbn. intros e [<-|[<-|[]]]; cbn; [reflexivity|discriminate].
  - left. repeat split; reflexivity.
Qed.



(** C3. The script starts both subshells when it starts, one after the
    other and neither inside a test: the primary sleeps [timer_seconds], the
    failsafe [timer_seconds + 180], each then runs [cleanup_all].  If the
    primary is killed at any time before its sleep ends, the failsafe still
    runs the whole of [cleanup_all], at its own deadline; with nothing
    killed both run, the primary first. *)
Theorem failsafe_fires_without_primary
  (self : LUKSTokenSystem) (timer_seconds t0 kill_time : Z) (s : shell) :
  0 <= timer_seconds ->
  kill_time < t0 + timer_seconds ->
  let u := script_content self timer_seconds in
  map (fun p => (pid p, started p, wake p)) (procs (launch u t0))
  = [(1%nat, t0, t0 + timer_seconds);
     (2%nat, t0, t0 + (timer_seconds + 180))] /\
  timeline [(1%nat, kill_time)] (launch u t0) s
  = (let (status, s') := cleanup_all u s in
     ([(t0 + (timer_seconds + 180), 2%nat, status)], s')) /\
  timeline [] (launch u t0) s
  = (let (status1, s1) := cleanup_all u s in
     let (status2, s2) := cleanup_all u s1 in
     ([(t0 + timer_seconds, 1%nat, status1);
       (t0 + (timer_seconds + 180), 2%nat, status2)], s2)).
Proof.
  intros Hpos Hkill u.
  assert (P1 : (0 <=? timer_seconds)%Z = true) by now apply Z.leb_le.
  assert (P2 : (0 <=? timer_seconds + 180)%Z = true)
    by (apply Z.leb_le; lia).
  assert (K1 : (kill_time <? t0 + timer_seconds)%Z = true)
    by now apply Z.ltb_lt.
  assert (W : (t0 + timer_seconds <? t0 + (timer_seconds + 180))%Z = true)
    by (apply Z.ltb_lt; lia).
  split; [reflexivity|]. split.
  - unfold timeline, launch, dd_destruct_sh, background, bash_echo, fires, wake.
    cbn [procs now filter app List.length pid started delay
         script_timer_seconds script_failsafe_timer u script_content
         forallb fst snd Nat.eqb andb negb].
    rewrite P1, P2, K1.
    cbn [andb negb by_wake fold_right insert_by_wake run_timers action
         pid started delay].
    unfold sh_bind, sh_ret, wake. cbn [started delay pid].
    destruct (cleanup_all _ s) as [st s']. reflexivity.
  - unfold timeline, launch, dd_destruct_sh, background, bash_echo, fires, wake.
    cbn [procs now filter app List.length pid started delay
         script_timer_seconds script_failsafe_timer u script_content
         forallb fst snd Nat.eqb andb negb].
    rewrite P1, P2.
    cbn [andb by_wake fold_right insert_by_wake run_timers action
         pid started delay].
    unfold wake. cbn [started delay]. rewrite W.
    cbn [run_timers action]. unfold sh_bind, sh_ret, wake.
    cbn [started delay pid].
    destruct (cleanup_all _ s) as [st1 s1].
    destruct (cleanup_all _ s1) as [st2 s2]. reflexivity.
Qed.

Lemma failsafe_fires_without_primary_witness :
  0 <= 60 /\ 59 < 0 + 60 /\
  timeline [(1%nat, 59)] (launch sample_unit 0) (quiet_shell sample_machine)
  = (let (status, s') := cleanup_all sample_unit (quiet_shell sample_machine) in
     ([(0 + (60 + 180), 2%nat, status)], s')).
Proof.
  split; [lia|]. split; [lia|].
  exact (proj1 (proj2 (failsafe_fires_without_primary init 60 0 59
                         (quiet_shell sample_machine)
                         ltac:(lia) ltac:(lia)))).
Defined.

(** ** Overwrite before delete *)

Lemma rm_after_dd_no_rm (img : string) (cs : list command) :
  (forall c, In c cs -> match c with rm_f _ => False | _ => True end) ->
  forall previous, rm_after_dd img previous cs = true.
Proof.
  induction cs as [|c cs IH]; intros H previous; cbn; [reflexivity|].
  rewrite IH by (intros; apply H; now right).
  specialize (H c (or_introl eq_refl)). destruct c; tauto.
Qed.

(** The script never removes the image without having run [dd] over it just
    before (whether that [dd] succeeded is not looked at). *)
Lemma cleanup_all_rm_after_dd (timer_seconds : Z) (s : shell) :
  let u := script_content init timer_seconds in
  exists new s',
    cleanup_all u s = (0, s') /\
    sh_log s' = sh_log s ++ new /\
    rm_after_dd (LUKS_FILE u) None (commands new) = true.
Proof.
  intros u.
  destruct (cleanup_all_plan timer_seconds s) as (new & s' & E & L & P).
  exists new, s'. split; [exact E|]. split; [exact L|].
  fold u in P. rewrite P.
  assert (T : forall previous,
    rm_after_dd (LUKS_FILE u) previous
      (map (fun f => dd_urandom f 1024 1024)
         (find_files (RAMDISK u) (sh_machine s)) ++
       [find_type_f (RAMDISK u); umount (RAMDISK u); rmdir (RAMDISK u);
        echo "💥 Self-destruct completed"]) = true).
  { apply rm_after_dd_no_rm. intros c Hc. apply in_app_or in Hc.
    destruct Hc as [Hc|Hc].
    - apply in_map_iff in Hc. now destruct Hc as (f & <- & _).
    - cbn in Hc. intuition (subst; exact I). }
  destruct (is_mountpoint _ _), (path_exists _ _), (is_file _ _);
    cbn [app rm_after_dd andb]; rewrite ?String.eqb_refl; cbn [andb];
    rewrite ?T; reflexivity.
Qed.

(** C1. The claim fails on [cleanup_on_exit].  On the machine the sample
    session leaves (image present, volume mounted), [cleanup_on_exit] unmounts,
    closes the mapping and removes the image with [os.remove]: the image is
    gone and nothing was written to it; on the same machine [cleanup_all]
    runs [dd] over the image right before [rm]. *)
Theorem cleanup_on_exit_plain_delete :
  let w := set_out [] (snd sample_end) in
  let after := cleanup_on_exit init w in
  is_file (luks_file init) (sys w) = true /\
  fst after = Return tt /\
  out (snd after)
  = [Exec ["umount"; "/tmp/LUKS-TOKEN-2MB"] None 0;
     Exec ["cryptsetup"; "close"; "luks_token"] None 0;
     Removed "/tmp/LUKS-TOKEN-2MB.img"] /\
  is_file (luks_file init) (sys (snd after)) = false /\
  commands (sh_log (snd (cleanup_all sample_unit (quiet_shell (sys w)))))
  = [echo "🔥 Initiating self-destruct sequence...";
     umount "/tmp/LUKS-TOKEN-2MB";
     cryptsetup_close "luks_token";
     dd_urandom "/tmp/LUKS-TOKEN-2MB.img" 1048576 2;
     rm_f "/tmp/LUKS-TOKEN-2MB.img";
     dd_urandom "/tmp/luks_ramdisk/dd-destruct.sh" 1024 1024;
     find_type_f "/tmp/luks_ramdisk";
     umount "/tmp/luks_ramdisk";
     rmdir "/tmp/luks_ramdisk";
     echo "💥 Self-destruct completed"].
Proof. vm_compute. repeat split. Qed.

(* ================================================================== *)
(** * Facts about the session *)
(* ================================================================== *)

(** ** What a computation can raise *)

Create HintDb py discriminated.

Lemma raises_only_ret {A} (P : exn -> Prop) (a : A) : raises_only P (ret a).
Proof. intros w e w' H. discriminate. Qed.

Lemma raises_only_raise {A} (P : exn -> Prop) (e : exn) :
  P e -> raises_only P (@raise A e).
Proof. intros He w e' w' H. inversion H. now subst. Qed.

Lemma raises_only_bind {A B} (P : exn -> Prop) (c : Py A) (k : A -> Py B) :
  raises_only P c -> (forall a, raises_only P (k a)) ->
  raises_only P (bind c k).
Proof.
  intros Hc Hk w e w' H. unfold bind in H.
  destruct (c w) as [[a|e1] w1] eqn:E.
  - eapply Hk; eauto.
  - inversion H; subst. eapply Hc; eauto.
Qed.

Lemma raises_only_try {A} (P : exn -> Prop) (c : Py A)
  (h : exn -> option (Py A)) :
  raises_only P c -> (forall e k, h e = Some k -> raises_only P k) ->
  raises_only P (try_except c h).
Proof.
  intros Hc Hh w e w' H. unfold try_except in H.
  destruct (c w) as [[a|e1] w1] eqn:E; [discriminate|].
  destruct (h e1) as [k|] eqn:K.
  - eapply Hh; eauto.
  - inversion H; subst. eapply Hc; eauto.
Qed.

Lemma while_true_raises {A} (P : exn -> Prop) (body : Py (option A)) :
  raises_only P body ->
  forall fuel w e w', while_true fuel body w = Some (Raise e, w') -> P e.
Proof.
  intros Hb. induction fuel as [|fuel IH]; intros w e w' H; cbn in H;
    [discriminate|].
  destruct (body w) as [[[v|]|e1] w1] eqn:E.
  - discriminate.
  - eapply IH; eauto.
  - inversion H; subst. eapply Hb; eauto.
Qed.

Lemma raises_only_loop {A} (P : exn -> Prop) (body : Py (option A)) :
  raises_only P body -> (forall msg, P (EOFError msg)) ->
  raises_only P (loop body).
Proof.
  intros Hb Heof w e w' H. unfold loop in H.
  destruct (while_true _ body w) as [[r w1]|] eqn:E.
  - inversion H; subst. eapply while_true_raises; eauto.
  - inversion H; subst. apply Heof.
Qed.

Lemma raises_only_for_return {X A} (P : exn -> Prop) (xs : list X)
  (body : X -> Py (option A)) :
  (forall x, raises_only P (body x)) -> raises_only P (for_return xs body).
Proof.
  intros Hb. induction xs as [|x xs IH]; cbn.
  - apply raises_only_ret.
  - apply raises_only_bind; [apply Hb|].
    intros [v|]; [apply raises_only_ret|exact IH].
Qed.

(** The builtins raise nothing that leaves the process with a status other
    than 1. *)
Ltac split_match H :=
  repeat
    (cbv beta iota zeta in H;
     match type of H with
     | context [match ?x with _ => _ end] =>
         lazymatch x with
         | context [match _ with _ => _ end] => fail
         | _ => destruct x eqn:?
         end
     end).

Ltac builtin :=
  let w := fresh "w" in let e := fresh "e" in
  let w' := fresh "w'" in let H := fresh "H" in
  intros w e w' H;
  cbv beta iota zeta delta [emit print read_key input getpass geteuid fault
                  os_makedirs spawn subprocess_run Popen_communicate
                  nohup_bash Popen_shell open_write open_read os_chmod
                  os_path_exists os_path_ismount os_remove
                  bind ret raise sys_exit] in H;
  split_match H; inversion H; subst; try discriminate; exact I.

Lemma benign_print text : raises_only benign (print text).
Proof. builtin. Qed.
Lemma benign_emit ev : raises_only benign (emit ev).
Proof. builtin. Qed.
Lemma benign_input prompt : raises_only benign (input prompt).
Proof. builtin. Qed.
Lemma benign_getpass prompt : raises_only benign (getpass prompt).
Proof. builtin. Qed.
Lemma benign_geteuid : raises_only benign geteuid.
Proof. builtin. Qed.
Lemma benign_os_makedirs path : raises_only benign (os_makedirs path).
Proof. builtin. Qed.
Lemma benign_subprocess_run argv check :
  raises_only benign (subprocess_run argv check).
Proof. builtin. Qed.
Lemma benign_Popen_communicate argv data :
  raises_only benign (Popen_communicate argv data).
Proof. builtin. Qed.
Lemma benign_nohup_bash path : raises_only benign (nohup_bash path).
Proof. builtin. Qed.
Lemma benign_open_write path c : raises_only benign (open_write path c).
Proof. builtin. Qed.
Lemma benign_open_read path : raises_only benign (open_read path).
Proof. builtin. Qed.
Lemma benign_os_chmod path mode : raises_only benign (os_chmod path mode).
Proof. builtin. Qed.
Lemma benign_os_path_exists path : raises_only benign (os_path_exists path).
Proof. builtin. Qed.
Lemma benign_os_path_ismount path : raises_only benign (os_path_ismount path).
Proof. builtin. Qed.
Lemma benign_os_remove path : raises_only benign (os_remove path).
Proof. builtin. Qed.

#[local] Hint Resolve benign_print benign_emit benign_input benign_getpass
  benign_geteuid benign_os_makedirs benign_subprocess_run
  benign_Popen_communicate benign_nohup_bash benign_open_write
  benign_open_read benign_os_chmod benign_os_path_exists
  benign_os_path_ismount benign_os_remove : py.

(** One step of the syntax of a computation. *)
Ltac exits_step :=
  match goal with
  | |- raises_only _ (ret _) => apply raises_only_ret
  | |- raises_only _ (raise _) => apply raises_only_raise; cbn; auto
  | |- raises_only _ (sys_exit _) => apply raises_only_raise; reflexivity
  | |- raises_only _ (bind _ _) => apply raises_only_bind; [|intros ?]
  | |- raises_only _ (try_except _ _) =>
      apply raises_only_try;
      [|let e := fresh "e" in let k := fresh "k" in let H := fresh "H" in
        intros e k H; destruct e; cbn in H; inversion H; subst; clear H]
  | |- raises_only _ (if ?b then _ else _) => destruct b
  | |- raises_only _ (match ?x with _ => _ end) => destruct x
  | |- raises_only _ _ => solve [auto with py]
  end.

Ltac exits := repeat exits_step.

Lemma benign_Popen_shell cmd meaning :
  raises_only benign meaning -> raises_only benign (Popen_shell cmd meaning).
Proof. intros H. unfold Popen_shell. exits.
  intros w e w' E. unfold fault in E. destruct (pop_fault _); discriminate.
Qed.

Lemma benign_check_root self : raises_only benign (check_root self).
Proof. unfold check_root. exits. Qed.

Lemma benign_create_ramdisk self : raises_only benign (create_ramdisk self).
Proof. unfold create_ramdisk. exits. Qed.

Lemma benign_progress_hook a b c : raises_only benign (progress_hook a b c).
Proof. unfold progress_hook. exits. Qed.

Lemma benign_report_blocks hook n first bs size :
  (forall a b c, raises_only benign (hook a b c)) ->
  raises_only benign (report_blocks hook n first bs size).
Proof.
  intros H. revert first. induction n as [|n IH]; intros first; cbn.
  - apply raises_only_ret.
  - apply raises_only_bind; [apply H|]. intros _. apply IH.
Qed.

Lemma benign_urlretrieve url filename hook :
  (forall a b c, raises_only benign (hook a b c)) ->
  raises_only benign (urlretrieve url filename hook).
Proof.
  intros H. unfold urlretrieve. apply raises_only_bind; [auto with py|].
  intros _ w e w' E. destruct (net w) as [header body|reason|].
  - revert E. generalize w e w'.
    change (raises_only benign
      (let bs := 1024 * 8 in
       let size := match header with Some n => n | None => -1 end in
       let got := received header body in
       let read := content_length got in
       _ <- open_write filename got;;
       _ <- hook 0 bs size;;
       _ <- report_blocks hook (Z.to_nat ((read + bs - 1) / bs)) 1 bs size;;
       if (0 <=? size)%Z && (read <? size)%Z
       then raise (ContentTooShortError
                     ("retrieval incomplete: got only " +++ str_of_Z read
                      +++ " out of " +++ str_of_Z size +++ " bytes"))
       else ret tt)).
    cbv zeta. exits. apply benign_report_blocks. exact H.
  - inversion E. exact I.
  - inversion E. exact I.
Qed.

Lemma benign_download_luks_volume self :
  raises_only benign (download_luks_volume self).
Proof.
  unfold download_luks_volume. exits.
  apply benign_urlretrieve. apply benign_progress_hook.
Qed.

Lemma benign_get_timer_selection self :
  raises_only benign (get_timer_selection self).
Proof.
  unfold get_timer_selection. exits.
  apply raises_only_loop; [|intros; exact I].
  unfold get_timer_selection_round. exits.
Qed.

Lemma benign_create_destruct_script self timer_seconds :
  raises_only benign (create_destruct_script self timer_seconds).
Proof. unfold create_destruct_script. exits. Qed.

Lemma benign_start_destruct_timer self script_path :
  raises_only benign (start_destruct_timer self script_path).
Proof.
  unfold start_destruct_timer. exits.
  apply benign_Popen_shell. auto with py.
Qed.

Lemma benign_mount_luks_volume self :
  raises_only benign (mount_luks_volume self).
Proof.
  unfold mount_luks_volume. exits.
  apply raises_only_for_return. intros attempt.
  unfold mount_luks_volume_attempt. exits.
Qed.

Lemma benign_display_file_content file_path file_name :
  raises_only benign (display_file_content file_path file_name).
Proof. unfold display_file_content. exits. Qed.

Lemma benign_display_file_menu self :
  raises_only benign (display_file_menu self).
Proof.
  unfold display_file_menu. exits.
  apply raises_only_loop; [|intros; exact I].
  unfold display_file_menu_round. exits.
  apply benign_display_file_content.
Qed.

(** ** How [run] ends *)

Lemma script_path_nonempty (a : string) :
  (a +++ "/dd-destruct.sh" =? "") = false.
Proof. destruct a; reflexivity. Qed.

Lemma create_destruct_script_path self timer_seconds w p w' :
  create_destruct_script self timer_seconds w = (Return (Some p), w') ->
  p = ramdisk_path self +++ "/dd-destruct.sh".
Proof.
  unfold create_destruct_script, try_except. intros H.
  destruct (bind _ _ w) as [[r|e] w1] eqn:E.
  - unfold bind in E.
    destruct (open_write _ _ w) as [[[]|e1] w2]; [|discriminate].
    destruct (os_chmod _ _ w2) as [[[]|e2] w3]; [|discriminate].
    destruct (print _ w3) as [[[]|e3] w4]; [|discriminate].
    unfold ret in E. congruence.
  - destruct (is_Exception e); [|discriminate].
    unfold bind in H. destruct (print _ w1) as [[[]|e3] w4]; discriminate.
Qed.

Ltac not_completed :=
  let C := fresh "C" in
  intros C; unfold completes, reaches_menu, reaches_unlock in C;
  repeat match goal with
    | H : exists _, _ |- _ => destruct H
    | H : _ /\ _ |- _ => destruct H
    end;
  congruence.

(** [run] either goes through every stage and returns [True], or some stage
    fails and it returns [False] or leaves by [sys.exit(1)]. *)
Lemma run_spec (self : LUKSTokenSystem) (w : world) :
  (exists timer_seconds w6 w7,
      reaches_menu self w timer_seconds w6 /\
      display_file_menu self (ready timer_seconds w6) = (Return tt, w7) /\
      run self w = (Return true, snd (print session_ended w7)))
  \/
  (~ completes self w /\
   exists w', run self w = (Return false, w') \/
              run self w = (Raise (SystemExit 1), w')).
Proof.
  remember (run self w) as R eqn:HR. unfold run in HR.
  change ((_ <- print "🔐 LUKS Token Self-Destruct System";;
           _ <- print (repeat_str "=" 40);; ?c) w)
    with (c (greeted w)) in HR.
  match type of HR with context [try_except _ ?h] =>
    set (handler := h) in HR end.
  assert (Hh : forall e w1, benign e ->
     exists w',
       match handler e with Some k => k w1 | None => (Raise e, w1) end
       = (Return false, w')
       \/ match handler e with Some k => k w1 | None => (Raise e, w1) end
          = (@Raise bool (SystemExit 1), w')).
  { intros e w1 He. unfold handler.
    destruct e; cbn in He; subst; eexists;
      try (left; reflexivity); right; reflexivity. }
  unfold try_except in HR.
  (* check_root *)
  unfold bind at 1 in HR.
  destruct (check_root self (greeted w)) as [[[]|e] w0] eqn:E0.
  2:{ destruct (Hh e w0 (benign_check_root _ _ _ _ E0)) as (w' & H).
      right. split; [not_completed|]. exists w'. rewrite HR. exact H. }
  (* create_ramdisk *)
  unfold bind at 1 in HR.
  destruct (create_ramdisk self w0) as [[created|e] w1] eqn:E1.
  2:{ destruct (Hh e w1 (benign_create_ramdisk _ _ _ _ E1)) as (w' & H).
      right. split; [not_completed|]. exists w'. rewrite HR. exact H. }
  destruct created; cbv beta iota delta [negb] in HR.
  2:{ right. split; [not_completed|]. exists w1. left. exact HR. }
  (* download *)
  unfold bind at 1 in HR.
  destruct (download_luks_volume self w1) as [[downloaded|e] w2] eqn:E2.
  2:{ destruct (Hh e w2 (benign_download_luks_volume _ _ _ _ E2))
        as (w' & H).
      right. split; [not_completed|]. exists w'. rewrite HR. exact H. }
  destruct downloaded; cbv beta iota delta [negb] in HR.
  2:{ right. split; [not_completed|]. exists w2. left. exact HR. }
  (* timer *)
  unfold bind at 1 in HR.
  destruct (get_timer_selection self w2) as [[timer_seconds|e] w3] eqn:E3.
  2:{ destruct (Hh e w3 (benign_get_timer_selection _ _ _ _ E3))
        as (w' & H).
      right. split; [not_completed|]. exists w'. rewrite HR. exact H. }
  (* script *)
  unfold bind at 1 in HR.
  destruct (create_destruct_script self timer_seconds w3)
    as [[[script_path|]|e] w4] eqn:E4.
  3:{ destruct (Hh e w4 (benign_create_destruct_script _ _ _ _ _ E4))
        as (w' & H).
      right. split; [not_completed|]. exists w'. rewrite HR. exact H. }
  2:{ right. split; [not_completed|]. exists w4. left. exact HR. }
  rewrite (create_destruct_script_path _ _ _ _ _ E4), script_path_nonempty
    in HR.
  (* mount *)
  unfold bind at 1 in HR.
  destruct (mount_luks_volume self w4) as [[mounted|e] w5] eqn:E5.
  2:{ destruct (Hh e w5 (benign_mount_luks_volume _ _ _ _ E5)) as (w' & H).
      right. split; [not_completed|]. exists w'. rewrite HR. exact H. }
  destruct mounted as [[|]|]; cbv beta iota delta [negb] in HR.
  2,3:right; (split; [not_completed|]); exists w5; left; exact HR.
  (* start *)
  unfold bind at 1 in HR.
  rewrite <- (create_destruct_script_path _ _ _ _ _ E4) in HR.
  destruct (start_destruct_timer self script_path w5)
    as [[started|e] w6] eqn:E6.
  2:{ destruct (Hh e w6 (benign_start_destruct_timer _ _ _ _ _ E6))
        as (w' & H).
      right. split; [not_completed|]. exists w'. rewrite HR. exact H. }
  destruct started; cbv beta iota delta [negb] in HR.
  2:{ right. split; [not_completed|]. exists w6. left. exact HR. }
  (* menu *)
  change ((_ <- print (nl +++ "🎯 LUKS token system ready! Timer: "
                       +++ str_of_Z (timer_seconds / 60) +++ " minute(s)");;
           _ <- print "⚠️  RAM disk will self-destruct automatically!";; ?c) w6)
    with (c (ready timer_seconds w6)) in HR.
  unfold bind at 1 in HR.
  destruct (display_file_menu self (ready timer_seconds w6))
    as [[[]|e] w7] eqn:E7.
  2:{ destruct (Hh e w7 (benign_display_file_menu _ _ _ _ E7)) as (w' & H).
      right. split; [not_completed|]. exists w'. rewrite HR. exact H. }
  left. exists timer_seconds, w6, w7. split; [|split; [exact E7|]].
  - exists script_path, w4, w5. split; [|auto].
    exists w0, w1, w2, w3. auto.
  - rewrite HR. reflexivity.
Qed.


Lemma program_spec (w : world) :
  (completes init w /\ exists w', program w = (0, w')) \/
  (~ completes init w /\ exists w', program w = (1, w')).
Proof.
  unfold program, main. cbv zeta. unfold bind.
  destruct (run_spec init w)
    as [(t & w6 & w7 & Hm & Hd & Hr)|(N & w' & [Hr|Hr])];
    rewrite Hr.
  - left. split; [now exists t, w6, w7|]. eexists. reflexivity.
  - right. split; [exact N|]. eexists. reflexivity.
  - right. split; [exact N|]. eexists. reflexivity.
Qed.

Lemma check_root_spec (self : LUKSTokenSystem) (w : world) :
  (euid w = 0 -> check_root self w = (Return tt, w)) /\
  (euid w <> 0 -> exists w', check_root self w = (Raise (SystemExit 1), w')).
Proof.
  unfold check_root, bind, geteuid. split; intros H.
  - rewrite H. reflexivity.
  - apply Z.eqb_neq in H. rewrite H. cbn. eexists. reflexivity.
Qed.

(** C8. The program exits with status 0 exactly when the session completes:
    every step succeeds and the file menu is left by its [break]; any other
    run exits with status 1.  In particular it exits with status 1 without
    root privileges, when the RAM disk cannot be created, when the fetch
    fails, and when [mount_luks_volume] does not return [True] (attempts
    used up, or the mount failed). *)
Theorem exit_zero_iff_session_completes (w : world) :
  let code := fst (program w) in
  (code = 0 <-> completes init w) /\
  (code = 0 \/ code = 1) /\
  (euid w <> 0 -> code = 1) /\
  (forall w0 r w1,
      check_root init (greeted w) = (Return tt, w0) ->
      create_ramdisk init w0 = (r, w1) ->
      r <> Return true -> code = 1) /\
  (forall w0 w1 r w2,
      check_root init (greeted w) = (Return tt, w0) ->
      create_ramdisk init w0 = (Return true, w1) ->
      download_luks_volume init w1 = (r, w2) ->
      r <> Return true -> code = 1) /\
  (forall timer_seconds script_path w4 r w5,
      reaches_unlock init w timer_seconds script_path w4 ->
      mount_luks_volume init w4 = (r, w5) ->
      r <> Return (Some true) -> code = 1).
Proof.
  cbv zeta.
  destruct (program_spec w) as [(C & w' & E)|(N & w' & E)]; rewrite E;
    cbn [fst].
  - split; [tauto|]. split; [auto|].
    unfold completes, reaches_menu, reaches_unlock in C.
    destruct C as (t & w6 & w7 & (p & w4 & w5 & (w0 & w1 & w2 & w3
                   & E0 & E1 & E2 & E3 & E4) & E5 & E6) & E7).
    split; [|split; [|split]].
    + intros Hne. exfalso.
      destruct (proj2 (check_root_spec init (greeted w)) Hne) as (x & Hx).
      congruence.
    + intros. congruence.
    + intros. congruence.
    + intros t' p' w4' r w5' (w0' & w1' & w2' & w3' & F0 & F1 & F2 & F3 & F4).
      intros. congruence.
  - split; [split; [discriminate|tauto]|]. auto 10.
Qed.

(** ** Reading the terminal, and the two loops *)

Lemma input_spec (prompt : string) (w : world) :
  input prompt w =
  match tty w with
  | [] => (Raise (EOFError (input_eof w)), asked prompt w)
  | Line s :: rest => (Return s, set_tty rest (asked prompt w))
  | CtrlC :: rest => (Raise KeyboardInterrupt, set_tty rest (asked prompt w))
  end.
Proof. reflexivity. Qed.

Lemma while_true_enough {A} (body : Py (option A)) :
  (forall w w', body w = (Return None, w') ->
                (List.length (tty w') < List.length (tty w))%nat) ->
  forall fuel w, (List.length (tty w) < fuel)%nat ->
                 exists r, while_true fuel body w = Some r.
Proof.
  intros Hb. induction fuel as [|fuel IH]; intros w Hw; [lia|]. cbn.
  destruct (body w) as [[[v|]|e] w'] eqn:E; eauto.
  apply IH. apply Hb in E. lia.
Qed.

(** A property of the outcome of a loop, from its rounds. *)
Lemma loop_inv {A} (body : Py (option A))
  (Q : world -> result A -> world -> Prop) :
  (forall w v w', body w = (Return (Some v), w') -> Q w (Return v) w') ->
  (forall w e w', body w = (Raise e, w') -> Q w (Raise e) w') ->
  (forall w w1 r w', body w = (Return None, w1) -> Q w1 r w' -> Q w r w') ->
  (forall w msg, Q w (Raise (EOFError msg)) w) ->
  forall w r w', loop body w = (r, w') -> Q w r w'.
Proof.
  intros H1 H2 H3 H4 w r w' H. unfold loop in H.
  destruct (while_true _ body w) as [[r1 w1]|] eqn:E.
  - inversion H; subst. clear H.
    remember (S (List.length (tty w))) as fuel eqn:F. clear F. revert w E.
    induction fuel as [|fuel IH]; intros w0 E; cbn in E; [discriminate|].
    destruct (body w0) as [[[v|]|e] w2] eqn:B.
    + inversion E; subst. now apply H1.
    + eapply H3; eauto.
    + inversion E; subst. now apply H2.
  - inversion H; subst. apply H4.
Qed.

(** ** The timer menu and the script file *)

Lemma timer_map_values (k : string) (seconds : Z) (description : string) :
  dict_get k timer_map = Some (seconds, description) ->
  In seconds [60; 300; 600].
Proof.
  unfold dict_get, timer_map, find, option_map.
  cbv beta iota delta [fst snd].
  destruct ("1" =? k); [intros H; inversion H; cbn; auto|].
  destruct ("2" =? k); [intros H; inversion H; cbn; auto|].
  destruct ("3" =? k); [intros H; inversion H; cbn; auto|].
  discriminate.
Qed.

Lemma get_timer_selection_round_spec (w : world) (r : result (option Z))
  (w' : world) :
  get_timer_selection_round w = (r, w') ->
  match r with
  | Return (Some seconds) =>
      In seconds [60; 300; 600] /\ exists l, tty w = Line l :: tty w'
  | Return None => exists l, tty w = Line l :: tty w'
  | Raise _ => True
  end.
Proof.
  unfold get_timer_selection_round, try_except. unfold bind at 1.
  rewrite input_spec. destruct (tty w) as [|[l|] rest] eqn:T.
  - intros H. inversion H. exact I.
  - destruct (dict_get (strip l) timer_map) as [[seconds description]|] eqn:D;
      intros H; inversion H; subst; cbn.
    + split; [eapply timer_map_values; eauto|]. now exists l.
    + now exists l.
  - intros H. inversion H. exact I.
Qed.

(** The loop of [get_timer_selection] ends within the fuel [loop] gives
    it. *)
Lemma get_timer_selection_terminates (w : world) :
  exists r,
    while_true (S (List.length (tty w))) get_timer_selection_round w = Some r.
Proof.
  apply while_true_enough; [|lia].
  intros w0 w1 H. apply get_timer_selection_round_spec in H.
  destruct H as (l & ->). cbn. lia.
Qed.

Lemma get_timer_selection_values (self : LUKSTokenSystem) (w w' : world)
  (seconds : Z) :
  get_timer_selection self w = (Return seconds, w') ->
  In seconds [60; 300; 600].
Proof.
  unfold get_timer_selection. intros H.
  repeat (unfold bind at 1 in H;
          match type of H with context [print ?t ?x] =>
            change (print t x) with (Return tt, set_out (out x ++ [Printed t]) x)
              in H end;
          cbv beta iota in H).
  revert H.
  match goal with |- loop _ ?x = _ -> _ => generalize x end.
  intros w0 H.
  apply (loop_inv get_timer_selection_round
           (fun _ r _ => match r with
                         | Return seconds => In seconds [60; 300; 600]
                         | Raise _ => True
                         end)) in H; [exact H|..].
  - intros w1 v w2 E. apply get_timer_selection_round_spec in E. tauto.
  - intros. exact I.
  - auto.
  - intros. exact I.
Qed.

Lemma read_file_write_file (p : string) (c : content) (m : machine) :
  read_file p (write_file p c m) = Some c.
Proof.
  unfold write_file, read_file. destruct (is_file p m) eqn:E; cbn.
  - unfold is_file in E. revert E.
    induction (files m) as [|f l IH]; cbn; [discriminate|].
    destruct (fst f =? p) eqn:F; cbn.
    + now rewrite String.eqb_refl.
    + rewrite F. auto.
  - unfold is_file in E. revert E.
    induction (files m) as [|f l IH]; cbn.
    + now rewrite String.eqb_refl.
    + destruct (fst f =? p); cbn; [discriminate|auto].
Qed.

(** When [create_destruct_script] returns a path, the file at that path
    holds the script for that timer. *)
Lemma create_destruct_script_file (self : LUKSTokenSystem)
  (timer_seconds : Z) (w w' : world) (script_path : string) :
  create_destruct_script self timer_seconds w = (Return (Some script_path), w')
  -> read_file script_path (sys w')
     = Some (Script (script_content self timer_seconds)).
Proof.
  intros H. pose proof (create_destruct_script_path _ _ _ _ _ H) as P.
  subst script_path.
  unfold create_destruct_script, try_except in H.
  cbv beta iota zeta delta [bind open_write fault os_chmod print emit ret raise]
    in H.
  split_match H; inversion H; subst; cbn; apply read_file_write_file.
Qed.

(** C2. Whatever the operator types, a timer that [get_timer_selection]
    returns is 60, 300 or 600 seconds, and the script
    [create_destruct_script] writes for it has
    [failsafe_timer = timer_seconds + 180]: that is what the file holds, and
    the two subshells bash starts from it at [t0] wake at [t0 + timer_seconds]
    and [t0 + timer_seconds + 180].  Each of the three values is returned
    for its menu key. *)
Theorem failsafe_is_primary_plus_180
  (self : LUKSTokenSystem) (w w' : world) (timer_seconds : Z) :
  get_timer_selection self w = (Return timer_seconds, w') ->
  In timer_seconds [60; 300; 600] /\
  (let u := script_content self timer_seconds in
   script_timer_seconds u = timer_seconds /\
   script_failsafe_timer u = script_timer_seconds u + 180 /\
   (forall t0, map wake (procs (launch u t0))
               = [t0 + timer_seconds; t0 + (timer_seconds + 180)]) /\
   (forall w2 script_path w3,
       create_destruct_script self timer_seconds w2
       = (Return (Some script_path), w3) ->
       read_file script_path (sys w3) = Some (Script u))) /\
  (forall w0 rest,
      exists w1 w2 w3,
        get_timer_selection self (set_tty (Line "1" :: rest) w0)
        = (Return 60, w1) /\
        get_timer_selection self (set_tty (Line "2" :: rest) w0)
        = (Return 300, w2) /\
        get_timer_selection self (set_tty (Line "3" :: rest) w0)
        = (Return 600, w3)).
Proof.
  intros H. split; [eapply get_timer_selection_values; eauto|]. split.
  - cbv zeta. repeat split.
    intros w2 script_path w3. apply create_destruct_script_file.
  - intros w0 rest. eexists _, _, _. repeat split; reflexivity.
Qed.

Lemma failsafe_is_primary_plus_180_witness :
  exists w',
    get_timer_selection init
      (set_tty [Line " 2 "; Line "anything"] sample_world)
    = (Return 300, w') /\
    script_failsafe_timer (script_content init 300) = 480.
Proof.
  eexists. split; [reflexivity|].
  exact (proj1 (proj2 (proj1 (proj2
           (failsafe_is_primary_plus_180 init
              (set_tty [Line " 2 "; Line "anything"] sample_world) _ 300
              eq_refl))))).
Defined.

(** ** The file menu *)

(** Displaying a file always returns, and reads nothing from the
    terminal. *)
Lemma display_file_content_spec (file_path file_name : string) (w : world) :
  exists w',
    display_file_content file_path file_name w = (Return tt, w') /\
    tty w' = tty w.
Proof.
  unfold display_file_content, try_except.
  cbv beta iota zeta delta [bind os_path_exists print emit open_read fault
                            raise ret].
  destruct (path_exists file_path (sys w)); cbv beta iota;
    [|eexists; split; reflexivity].
  destruct (pop_fault _) as [[|] fs]; cbv beta iota;
    [eexists; split; reflexivity|].
  cbn [sys set_faults set_out].
  destruct (read_file file_path (sys w)) as [[]|];
    cbv beta iota; eexists; split; reflexivity.
Qed.

(** One round of the menu: what it read, and that a round which goes on or
    raises has read no Ctrl-C. *)
Lemma display_file_menu_round_spec (self : LUKSTokenSystem) (w : world)
  (r : result (option unit)) (w' : world) :
  display_file_menu_round self w = (r, w') ->
  exists consumed,
    tty w = consumed ++ tty w' /\
    match r with
    | Return (Some _) => True
    | Return None => consumed <> [] /\ ~ In CtrlC consumed
    | Raise _ => ~ In CtrlC consumed
    end.
Proof.
  unfold display_file_menu_round, try_except. unfold bind at 1.
  rewrite input_spec. destruct (tty w) as [|[l|] rest] eqn:T.
  - intros H. inversion H; subst. exists []. cbn. auto.
  - cbv beta iota.
    destruct (if strip l =? "1" then _ else _) as [[file_path file_name]|].
    + unfold bind at 1.
      destruct (display_file_content_spec file_path file_name
                  (set_tty rest (asked (nl +++ "Enter your choice (1-2): ") w)))
        as (w1 & -> & T1).
      cbn in T1. unfold bind at 1. rewrite input_spec. rewrite T1.
      destruct rest as [|[l2|] rest2].
      * intros H. inversion H; subst. exists [Line l]. cbn. rewrite T1.
        split; [reflexivity|]. intros [?|[]]; discriminate.
      * cbv beta iota. destruct (negb _); intros H; inversion H; subst;
          exists [Line l; Line l2]; cbn; (split; [reflexivity|]); auto.
        split; [discriminate|]. intros [?|[?|[]]]; discriminate.
      * intros H. inversion H; subst. exists [Line l; CtrlC]. cbn. auto.
    + intros H. inversion H; subst. exists [Line l]. cbn.
      split; [reflexivity|]. split; [discriminate|].
      intros [?|[]]; discriminate.
  - intros H. inversion H; subst. exists [CtrlC]. cbn. auto.
Qed.

(** The loop of [display_file_menu] ends within the fuel [loop] gives it. *)
Lemma display_file_menu_terminates (self : LUKSTokenSystem) (w : world) :
  exists r,
    while_true (S (List.length (tty w))) (display_file_menu_round self) w
    = Some r.
Proof.
  apply while_true_enough; [|lia].
  intros w0 w1 H. apply display_file_menu_round_spec in H.
  destruct H as (consumed & T & N & _). rewrite T, length_app.
  destruct consumed; [congruence|cbn; lia].
Qed.

(** The menu as a whole: what it read, and that if it raises it has read no
    Ctrl-C. *)
Lemma display_file_menu_spec (self : LUKSTokenSystem) (w : world)
  (r : result unit) (w' : world) :
  display_file_menu self w = (r, w') ->
  exists consumed,
    tty w = consumed ++ tty w' /\
    forall e, r = Raise e -> ~ In CtrlC consumed.
Proof.
  unfold display_file_menu. intros H.
  repeat (unfold bind at 1 in H;
          match type of H with context [print ?t ?x] =>
            change (print t x) with (Return tt, set_out (out x ++ [Printed t]) x)
              in H end;
          cbv beta iota in H).
  match type of H with loop _ ?x = _ =>
    change (tty w) with (tty x); revert H; generalize x end.
  intros w0 H.
  apply (loop_inv (display_file_menu_round self)
           (fun w r w' =>
              exists consumed,
                tty w = consumed ++ tty w' /\
                forall e, r = Raise e -> ~ In CtrlC consumed)) in H;
    [exact H|..].
  - intros w1 v w2 E. apply display_file_menu_round_spec in E.
    destruct E as (c & T & _). exists c. split; [exact T|]. discriminate.
  - intros w1 e w2 E. apply display_file_menu_round_spec in E.
    destruct E as (c & T & N). exists c. split; [exact T|]. auto.
  - intros w1 w2 r0 w3 E (c2 & T2 & N2).
    apply display_file_menu_round_spec in E. destruct E as (c1 & T1 & _ & N1).
    exists (c1 ++ c2). split; [now rewrite T1, T2, app_assoc|].
    intros e He Hin. apply in_app_or in Hin. destruct Hin; [auto|].
    eapply N2; eauto.
  - intros w1 msg. exists []. split; [reflexivity|]. auto.
Qed.

Lemma sample_reaches_unlock :
  reaches_unlock init sample_world 60 "/tmp/luks_ramdisk/dd-destruct.sh"
    sample_w4.
Proof.
  exists sample_w0, sample_w1, sample_w2, sample_w3.
  repeat split; vm_compute; reflexivity.
Qed.

Lemma sample_reaches_menu : reaches_menu init sample_world 60 sample_w6.
Proof.
  exists "/tmp/luks_ramdisk/dd-destruct.sh", sample_w4, sample_w5.
  split; [exact sample_reaches_unlock|].
  split; vm_compute; reflexivity.
Qed.

(** C10. When the session has reached the file menu (volume mounted,
    destruct unit activated) and the last key the menu reads is a Ctrl-C, at
    either of its two prompts and after any number of rounds, the menu
    returns, [run] prints its last line and returns [True], and the program
    exits with status 0. *)
Theorem interrupt_at_menu_exits_zero
  (w : world) (timer_seconds : Z) (w6 w7 : world) (r : result unit)
  (typed : list key) :
  reaches_menu init w timer_seconds w6 ->
  display_file_menu init (ready timer_seconds w6) = (r, w7) ->
  tty w6 = typed ++ CtrlC :: tty w7 ->
  r = Return tt /\
  run init w = (Return true, snd (print session_ended w7)) /\
  program w = (0, snd (print session_ended w7)).
Proof.
  intros Hm Hd Ht.
  assert (R : r = Return tt).
  { destruct (display_file_menu_spec _ _ _ _ Hd) as (consumed & T & N).
    change (tty (ready timer_seconds w6)) with (tty w6) in T.
    rewrite Ht in T.
    change (typed ++ CtrlC :: tty w7) with (typed ++ [CtrlC] ++ tty w7) in T.
    rewrite app_assoc in T. apply app_inv_tail in T. subst consumed.
    destruct r as [[]|e]; [reflexivity|]. exfalso.
    apply (N e eq_refl). apply in_or_app. right. now left. }
  subst r. split; [reflexivity|].
  assert (Hr : run init w = (Return true, snd (print session_ended w7))).
  { destruct (run_spec init w)
      as [(t & v6 & v7 & Hm' & Hd' & Hr)|(N & _)].
    - rewrite Hr. clear Hr.
      unfold reaches_menu, reaches_unlock in Hm, Hm'.
      destruct Hm as (p & w4 & w5 & (w0 & w1 & w2 & w3 & E0 & E1 & E2 & E3 & E4)
                      & E5 & E6).
      destruct Hm' as (p' & w4' & w5' & (w0' & w1' & w2' & w3' & F0 & F1 & F2
                       & F3 & F4) & F5 & F6).
      assert (t = timer_seconds) by congruence. subst t.
      assert (v6 = w6) by congruence. subst v6.
      congruence.
    - exfalso. apply N. now exists timer_seconds, w6, w7. }
  split; [exact Hr|].
  unfold program, main. cbv zeta. unfold bind. rewrite Hr. reflexivity.
Qed.

Lemma interrupt_at_menu_exits_zero_witness :
  reaches_menu init sample_world 60 sample_w6 /\
  tty sample_w6
  = [Line " 1 "; Line "Y"; Line "3"; Line "2"] ++ CtrlC :: tty sample_w7 /\
  program sample_world = (0, snd (print session_ended sample_w7)).
Proof.
  split; [exact sample_reaches_menu|]. split; [reflexivity|].
  exact (proj2 (proj2 (interrupt_at_menu_exits_zero sample_world 60
                         sample_w6 sample_w7 (Return tt)
                         [Line " 1 "; Line "Y"; Line "3"; Line "2"]
                         sample_reaches_menu eq_refl eq_refl))).
Defined.

(** ** Unlocking *)

Lemma getpass_spec (prompt : string) (w : world) :
  getpass prompt w =
  match tty w with
  | [] => (Raise (EOFError ""), asked_secret prompt w)
  | Line s :: rest => (Return s, set_tty rest (asked_secret prompt w))
  | CtrlC :: rest =>
      (Raise KeyboardInterrupt, set_tty rest (asked_secret prompt w))
  end.
Proof. reflexivity. Qed.

Lemma unlock_trace_refl (self : LUKSTokenSystem) (w : world) :
  unlock_trace self w w [].
Proof.
  exists [], []. cbn. rewrite app_nil_r. repeat split. intros ? ? [].
Qed.

Lemma unlock_trace_trans (self : LUKSTokenSystem) (w w1 w2 : world)
  (ps1 ps2 : list string) :
  unlock_trace self w w1 ps1 -> unlock_trace self w1 w2 ps2 ->
  unlock_trace self w w2 (ps1 ++ ps2).
Proof.
  intros (n1 & c1 & O1 & T1 & P1 & S1 & A1) (n2 & c2 & O2 & T2 & P2 & S2 & A2).
  exists (n1 ++ n2), (c1 ++ c2).
  unfold secret_prompts, stdin_payloads, lines_typed, exec_events in *.
  rewrite !flat_map_app. repeat split.
  - now rewrite O2, O1, app_assoc.
  - now rewrite T1, T2, app_assoc.
  - now rewrite P1, P2.
  - now rewrite S1, S2.
  - intros argv stdin Hin. apply in_app_or in Hin. destruct Hin as [Hin|Hin].
    + destruct (A1 _ _ Hin) as [(Ha & p & Hs & Hp)|H]; [left|now right].
      split; [exact Ha|]. exists p. split; [exact Hs|].
      apply in_or_app. now left.
    + destruct (A2 _ _ Hin) as [(Ha & p & Hs & Hp)|H]; [left|now right].
      split; [exact Ha|]. exists p. split; [exact Hs|].
      apply in_or_app. now right.
Qed.

Lemma bind_print {A} (text : string) (k : unit -> Py A) (w : world) :
  bind (print text) k w = k tt (set_out (out w ++ [Printed text]) w).
Proof. reflexivity. Qed.

Lemma spawn_spec (argv : list string) (stdin : option string) (w : world) :
  exists rc err m' fs,
    spawn argv stdin w
    = (Return (rc, err),
       set_out (out w ++ [Exec argv stdin rc]) (set_sys m' (set_faults fs w)))
    /\ fs = snd (pop_fault (faults w))
    /\ ((rc = 1 /\ m' = sys w) \/
        (rc, err, m') = execute argv stdin (sys w)).
Proof.
  unfold spawn, bind, fault.
  destruct (pop_fault (faults w)) as [[|] fs]; cbv beta iota.
  - exists 1, "", (sys w), fs. cbn. auto.
  - cbn [sys set_faults].
    destruct (execute argv stdin (sys w)) as [[rc err] m'].
    exists rc, err, m', fs. cbn. auto.
Qed.

Lemma subprocess_run_check_spec (argv : list string) (w : world) :
  exists rc m' fs,
    subprocess_run argv true w
    = ((if (rc =? 0)%Z then Return rc
        else Raise (CalledProcessError argv rc)),
       set_out (out w ++ [Exec argv None rc]) (set_sys m' (set_faults fs w))).
Proof.
  unfold subprocess_run. unfold bind at 1.
  destruct (spawn_spec argv None w) as (rc & err & m' & fs & -> & _).
  exists rc, m', fs. cbn [fst andb]. destruct (rc =? 0)%Z; reflexivity.
Qed.

Ltac trace_leaf c T :=
  let H := fresh "H" in
  intros H; inversion H; subst; clear H;
  eexists _, c;
  split; [cbn [out set_out set_tty set_sys set_faults asked_secret];
          rewrite <- ?app_assoc; reflexivity|];
  split; [cbn [tty set_out set_tty set_sys set_faults asked_secret app];
          first [exact T | reflexivity]|];
  split; [reflexivity|]; split; [reflexivity|];
  cbn; intros ? ? ?;
  repeat match goal with
    | H : _ \/ _ |- _ => destruct H
    | H : False |- _ => destruct H
    | H : (_, _) = (_, _) |- _ => inversion H; subst; clear H
    end;
  [> (left; split; [reflexivity|]; eexists; split; [reflexivity|];
      now left) || (right; split; reflexivity) ..].

(** One attempt: one prompt, and the trace described by [unlock_trace]. *)
Lemma mount_luks_volume_attempt_trace (self : LUKSTokenSystem) (attempt : Z)
  (w : world) (r : result (option bool)) (w' : world) :
  mount_luks_volume_attempt self attempt w = (r, w') ->
  unlock_trace self w w' [attempt_prompt attempt].
Proof.
  unfold mount_luks_volume_attempt, try_except, unlock_trace.
  unfold bind at 1. fold (attempt_prompt attempt).
  rewrite getpass_spec. destruct (tty w) as [|[p|] rest] eqn:T.
  - cbv beta iota. intros H. inversion H; subst; clear H.
    exists [AskSecret (attempt_prompt attempt)], []. cbn.
    repeat split; auto. intros ? ? [].
  - cbv beta iota. fold (cryptsetup_argv self). fold (mount_argv self).
    unfold bind at 1. unfold Popen_communicate.
    destruct (spawn_spec (cryptsetup_argv self) (Some p)
                (set_tty rest (asked_secret (attempt_prompt attempt) w)))
      as (rc & err & m' & fs & -> & _ & _).
    cbv beta iota.
    destruct (rc =? 0)%Z.
    + rewrite bind_print. unfold bind at 1.
      match goal with |- context [subprocess_run ?a true ?x] =>
        destruct (subprocess_run_check_spec a x) as (rc2 & m2 & fs2 & ->) end.
      destruct (rc2 =? 0)%Z; cbv beta iota.
      * rewrite bind_print. unfold ret. trace_leaf [Line p] T.
      * rewrite bind_print. unfold ret. trace_leaf [Line p] T.
    + rewrite bind_print.
      destruct (attempt =? max_attempts - 1)%Z.
      * rewrite bind_print. unfold ret. trace_leaf [Line p] T.
      * unfold ret. trace_leaf [Line p] T.
  - cbv beta iota. rewrite bind_print. unfold ret. trace_leaf [CtrlC] T.
Qed.

Lemma for_return_trace (self : LUKSTokenSystem) (ks : list Z) :
  forall w r w',
    for_return ks (mount_luks_volume_attempt self) w = (r, w') ->
    exists n, (n <= List.length ks)%nat /\
              unlock_trace self w w' (map attempt_prompt (firstn n ks)).
Proof.
  induction ks as [|k ks IH]; intros w r w' H; cbn in H.
  - inversion H; subst. exists 0%nat. split; [lia|]. apply unlock_trace_refl.
  - unfold bind in H.
    destruct (mount_luks_volume_attempt self k w) as [[[v|]|e] w1] eqn:E.
    + inversion H; subst. exists 1%nat. split; [cbn; lia|].
      eapply mount_luks_volume_attempt_trace; eauto.
    + destruct (IH _ _ _ H) as (n & Hn & Tr). exists (S n).
      split; [cbn; lia|]. cbn [firstn map].
      change (attempt_prompt k :: map attempt_prompt (firstn n ks))
        with ([attempt_prompt k] ++ map attempt_prompt (firstn n ks)).
      eapply unlock_trace_trans; [|exact Tr].
      eapply mount_luks_volume_attempt_trace; eauto.
    + inversion H; subst. exists 1%nat. split; [cbn; lia|].
      eapply mount_luks_volume_attempt_trace; eauto.
Qed.

Lemma os_makedirs_quiet (path : string) (w : world) (r : result unit)
  (w' : world) :
  os_makedirs path w = (r, w') -> out w' = out w /\ tty w' = tty w.
Proof.
  unfold os_makedirs, bind, fault, raise.
  destruct (pop_fault (faults w)) as [[|] fs]; cbv beta iota.
  - intros H. inversion H. auto.
  - cbn [sys set_faults]. destruct (is_file path (sys w));
      [|destruct (is_dir path (sys w))]; intros H; inversion H; auto.
Qed.

Lemma mount_luks_volume_trace (self : LUKSTokenSystem) (w : world)
  (r : result (option bool)) (w' : world) :
  mount_luks_volume self w = (r, w') ->
  exists n, (n <= 3)%nat /\
            unlock_trace self w w'
              (map attempt_prompt (firstn n (range max_attempts))).
Proof.
  unfold mount_luks_volume. rewrite bind_print. unfold bind at 1.
  set (w0 := set_out _ w).
  assert (T0 : unlock_trace self w w0 []).
  { eexists [_], []. cbn. repeat split. intros ? ? []. }
  destruct (os_makedirs (mount_point self) w0) as [[[]|e] w1] eqn:E;
    destruct (os_makedirs_quiet _ _ _ _ E) as (O1 & T1).
  - intros H. destruct (for_return_trace _ _ _ _ _ H) as (n & Hn & Tr).
    exists n. split; [exact Hn|].
    change (map attempt_prompt (firstn n (range max_attempts)))
      with ([] ++ map attempt_prompt (firstn n (range max_attempts))).
    eapply unlock_trace_trans; [|exact Tr].
    destruct T0 as (new & c & O & T & P & S & A).
    exists new, c. rewrite O1, T1. auto.
  - intros H. inversion H; subst. exists 0%nat. split; [lia|].
    destruct T0 as (new & c & O & T & P & S & A).
    exists new, c. rewrite O1, T1. auto.
Qed.

(** C7. Whatever the operator types at the passphrase prompts, the only
    programs [mount_luks_volume] starts are [cryptsetup open] and [mount],
    with the argument vectors [cryptsetup open <luks_file> luks_token] and
    [mount /dev/mapper/luks_token <mount_point>], in which nothing comes
    from the terminal; every line read from the terminal is written to the
    standard input of a process, in the order read, and the processes with
    data on standard input are the [cryptsetup open] ones. *)
Theorem passphrase_only_on_stdin (self : LUKSTokenSystem) (w : world)
  (r : result (option bool)) (w' : world) :
  mount_luks_volume self w = (r, w') ->
  exists new consumed,
    out w' = out w ++ new /\
    tty w = consumed ++ tty w' /\
    stdin_payloads new = lines_typed consumed /\
    forall argv stdin,
      In (argv, stdin) (exec_events new) ->
      (argv = ["cryptsetup"; "open"; luks_file self; "luks_token"] /\
       exists p, stdin = Some p /\ In (Line p) consumed) \/
      (argv = ["mount"; "/dev/mapper/luks_token"; mount_point self] /\
       stdin = None).
Proof.
  intros H. destruct (mount_luks_volume_trace _ _ _ _ H) as (n & _ & Tr).
  destruct Tr as (new & c & O & T & _ & S & A).
  exists new, c. auto.
Qed.

Lemma passphrase_only_on_stdin_witness :
  exists new consumed,
    out sample_w5 = out sample_w4 ++ new /\
    tty sample_w4 = consumed ++ tty sample_w5 /\
    stdin_payloads new = lines_typed consumed /\
    forall argv stdin,
      In (argv, stdin) (exec_events new) ->
      (argv = ["cryptsetup"; "open"; luks_file init; "luks_token"] /\
       exists p, stdin = Some p /\ In (Line p) consumed) \/
      (argv = ["mount"; "/dev/mapper/luks_token"; mount_point init] /\
       stdin = None).
Proof.
  exact (passphrase_only_on_stdin init sample_w4 (Return (Some true))
           sample_w5 eq_refl).
Defined.

(** ** Wrong passphrases *)

Lemma cryptsetup_open_rejected (img name p : string) (m : machine) :
  fst (fst (sys_cryptsetup_open img name p m)) <> 0 ->
  snd (sys_cryptsetup_open img name p m) = m.
Proof.
  unfold sys_cryptsetup_open. destruct (is_mapped name m); [reflexivity|].
  destruct (read_file img m) as [[bytes|u|len k inner|len|len whole]|];
    try reflexivity.
  destruct (p =? k); cbn; [intros H; now elim H|reflexivity].
Qed.

Lemma rejected_ext (self : LUKSTokenSystem) (m m' : machine) (p : string) :
  mapper m' = mapper m -> files m' = files m ->
  rejected self m p -> rejected self m' p.
Proof.
  unfold rejected, sys_cryptsetup_open, is_mapped, read_file.
  intros -> ->. destruct (existsb _ (mapper m)); [auto|].
  destruct (option_map _ _) as [[bytes|u|len k inner|len|len whole]|]; auto.
  destruct (p =? k); auto.
Qed.

(** A rejected passphrase: the attempt prints the failure, leaves the
    machine as it was, and goes on to the next round unless it was the
    last. *)
Lemma mount_luks_volume_attempt_rejected (self : LUKSTokenSystem)
  (attempt : Z) (w : world) (p : string) (rest : list key) :
  tty w = Line p :: rest ->
  rejected self (sys w) p ->
  exists rc err w',
    rc <> 0 /\
    mount_luks_volume_attempt self attempt w
    = ((if (attempt =? max_attempts - 1)%Z then Return (Some false)
        else Return None), w') /\
    tty w' = rest /\ sys w' = sys w /\
    out w' = out w ++
             [AskSecret (attempt_prompt attempt);
              Exec (cryptsetup_argv self) (Some p) rc;
              Printed ("❌ Failed to open LUKS device: " +++ err)] ++
             (if (attempt =? max_attempts - 1)%Z
              then [Printed "🚫 Maximum attempts reached. Exiting."]
              else []).
Proof.
  intros T R.
  unfold mount_luks_volume_attempt, try_except.
  unfold bind at 1. fold (attempt_prompt attempt).
  rewrite getpass_spec, T. cbv beta iota. fold (cryptsetup_argv self).
  unfold bind at 1. unfold Popen_communicate.
  destruct (spawn_spec (cryptsetup_argv self) (Some p)
              (set_tty rest (asked_secret (attempt_prompt attempt) w)))
    as (rc & err & m' & fs & -> & _ & Hrc).
  cbn [sys set_tty asked_secret set_out] in Hrc.
  assert (N : rc <> 0 /\ m' = sys w).
  { destruct Hrc as [[-> ->]|E]; [split; [discriminate|reflexivity]|].
    change (execute (cryptsetup_argv self) (Some p) (sys w))
      with (sys_cryptsetup_open (luks_file self) "luks_token" p (sys w)) in E.
    pose proof (cryptsetup_open_rejected _ _ _ _ R) as U.
    unfold rejected in R. rewrite <- E in R, U. cbn in R, U. auto. }
  destruct N as (N & ->).
  exists rc, err. cbv beta iota.
  assert ((rc =? 0)%Z = false) as -> by now apply Z.eqb_neq.
  rewrite bind_print.
  destruct (attempt =? max_attempts - 1)%Z.
  - rewrite bind_print. unfold ret. eexists. split; [exact N|].
    split; [reflexivity|]. cbn. rewrite <- !app_assoc. auto.
  - unfold ret. eexists. split; [exact N|].
    split; [reflexivity|]. cbn. rewrite <- !app_assoc. auto.
Qed.

Lemma os_makedirs_ok (path : string) (w : world) :
  fst (pop_fault (faults w)) = false ->
  is_file path (sys w) = false ->
  exists w',
    os_makedirs path w = (Return tt, w') /\
    out w' = out w /\ tty w' = tty w /\
    mounts (sys w') = mounts (sys w) /\
    mapper (sys w') = mapper (sys w) /\
    files (sys w') = files (sys w).
Proof.
  intros F P. unfold os_makedirs, bind, fault.
  destruct (pop_fault (faults w)) as [b fs]. cbn in F. subst b.
  cbv beta iota. cbn [sys set_faults]. rewrite P.
  destruct (is_dir path (sys w)); eexists; repeat split.
Qed.

(** Three rejected passphrases in a row. *)
Lemma mount_luks_volume_locked_out (self : LUKSTokenSystem) (w : world)
  (p1 p2 p3 : string) (rest : list key) :
  tty w = Line p1 :: Line p2 :: Line p3 :: rest ->
  fst (pop_fault (faults w)) = false ->
  is_file (mount_point self) (sys w) = false ->
  (forall p, In p [p1; p2; p3] -> rejected self (sys w) p) ->
  exists rc1 rc2 rc3 err1 err2 err3 w',
    rc1 <> 0 /\ rc2 <> 0 /\ rc3 <> 0 /\
    mount_luks_volume self w = (Return (Some false), w') /\
    out w' = out w ++
      [Printed (nl +++ "🔐 Mounting LUKS volume...");
       AskSecret (attempt_prompt 0);
       Exec (cryptsetup_argv self) (Some p1) rc1;
       Printed ("❌ Failed to open LUKS device: " +++ err1);
       AskSecret (attempt_prompt 1);
       Exec (cryptsetup_argv self) (Some p2) rc2;
       Printed ("❌ Failed to open LUKS device: " +++ err2);
       AskSecret (attempt_prompt 2);
       Exec (cryptsetup_argv self) (Some p3) rc3;
       Printed ("❌ Failed to open LUKS device: " +++ err3);
       Printed "🚫 Maximum attempts reached. Exiting."] /\
    tty w' = rest /\
    mounts (sys w') = mounts (sys w) /\
    mapper (sys w') = mapper (sys w).
Proof.
  intros T F P R.
  unfold mount_luks_volume. rewrite bind_print. unfold bind at 1.
  destruct (os_makedirs_ok (mount_point self)
              (set_out (out w ++ [Printed (nl +++ "🔐 Mounting LUKS volume...")])
                 w) F P)
    as (w0 & -> & O0 & T0 & M0 & Ma0 & F0).
  cbn [out set_out tty sys] in O0, T0, M0, Ma0, F0.
  assert (R0 : forall p, In p [p1; p2; p3] -> rejected self (sys w0) p).
  { intros p Hp. apply (rejected_ext self (sys w)); auto. }
  change (range max_attempts) with [0; 1; 2]. cbn [for_return].
  (* first attempt *)
  unfold bind at 1.
  destruct (mount_luks_volume_attempt_rejected self 0 w0 p1
              (Line p2 :: Line p3 :: rest))
    as (rc1 & e1 & w1 & N1 & -> & T1 & S1 & O1);
    [now rewrite T0, T | apply R0; cbn; auto |].
  change (0 =? max_attempts - 1)%Z with false in *. cbv beta iota.
  (* second attempt *)
  unfold bind at 1.
  destruct (mount_luks_volume_attempt_rejected self 1 w1 p2 (Line p3 :: rest))
    as (rc2 & e2 & w2 & N2 & -> & T2 & S2 & O2);
    [exact T1 | rewrite S1; apply R0; cbn; auto |].
  change (1 =? max_attempts - 1)%Z with false in *. cbv beta iota.
  (* third attempt *)
  unfold bind at 1.
  destruct (mount_luks_volume_attempt_rejected self 2 w2 p3 rest)
    as (rc3 & e3 & w3 & N3 & -> & T3 & S3 & O3);
    [exact T2 | rewrite S2, S1; apply R0; cbn; auto |].
  change (2 =? max_attempts - 1)%Z with true in *. cbv beta iota.
  exists rc1, rc2, rc3, e1, e2, e3, w3.
  repeat (split; [assumption|]). split; [reflexivity|].
  split; [|split; [exact T3|]].
  - rewrite O3, O2, O1, O0. cbn. rewrite <- !app_assoc. reflexivity.
  - rewrite S3, S2, S1. auto.
Qed.

(** When [mount_luks_volume] returns [False], [run] returns [False] at once:
    nothing more is printed or started. *)
Lemma run_unlock_failed (self : LUKSTokenSystem) (w : world)
  (timer_seconds : Z) (script_path : string) (w4 w5 : world) :
  reaches_unlock self w timer_seconds script_path w4 ->
  mount_luks_volume self w4 = (Return (Some false), w5) ->
  run self w = (Return false, w5).
Proof.
  intros (w0 & w1 & w2 & w3 & E0 & E1 & E2 & E3 & E4) E5.
  pose proof (create_destruct_script_path _ _ _ _ _ E4) as P.
  unfold run.
  change ((_ <- print "🔐 LUKS Token Self-Destruct System";;
           _ <- print (repeat_str "=" 40);; ?c) w)
    with (c (greeted w)).
  unfold try_except.
  unfold bind at 1. rewrite E0. cbv beta iota.
  unfold bind at 1. rewrite E1. cbv beta iota delta [negb].
  unfold bind at 1. rewrite E2. cbv beta iota delta [negb].
  unfold bind at 1. rewrite E3. cbv beta iota.
  unfold bind at 1. rewrite E4. cbv beta iota.
  rewrite P, script_path_nonempty.
  unfold bind at 1. rewrite E5. reflexivity.
Qed.

Lemma locked_out_reaches_unlock :
  reaches_unlock init locked_out_world 60 "/tmp/luks_ramdisk/dd-destruct.sh"
    locked_out_w4.
Proof.
  exists locked_out_w0, locked_out_w1, locked_out_w2, locked_out_w3.
  repeat split; vm_compute; reflexivity.
Qed.

(** C6. The unlock loop asks for the passphrase at most three times.  When
    the session has reached it and the operator's first three lines are all
    rejected, each of the first two rejections is followed by the next
    prompt, the third by "Maximum attempts reached", a fourth line waiting
    on the terminal is not read, no [mount] is started and the mount table
    and the device mapper are as before; [mount_luks_volume] returns
    [False], [run] returns [False] in that same world, and the program exits
    with status 1. *)
Theorem three_wrong_passphrases_fail_closed
  (w : world) (timer_seconds : Z) (script_path : string) (w4 : world)
  (p1 p2 p3 : string) (rest : list key) :
  reaches_unlock init w timer_seconds script_path w4 ->
  tty w4 = Line p1 :: Line p2 :: Line p3 :: rest ->
  fst (pop_fault (faults w4)) = false ->
  is_file (mount_point init) (sys w4) = false ->
  (forall p, In p [p1; p2; p3] -> rejected init (sys w4) p) ->
  (exists rc1 rc2 rc3 err1 err2 err3 w5,
      rc1 <> 0 /\ rc2 <> 0 /\ rc3 <> 0 /\
      mount_luks_volume init w4 = (Return (Some false), w5) /\
      out w5 = out w4 ++
        [Printed (nl +++ "🔐 Mounting LUKS volume...");
         AskSecret (attempt_prompt 0);
         Exec (cryptsetup_argv init) (Some p1) rc1;
         Printed ("❌ Failed to open LUKS device: " +++ err1);
         AskSecret (attempt_prompt 1);
         Exec (cryptsetup_argv init) (Some p2) rc2;
         Printed ("❌ Failed to open LUKS device: " +++ err2);
         AskSecret (attempt_prompt 2);
         Exec (cryptsetup_argv init) (Some p3) rc3;
         Printed ("❌ Failed to open LUKS device: " +++ err3);
         Printed "🚫 Maximum attempts reached. Exiting."] /\
      tty w5 = rest /\
      mounts (sys w5) = mounts (sys w4) /\
      mapper (sys w5) = mapper (sys w4) /\
      run init w = (Return false, w5) /\
      program w = (1, w5)) /\
  (forall v r v',
      mount_luks_volume init v = (r, v') ->
      exists new n,
        out v' = out v ++ new /\ (n <= 3)%nat /\
        secret_prompts new
        = firstn n [attempt_prompt 0; attempt_prompt 1; attempt_prompt 2]).
Proof.
  intros Hu T F P R. split.
  - destruct (mount_luks_volume_locked_out init w4 p1 p2 p3 rest T F P R)
      as (rc1 & rc2 & rc3 & e1 & e2 & e3 & w5 & N1 & N2 & N3 & E & O & T5
          & M & Ma).
    exists rc1, rc2, rc3, e1, e2, e3, w5.
    pose proof (run_unlock_failed _ _ _ _ _ _ Hu E) as Hr.
    repeat (split; [assumption|]).
    unfold program, main. cbv zeta. unfold bind. rewrite Hr. reflexivity.
  - intros v r v' H.
    destruct (mount_luks_volume_trace _ _ _ _ H) as (n & Hn & Tr).
    destruct Tr as (new & c & O & _ & Pr & _).
    exists new, n. split; [exact O|]. split; [exact Hn|].
    rewrite Pr. change (range max_attempts) with [0; 1; 2].
    now rewrite <- firstn_map.
Qed.

Lemma three_wrong_passphrases_fail_closed_witness :
  reaches_unlock init locked_out_world 60 "/tmp/luks_ramdisk/dd-destruct.sh"
    locked_out_w4 /\
  tty locked_out_w4
  = [Line "battery"; Line "staple"; Line "horse"; Line "correct horse"] /\
  exists w5,
    mount_luks_volume init locked_out_w4 = (Return (Some false), w5) /\
    tty w5 = [Line "correct horse"] /\
    program locked_out_world = (1, w5).
Proof.
  split; [exact locked_out_reaches_unlock|]. split; [reflexivity|].
  assert (R : forall p, In p ["battery"; "staple"; "horse"] ->
                        rejected init (sys locked_out_w4) p).
  { intros p [<-|[<-|[<-|[]]]]; unfold rejected; vm_compute; discriminate. }
  destruct (proj1 (three_wrong_passphrases_fail_closed locked_out_world 60
                     "/tmp/luks_ramdisk/dd-destruct.sh" locked_out_w4
                     "battery" "staple" "horse" [Line "correct horse"]
                     locked_out_reaches_unlock eq_refl eq_refl eq_refl R))
    as (rc1 & rc2 & rc3 & e1 & e2 & e3 & w5 & _ & _ & _ & E & _ & T & _ & _
        & _ & Pg).
  exists w5. auto.
Defined.

(** ** The progress of the fetch *)

Lemma progress_hook_spec (block_num block_size total_size : Z) (w : world) :
  progress_hook block_num block_size total_size w
  = (Return tt,
     if (total_size >? 0)%Z
     then set_out (out w ++ [Progress (block_num * block_size) total_size]) w
     else w).
Proof. unfold progress_hook. destruct (total_size >? 0)%Z; reflexivity. Qed.

Lemma report_blocks_progress (n : nat) :
  forall first bs size w,
  exists w',
    report_blocks progress_hook n first bs size w = (Return tt, w') /\
    out w' = out w ++
             (if (size >? 0)%Z
              then map (fun k => Progress ((first + Z.of_nat k) * bs) size)
                     (seq 0 n)
              else []).
Proof.
  induction n as [|n IH]; intros first bs size w.
  - exists w. cbn [report_blocks seq map]. unfold ret.
    destruct (size >? 0)%Z; now rewrite app_nil_r.
  - cbn [report_blocks]. unfold bind at 1. rewrite progress_hook_spec.
    destruct (size >? 0)%Z eqn:S.
    + destruct (IH (first + 1) bs size
                  (set_out (out w ++ [Progress (first * bs) size]) w))
        as (w' & E & O).
      exists w'. split; [exact E|]. rewrite O, S. cbn [out set_out].
      rewrite <- app_assoc. f_equal. cbn [app seq map].
      f_equal; [f_equal; lia|].
      rewrite <- seq_shift, map_map. apply map_ext. intros k.
      f_equal. lia.
    + destruct (IH (first + 1) bs size w) as (w' & E & O).
      exists w'. split; [exact E|]. now rewrite O, S.
Qed.

Lemma progress_reports_map (f : nat -> Z) (size : Z) (l : list nat) :
  progress_reports (map (fun k => Progress (f k) size) l)
  = map (fun k => (f k, size)) l.
Proof.
  unfold progress_reports.
  induction l as [|k l IH]; cbn [map flat_map app]; [|rewrite IH];
    reflexivity.
Qed.

Lemma progress_reports_app (a b : list event) :
  progress_reports (a ++ b) = progress_reports a ++ progress_reports b.
Proof. apply flat_map_app. Qed.

Lemma open_write_out (path : string) (c : content) (w : world)
  (r : result unit) (w' : world) :
  open_write path c w = (r, w') ->
  out w' = out w \/ out w' = out w ++ [Written path].
Proof.
  unfold open_write, bind, fault, raise.
  destruct (pop_fault (faults w)) as [[|] fs]; cbv beta iota.
  - intros H. inversion H. auto.
  - cbn [sys set_faults]. destruct (is_dir path (sys w));
      intros H; inversion H; auto.
Qed.

Lemma urlretrieve_progress (url filename : string) (w : world)
  (r : result unit) (w' : world) :
  urlretrieve url filename progress_hook w = (r, w') ->
  exists new size n,
    out w' = out w ++ new /\
    progress_reports new = reports_of size n /\
    (forall header body,
        net w = Served header body ->
        size = match header with Some total => total | None => -1 end).
Proof.
  unfold urlretrieve. unfold bind at 1. unfold emit at 1. cbv beta iota.
  cbn [net set_out].
  destruct (net w) as [header body|reason|] eqn:Net.
  - cbv zeta.
    set (size := match header with Some n => n | None => -1 end).
    set (w0 := set_out (out w ++ [Get url]) w).
    unfold bind at 1.
    destruct (open_write filename (received header body) w0)
      as [[[]|e] w1] eqn:E1;
      pose proof (open_write_out _ _ _ _ _ E1) as O1;
      cbn [out set_out w0] in O1.
    + unfold bind at 1. rewrite progress_hook_spec.
      unfold bind at 1.
      match goal with |- context [report_blocks progress_hook ?n 1 ?bs size ?x] =>
        destruct (report_blocks_progress n 1 bs size x) as (w2 & E2 & O2);
        set (blocks := n) in * end.
      rewrite E2.
      intros H.
      assert (Hw : w' = w2).
      { destruct ((0 <=? size)%Z && _); inversion H; reflexivity. }
      subst w'. clear H.
      assert (Hpre : exists pre, out w1 = out w ++ pre /\
                                 progress_reports pre = []).
      { destruct O1 as [-> | ->].
        - now exists [Get url].
        - exists [Get url; Written filename].
          now rewrite <- app_assoc. }
      destruct Hpre as (pre & Opre & Ppre).
      exists (pre ++
              (if (size >? 0)%Z
               then Progress (0 * (1024 * 8)) size ::
                    map (fun k => Progress ((1 + Z.of_nat k) * (1024 * 8)) size)
                      (seq 0 blocks)
               else [])), size, (S blocks).
      split; [|split].
      * rewrite O2. destruct (size >? 0)%Z; cbn [out set_out]; rewrite Opre.
        -- rewrite <- !app_assoc. reflexivity.
        -- now rewrite !app_nil_r.
      * rewrite progress_reports_app, Ppre. cbn [app].
        unfold reports_of. destruct (size >? 0)%Z; [|reflexivity].
        change (Progress (0 * (1024 * 8)) size :: ?l)
          with ([Progress (0 * (1024 * 8)) size] ++ l).
        rewrite progress_reports_app.
        rewrite (progress_reports_map
                   (fun k => (1 + Z.of_nat k) * (1024 * 8))).
        cbn [seq map]. cbn [progress_reports flat_map app].
        f_equal. rewrite <- seq_shift, map_map. apply map_ext. intros k.
        f_equal. lia.
      * intros h b Hn. injection Hn as <- <-. reflexivity.
    + intros H. inversion H; subst. clear H.
      assert (Hpre : exists pre, out w' = out w ++ pre /\
                                 progress_reports pre = []).
      { destruct O1 as [-> | ->].
        - now exists [Get url].
        - exists [Get url; Written filename].
          now rewrite <- app_assoc. }
      destruct Hpre as (pre & Opre & Ppre).
      exists pre, size, 0%nat. split; [exact Opre|]. split.
      * rewrite Ppre. unfold reports_of. now destruct (size >? 0)%Z.
      * intros h b Hn. injection Hn as <- <-. reflexivity.
  - intros H. inversion H; subst. exists [Get url], 0, 0%nat.
    repeat split. discriminate.
  - intros H. inversion H; subst. exists [Get url], 0, 0%nat.
    repeat split. discriminate.
Qed.

Lemma download_luks_volume_progress (self : LUKSTokenSystem) (w : world)
  (r : result bool) (w' : world) :
  download_luks_volume self w = (r, w') ->
  exists new size n,
    out w' = out w ++ new /\
    progress_reports new = reports_of size n /\
    (forall header body,
        net w = Served header body ->
        size = match header with Some total => total | None => -1 end).
Proof.
  unfold download_luks_volume. rewrite bind_print.
  set (w0 := set_out _ w).
  unfold try_except. unfold bind at 1.
  destruct (urlretrieve _ _ _ w0) as [[[]|e] w1] eqn:E;
    destruct (urlretrieve_progress _ _ _ _ _ E) as (new & size & n & O & P & S);
    cbn [out set_out net w0] in O, S.
  - rewrite bind_print. unfold ret. intros H. inversion H; subst. clear H.
    eexists (_ :: new ++ [_]), size, n. split; [|split; [|exact S]].
    + cbn [out set_out]. rewrite O. rewrite <- !app_assoc. reflexivity.
    + change (?e :: new ++ ?t) with ([e] ++ new ++ t).
      rewrite !progress_reports_app, P. cbn [progress_reports flat_map app].
      now rewrite app_nil_r.
  - destruct (is_Exception e).
    + rewrite bind_print. unfold ret. intros H. inversion H; subst. clear H.
      eexists (_ :: new ++ [_]), size, n. split; [|split; [|exact S]].
      * cbn [out set_out]. rewrite O. rewrite <- !app_assoc. reflexivity.
      * change (?e :: new ++ ?t) with ([e] ++ new ++ t).
        rewrite !progress_reports_app, P.
        cbn [progress_reports flat_map app].
        now rewrite app_nil_r.
    + intros H. inversion H; subst. clear H.
      eexists (_ :: new), size, n. split; [|split; [|exact S]].
      * rewrite O. rewrite <- !app_assoc. reflexivity.
      * change (?e :: new) with ([e] ++ new).
        rewrite progress_reports_app, P. reflexivity.
Qed.

Section Percent.

Variable F : Type.
Variable Fle : F -> F -> Prop.
Variable truediv : Z -> Z -> F.
Variables times100 fmt1 : F -> F.

(** Rounding to nearest keeps the order: so do the correctly rounded
    division by a positive integer, the product by 100 and the decimal
    rendering. *)
Hypothesis truediv_mono :
  forall a b t, 0 < t -> a <= b -> Fle (truediv a t) (truediv b t).
Hypothesis times100_mono :
  forall x y, Fle x y -> Fle (times100 x) (times100 y).
Hypothesis fmt1_mono :
  forall x y, Fle x y -> Fle (fmt1 x) (fmt1 y).

Lemma sorted_map_seq (f : nat -> F) :
  (forall i j, (i <= j)%nat -> Fle (f i) (f j)) ->
  forall a n, StronglySorted Fle (map f (seq a n)).
Proof.
  intros Hf a n. revert a. induction n as [|n IH]; intros a; cbn.
  - constructor.
  - constructor; [apply IH|].
    apply Forall_forall. intros x Hx. apply in_map_iff in Hx.
    destruct Hx as (k & <- & Hk). apply in_seq in Hk. apply Hf. lia.
Qed.

(** C9. In every run of [download_luks_volume] the percentages printed, in
    the order printed, never decrease; they all refer to the announced
    size; and nothing is printed when the size is unknown (no
    Content-Length) or not positive. *)
Theorem progress_never_decreases (self : LUKSTokenSystem) (w : world)
  (r : result bool) (w' : world) :
  download_luks_volume self w = (r, w') ->
  exists new,
    out w' = out w ++ new /\
    StronglySorted Fle
      (map (percent truediv times100 fmt1) (progress_reports new)) /\
    (forall total body,
        net w = Served (Some total) body -> 0 < total ->
        Forall (fun report => snd report = total) (progress_reports new)) /\
    (forall body, net w = Served None body -> progress_reports new = []) /\
    (forall total body,
        net w = Served (Some total) body -> total <= 0 ->
        progress_reports new = []).
Proof.
  intros H.
  destruct (download_luks_volume_progress _ _ _ _ H)
    as (new & size & n & O & P & S).
  exists new. split; [exact O|]. rewrite P. unfold reports_of.
  split; [|split; [|split]].
  - destruct (size >? 0)%Z eqn:Pos; [|constructor].
    rewrite map_map. apply sorted_map_seq. intros i j Hij.
    unfold percent. cbn [fst snd].
    apply fmt1_mono, times100_mono, truediv_mono; lia.
  - intros total body Hn _. rewrite (S _ _ Hn).
    destruct (total >? 0)%Z; [|constructor].
    apply Forall_forall. intros x Hx. apply in_map_iff in Hx.
    now destruct Hx as (k & <- & _).
  - intros body Hn. now rewrite (S _ _ Hn).
  - intros total body Hn Hle. rewrite (S _ _ Hn).
    assert ((total >? 0)%Z = false) as -> by lia. reflexivity.
Qed.

End Percent.

Lemma Q_truediv_mono (a b t : Z) :
  0 < t -> a <= b -> (Q_truediv a t <= Q_truediv b t)%Q.
Proof.
  intros Ht Hab. unfold Q_truediv, Qdiv.
  apply Qmult_le_compat_r; [now rewrite <- Zle_Qle|].
  apply Qinv_le_0_compat. change 0%Q with (inject_Z 0).
  rewrite <- Zle_Qle. lia.
Qed.

Lemma Q_times100_mono (x y : Q) :
  (x <= y)%Q -> (Q_times100 x <= Q_times100 y)%Q.
Proof. intros H. unfold Q_times100. now apply Qmult_le_compat_r. Qed.

Lemma Q_fmt1_mono (x y : Q) : (x <= y)%Q -> (Q_fmt1 x <= Q_fmt1 y)%Q.
Proof.
  intros H. unfold Q_fmt1, Qdiv. apply Qmult_le_compat_r; [|easy].
  rewrite <- Zle_Qle. apply Qfloor_resp_le.
  apply Qplus_le_compat; [|apply Qle_refl].
  now apply Qmult_le_compat_r.
Qed.

Lemma progress_never_decreases_witness :
  exists new,
    out sample_w2 = out sample_w1 ++ new /\
    progress_reports new
    = [(0, 20000); (8192, 20000); (16384, 20000); (24576, 20000)] /\
    StronglySorted Qle
      (map (percent Q_truediv Q_times100 Q_fmt1) (progress_reports new)).
Proof.
  destruct (progress_never_decreases Q Qle Q_truediv Q_times100 Q_fmt1
              Q_truediv_mono Q_times100_mono Q_fmt1_mono
              init sample_w1 (Return true) sample_w2 eq_refl)
    as (new & O & Srt & _).
  exists new. split; [exact O|]. split; [|exact Srt].
  assert (E : out sample_w2
              = out sample_w1
                ++ skipn (List.length (out sample_w1)) (out sample_w2))
    by reflexivity.
  rewrite E in O. apply app_inv_head in O. rewrite <- O. reflexivity.
Defined.

(* ================================================================== *)
(** * More on the destruct unit *)
(* ================================================================== *)

(** ** What every run of [cleanup_all] keeps

    A property of the machine that each command of the function keeps, when
    the command takes effect, is kept by the whole function, whatever
    fails: a command that fails changes nothing.  The two [dd] are only
    ever run on files that are there. *)

Ltac take_step H st s' :=
  match type of H with
  | _ (sh_machine (snd ?c)) => destruct c as [st s']; cbn [snd] in H
  end.

Section CleanupInvariant.

Variable u : destruct_script.
Variable Inv : machine -> Prop.

Hypothesis Inv_umount_mount_point :
  forall m, Inv m -> Inv (snd (sys_umount (MOUNT_POINT u) m)).
Hypothesis Inv_close :
  forall m, Inv m -> Inv (snd (sys_cryptsetup_close "luks_token" m)).
Hypothesis Inv_dd_image :
  forall m, Inv m -> is_file (LUKS_FILE u) m = true ->
            Inv (snd (sys_dd_urandom (LUKS_FILE u) 1048576 2 m)).
Hypothesis Inv_rm_image :
  forall m, Inv m -> Inv (snd (sys_rm_f (LUKS_FILE u) m)).
Hypothesis Inv_dd_store :
  forall m f, Inv m -> is_file f m = true -> under (RAMDISK u) f = true ->
              Inv (snd (sys_dd_urandom f 1024 1024 m)).
Hypothesis Inv_umount_store :
  forall m, Inv m -> Inv (snd (sys_umount (RAMDISK u) m)).
Hypothesis Inv_rmdir_store :
  forall m, Inv m -> Inv (snd (sys_rmdir (RAMDISK u) m)).

Lemma run_command_keeps (c : command) (s : shell) :
  Inv (sh_machine s) ->
  Inv (snd (semantics c (sh_machine s))) ->
  Inv (sh_machine (snd (run_command c s))).
Proof.
  intros H1 H2.
  destruct (run_command_spec c s) as (st & s' & E & _ & [M|M]);
    rewrite E; cbn [snd]; now rewrite M.
Qed.

Lemma is_file_dd_existing (f g : string) (bs count : Z) (m : machine) :
  is_file f m = true ->
  is_file g (snd (sys_dd_urandom f bs count m)) = is_file g m.
Proof.
  intros F. unfold sys_dd_urandom. rewrite F. cbn [snd].
  apply is_file_names. now apply write_file_names.
Qed.

Lemma run_command_dd_is_file (f g : string) (bs count : Z) (s : shell) :
  is_file f (sh_machine s) = true ->
  is_file g (sh_machine (snd (run_command (dd_urandom f bs count) s)))
  = is_file g (sh_machine s).
Proof.
  intros F.
  destruct (run_command_spec (dd_urandom f bs count) s)
    as (st & s' & E & _ & [M|M]); rewrite E; cbn [snd]; rewrite M;
    [reflexivity|].
  now apply is_file_dd_existing.
Qed.

Lemma exec_each_dd_keeps (fs : list string) :
  forall s,
    Inv (sh_machine s) ->
    (forall f, In f fs ->
               is_file f (sh_machine s) = true /\ under (RAMDISK u) f = true) ->
    Inv (sh_machine
           (snd (exec_each (map (fun f => dd_urandom f 1024 1024) fs) s))).
Proof.
  induction fs as [|f fs IH]; intros s I F; cbn [map exec_each].
  - exact I.
  - unfold sh_bind.
    destruct (F f (or_introl eq_refl)) as (Ff & Uf).
    pose proof (run_command_keeps (dd_urandom f 1024 1024) s I
                  (Inv_dd_store _ _ I Ff Uf)) as I1.
    pose proof (fun g => run_command_dd_is_file f g 1024 1024 s Ff) as K.
    destruct (run_command (dd_urandom f 1024 1024) s) as [st s1].
    cbn [snd] in I1, K. apply IH; [exact I1|].
    intros g Hg. destruct (F g (or_intror Hg)) as (Fg & Ug).
    split; [|exact Ug]. now rewrite K.
Qed.

Lemma find_files_under (r f : string) (m : machine) :
  In f (find_files r m) -> under r f = true.
Proof.
  unfold find_files. rewrite in_map_iff.
  intros ((p & c) & <- & H). apply filter_In in H. apply H.
Qed.

(** The function from its third block on. *)
Lemma cleanup_all_tail_keeps (sb : shell) :
  Inv (sh_machine sb) ->
  Inv (sh_machine (snd
    ((_ <- (present <- test_f (LUKS_FILE u);;
            if present
            then (_ <- run_command (dd_urandom (LUKS_FILE u) 1048576 2);;
                  run_command (rm_f (LUKS_FILE u)))
            else sh_ret 0);;
      _ <- find_exec_dd (RAMDISK u) 1024 1024;;
      _ <- run_command (umount (RAMDISK u));;
      _ <- run_command (rmdir (RAMDISK u));;
      run_command (echo "💥 Self-destruct completed"))%sh sb))).
Proof.
  intros Ib.
  (* shred the image *)
  unfold sh_bind at 1. unfold sh_bind at 1. unfold test_f at 1.
  assert (Ic : Inv (sh_machine (snd
            ((if is_file (LUKS_FILE u) (sh_machine sb)
              then sh_bind (run_command (dd_urandom (LUKS_FILE u) 1048576 2))
                     (fun _ => run_command (rm_f (LUKS_FILE u)))
              else sh_ret 0) sb)))).
  { destruct (is_file _ _) eqn:F; [|exact Ib].
    unfold sh_bind.
    pose proof (run_command_keeps (dd_urandom (LUKS_FILE u) 1048576 2) sb Ib
                  (Inv_dd_image _ Ib F)) as Ix.
    take_step Ix stx sx.
    apply run_command_keeps; [exact Ix|]. now apply Inv_rm_image. }
  take_step Ic st3 sc.
  (* shred the store *)
  unfold sh_bind at 1. unfold find_exec_dd at 1. unfold sh_bind at 1.
  pose proof (exec_each_dd_keeps (find_files (RAMDISK u) (sh_machine sc)) sc Ic
                (fun f H => conj (find_files_In _ _ _ H)
                                 (find_files_under _ _ _ H))) as Id.
  take_step Id st4 sd.
  pose proof (run_command_keeps (find_type_f (RAMDISK u)) sd Id Id) as Ie.
  take_step Ie st5 se.
  (* unmount and remove the store *)
  unfold sh_bind at 1.
  pose proof (run_command_keeps (umount (RAMDISK u)) se Ie
                (Inv_umount_store _ Ie)) as If.
  take_step If st6 sf.
  unfold sh_bind at 1.
  pose proof (run_command_keeps (rmdir (RAMDISK u)) sf If
                (Inv_rmdir_store _ If)) as Ig.
  take_step Ig st7 sg.
  now apply run_command_keeps.
Qed.

Lemma cleanup_all_keeps (s : shell) :
  Inv (sh_machine s) -> Inv (sh_machine (snd (cleanup_all u s))).
Proof.
  intros I. unfold cleanup_all.
  (* echo *)
  unfold sh_bind at 1.
  pose proof (run_command_keeps
                (echo "🔥 Initiating self-destruct sequence...") s I I) as I0.
  take_step I0 st0 s0.
  (* unmount *)
  unfold sh_bind at 1. unfold sh_bind at 1. unfold mountpoint_q at 1.
  assert (Ia : Inv (sh_machine (snd
            ((if is_mountpoint (MOUNT_POINT u) (sh_machine s0)
              then run_command (umount (MOUNT_POINT u)) else sh_ret 0) s0)))).
  { destruct (is_mountpoint _ _); [|exact I0].
    apply run_command_keeps; [exact I0|]. now apply Inv_umount_mount_point. }
  take_step Ia st1 sa.
  (* close *)
  unfold sh_bind at 1. unfold sh_bind at 1. unfold test_e at 1.
  assert (Ib : Inv (sh_machine (snd
            ((if path_exists "/dev/mapper/luks_token" (sh_machine sa)
              then run_command (cryptsetup_close "luks_token")
              else sh_ret 0) sa)))).
  { destruct (path_exists _ _); [|exact Ia].
    apply run_command_keeps; [exact Ia|]. now apply Inv_close. }
  take_step Ib st2 sb.
  now apply cleanup_all_tail_keeps.
Qed.

End CleanupInvariant.

(** ** The unit stays armed *)

Lemma armed_umount (u : destruct_script) (p : string) (m : machine) :
  p = MOUNT_POINT u \/ p = RAMDISK u ->
  armed u m -> armed u (snd (sys_umount p m)).
Proof.
  intros Hp (Umr & Urm & ND & Hdev & Hstore).
  destruct (is_mountpoint p m) eqn:E;
    [|unfold sys_umount; rewrite E; now repeat split].
  assert (Mo : mounts (snd (sys_umount p m)) = remove_mount p (mounts m))
    by (unfold sys_umount; now rewrite E).
  split; [exact Umr|]. split; [exact Urm|].
  split; [rewrite Mo; now apply remove_mount_NoDup|].
  split.
  { rewrite Mo. intros e He. apply Hdev. eapply remove_mount_In; eauto. }
  destruct (String.eqb_spec p (RAMDISK u)) as [EQ|NE].
  - subst p. right.
    destruct Hstore as [(_ & Hf & Hd)|(Hm & _)]; [|congruence].
    split; [unfold is_mountpoint; rewrite Mo; now apply remove_mount_gone|].
    now apply is_empty_dir_umount_same.
  - destruct Hp as [->| ->]; [|congruence].
    destruct (uncovered_umount_other _ _ m NE) as (Uf & Ud).
    destruct Hstore as [(Hm & Hf & Hd)|(Hm & He)].
    + left. rewrite Uf, Ud. split; [|auto].
      unfold is_mountpoint. rewrite Mo. now rewrite remove_mount_other.
    + right. split.
      * unfold is_mountpoint. rewrite Mo. now apply remove_mount_mono.
      * now apply is_empty_dir_umount_other.
Qed.

Lemma armed_close (u : destruct_script) (n : string) (m : machine) :
  armed u m -> armed u (snd (sys_cryptsetup_close n m)).
Proof.
  intros H. unfold sys_cryptsetup_close.
  destruct (is_mapped n m); [|exact H].
  destruct (existsb _ (mounts m)); exact H.
Qed.

Lemma armed_dd (u : destruct_script) (f : string) (bs count : Z)
  (m : machine) :
  armed u m -> is_file f m = true ->
  armed u (snd (sys_dd_urandom f bs count m)).
Proof.
  intros (Umr & Urm & ND & Hdev & Hstore) F.
  unfold sys_dd_urandom. rewrite F. cbn [snd].
  assert (M : mounts (write_file f (Random (bs * count)) m) = mounts m)
    by (unfold write_file; now rewrite F).
  assert (D : dirs (write_file f (Random (bs * count)) m) = dirs m)
    by (unfold write_file; now rewrite F).
  assert (C : covers (write_file f (Random (bs * count)) m) = covers m)
    by (unfold write_file; now rewrite F).
  split; [exact Umr|]. split; [exact Urm|].
  split; [now rewrite M|]. split; [now rewrite M|].
  unfold is_mountpoint, uncovered_files, uncovered_dirs in *.
  rewrite M, C.
  destruct Hstore as [Hm|(Hm & He)]; [now left|right].
  split; [exact Hm|].
  rewrite (is_empty_dir_names _ m); [exact He| |exact D].
  now apply write_file_names.
Qed.

Lemma armed_rm_f (u : destruct_script) (p : string) (m : machine) :
  armed u m -> armed u (snd (sys_rm_f p m)).
Proof.
  intros (Umr & Urm & ND & Hdev & Hstore). unfold sys_rm_f.
  destruct (is_file p m); [|destruct (is_dir p m); now repeat split].
  cbn [snd]. split; [exact Umr|]. split; [exact Urm|].
  split; [exact ND|]. split; [exact Hdev|].
  destruct Hstore as [Hm|(Hm & He)]; [now left|right].
  split; [exact Hm|]. now apply is_empty_dir_unlink.
Qed.

Lemma armed_rmdir (u : destruct_script) (p : string) (m : machine) :
  armed u m -> armed u (snd (sys_rmdir p m)).
Proof.
  intros (Umr & Urm & ND & Hdev & Hstore). unfold sys_rmdir.
  destruct (_ && _); [|now repeat split].
  cbn [snd]. split; [exact Umr|]. split; [exact Urm|].
  split; [exact ND|]. split; [exact Hdev|].
  destruct Hstore as [Hm|(Hm & He)]; [now left|right].
  split; [exact Hm|].
  unfold is_empty_dir in *. cbn.
  apply andb_true_iff in He. destruct He as [Hf Hd]. rewrite Hf.
  apply negb_true_iff in Hd. now rewrite existsb_filter_mono.
Qed.

(** Whatever fails in a run of [cleanup_all], the machine it leaves is one
    the unit is still armed on. *)
Lemma cleanup_all_keeps_armed (u : destruct_script) (s : shell) :
  armed u (sh_machine s) -> armed u (sh_machine (snd (cleanup_all u s))).
Proof.
  apply cleanup_all_keeps; intros.
  - apply armed_umount; auto.
  - now apply armed_close.
  - now apply armed_dd.
  - now apply armed_rm_f.
  - now apply armed_dd.
  - apply armed_umount; auto.
  - now apply armed_rmdir.
Qed.

(** With nothing killed, both subshells run [cleanup_all], one after the
    other. *)
Lemma timeline_both (self : LUKSTokenSystem) (timer_seconds t0 : Z)
  (s : shell) :
  0 <= timer_seconds ->
  let u := script_content self timer_seconds in
  snd (timeline [] (launch u t0) s)
  = snd (cleanup_all u (snd (cleanup_all u s))) /\
  map (fun r => snd r) (fst (timeline [] (launch u t0) s))
  = [fst (cleanup_all u s); fst (cleanup_all u (snd (cleanup_all u s)))].
Proof.
  intros Hpos u.
  assert (P1 : (0 <=? timer_seconds)%Z = true) by now apply Z.leb_le.
  assert (P2 : (0 <=? timer_seconds + 180)%Z = true)
    by (apply Z.leb_le; lia).
  assert (W : (t0 + timer_seconds <? t0 + (timer_seconds + 180))%Z = true)
    by (apply Z.ltb_lt; lia).
  unfold timeline, launch, dd_destruct_sh, background, bash_echo, fires, wake.
  cbn [procs now filter app List.length pid started delay
       script_timer_seconds script_failsafe_timer u script_content
       forallb fst snd Nat.eqb andb negb].
  rewrite P1, P2.
  cbn [andb by_wake fold_right insert_by_wake run_timers action
       pid started delay].
  unfold wake. cbn [started delay]. rewrite W.
  cbn [run_timers action]. unfold sh_bind, sh_ret, wake.
  cbn [started delay pid].
  destruct (cleanup_all _ s) as [st1 s1]. cbn [snd fst].
  destruct (cleanup_all _ s1) as [st2 s2]. split; reflexivity.
Qed.

(** X1. For the unit the program writes and any timer that [sleep]
    accepts: when the machine is one the unit is armed on and whatever fails
    does so while the primary runs (the failures are used up when its
    [cleanup_all] returns), the two runs of [cleanup_all] both end with
    status 0 and the failsafe leaves nothing behind: no mount at the mount
    point, no mapping, no image, no store (directory, mount or file). *)
Theorem failsafe_completes_a_disturbed_primary
  (self : LUKSTokenSystem) (timer_seconds t0 : Z) (s : shell) :
  0 <= timer_seconds ->
  let u := script_content self timer_seconds in
  armed u (sh_machine s) ->
  sh_faults (snd (cleanup_all u s)) = [] ->
  let after := timeline [] (launch u t0) s in
  map (fun r => snd r) (fst after) = [0; 0] /\
  destroyed u (sh_machine (snd after)).
Proof.
  intros Hpos u A F after.
  destruct (timeline_both self timer_seconds t0 s Hpos) as (E & St).
  fold u in E, St. subst after. rewrite E, St. clear E St.
  pose proof (cleanup_all_keeps_armed u s A) as A1.
  destruct (cleanup_all_shape u s)
    as (_ & _ & _ & _ & _ & _ & _ & _ & _ & _ & _ & _ & s1 & E1 & _).
  rewrite E1 in *. cbn [fst snd] in *.
  destruct s1 as [m1 f1 l1]. cbn [sh_machine sh_faults] in A1, F. subst f1.
  destruct (cleanup_all_quiet u m1 l1) as (l2 & E2). rewrite E2.
  cbn [fst snd sh_machine]. split; [reflexivity|].
  now apply wiped_destroyed.
Qed.

Lemma failsafe_completes_a_disturbed_primary_witness :
  let s := {| sh_machine := sample_machine; sh_faults := [true; true; true];
              sh_log := [] |} in
  armed sample_unit (sh_machine s) /\
  sh_faults (snd (cleanup_all sample_unit s)) = [] /\
  is_mountpoint (MOUNT_POINT sample_unit)
    (sh_machine (snd (cleanup_all sample_unit s))) = true /\
  let after := timeline [] (launch sample_unit 0) s in
  map (fun r => snd r) (fst after) = [0; 0] /\
  destroyed sample_unit (sh_machine (snd after)).
Proof.
  cbv zeta.
  pose proof sample_machine_armed as A.
  split; [exact A|]. split; [vm_compute; reflexivity|].
  split; [vm_compute; reflexivity|].
  refine (failsafe_completes_a_disturbed_primary init 60 0
            {| sh_machine := sample_machine; sh_faults := [true; true; true];
               sh_log := [] |} ltac:(lia) A _).
  vm_compute. reflexivity.
Defined.

(** ** What [cleanup_all] leaves alone *)

Section Frame.

Context {A : Type}.

Lemma find_filter_keep (f g : A -> bool) (l : list A) :
  (forall x, f x = true -> g x = true) -> find f (filter g l) = find f l.
Proof.
  intros H. induction l as [|a l IH]; [reflexivity|]. cbn.
  destruct (g a) eqn:G; cbn.
  - now rewrite IH.
  - destruct (f a) eqn:F; [|exact IH]. apply H in F. congruence.
Qed.

Lemma filter_filter_same (f : A -> bool) (l : list A) :
  filter f (filter f l) = filter f l.
Proof.
  induction l as [|a l IH]; [reflexivity|]. cbn.
  destruct (f a) eqn:F; cbn; [rewrite F; now f_equal|exact IH].
Qed.

End Frame.

Lemma read_file_drop_under (d p : string) (m : machine) :
  under d p = false -> read_file p (drop_under d m) = read_file p m.
Proof.
  intros U. unfold read_file, drop_under. cbn. f_equal.
  apply find_filter_keep. intros [q c] E. cbn in *.
  apply String.eqb_eq in E. subst q. now rewrite U.
Qed.

Lemma read_file_write_file_other (p q : string) (c : content) (m : machine) :
  p <> q -> read_file p (write_file q c m) = read_file p m.
Proof.
  intros N. unfold read_file, write_file.
  assert (Q : (q =? p) = false) by (apply String.eqb_neq; congruence).
  destruct (is_file q m); cbn; f_equal.
  - induction (files m) as [|[a b] l IH]; [reflexivity|]. cbn.
    destruct (a =? q) eqn:E; cbn.
    + rewrite Q. apply String.eqb_eq in E. subst a. now rewrite Q.
    + now rewrite IH.
  - induction (files m) as [|[a b] l IH]; cbn; [now rewrite Q|].
    now rewrite IH.
Qed.

Lemma read_file_unlink_other (p q : string) (m : machine) :
  p <> q -> read_file p (unlink q m) = read_file p m.
Proof.
  intros N. unfold read_file, unlink. cbn. f_equal.
  apply find_filter_keep. intros [a b] E. cbn in *.
  apply String.eqb_eq in E. subst a.
  apply negb_true_iff. apply String.eqb_neq. exact N.
Qed.

Lemma filter_remove_mount (g : mount_entry -> bool) (p : string)
  (l : list mount_entry) :
  (forall e, target e = p -> g e = false) ->
  filter g (remove_mount p l) = filter g l.
Proof.
  intros H. induction l as [|e l IH]; [reflexivity|]. cbn.
  destruct (String.eqb_spec (target e) p) as [E|E].
  - now rewrite (H e E).
  - cbn. now rewrite IH.
Qed.









(** ** A volume that is busy at the deadline *)

Lemma remove_mount_keeps (p : string) (l : list mount_entry)
  (e : mount_entry) :
  In e l -> target e <> p -> In e (remove_mount p l).
Proof.
  intros H N. induction l as [|a l IH]; [destruct H|]. cbn.
  destruct (String.eqb_spec (target a) p) as [E|E].
  - destruct H as [->|H]; [contradiction|exact H].
  - destruct H as [->|H]; [now left|right; auto].
Qed.

Lemma is_mountpoint_In (e : mount_entry) (m : machine) :
  In e (mounts m) -> is_mountpoint (target e) m = true.
Proof.
  intros H. unfold is_mountpoint. apply existsb_exists.
  exists e. split; [exact H|apply String.eqb_refl].
Qed.

(** X3. For the unit the program writes: when the unlocked volume is
    mounted at the mount point and its [umount] fails (the volume is busy),
    [cleanup_all] goes on, [cryptsetup close] cannot close a device that
    is mounted, and the function still ends with status 0: the volume is
    left mounted and the device mapped, whatever else fails or not.  (What
    the files of the volume then read as is not said: the image behind
    the device is overwritten next.) *)
Theorem busy_volume_is_left_mounted_and_open
  (timer_seconds : Z) (m : machine) (e : mount_entry) (fs : list bool)
  (l : list sh_event) :
  let u := script_content init timer_seconds in
  In e (mounts m) ->
  target e = MOUNT_POINT u ->
  source e = "/dev/mapper/luks_token" ->
  is_mapped "luks_token" m = true ->
  let after :=
    cleanup_all u {| sh_machine := m; sh_faults := true :: fs; sh_log := l |} in
  fst after = 0 /\
  In e (mounts (sh_machine (snd after))) /\
  is_mountpoint (MOUNT_POINT u) (sh_machine (snd after)) = true /\
  is_mapped "luks_token" (sh_machine (snd after)) = true.
Proof.
  intros u He Ht Hs Hm after.
  assert (NE : MOUNT_POINT u <> RAMDISK u) by discriminate.
  assert (Mp : is_mountpoint (MOUNT_POINT u) m = true)
    by (rewrite <- Ht; now apply is_mountpoint_In).
  set (Inv := fun m' : machine =>
         In e (mounts m') /\ is_mapped "luks_token" m' = true).
  split; [exact (cleanup_all_status u _)|].
  assert (I : Inv (sh_machine (snd after))).
  { subst after. unfold cleanup_all.
    (* echo *)
    unfold sh_bind at 1. unfold run_command at 1.
    cbn [faultable sh_faults sh_machine semantics sh_log].
    (* the unmount fails *)
    unfold sh_bind at 1. unfold sh_bind at 1. unfold mountpoint_q at 1.
    cbn [sh_machine]. rewrite Mp.
    unfold run_command at 1.
    cbn [faultable sh_faults sh_machine sh_log pop_fault].
    (* the device cannot be closed *)
    unfold sh_bind at 1. unfold sh_bind at 1. unfold test_e at 1.
    cbn [sh_machine].
    match goal with |- context [(if path_exists ?d m then ?c else ?k) ?s] =>
      assert (Ib : Inv (sh_machine (snd
                ((if path_exists d m then c else k) s))))
    end.
    { assert (I0 : Inv m) by (unfold Inv; auto).
      destruct (path_exists _ m); [|exact I0].
      match goal with |- context [run_command ?c ?s] =>
        destruct (run_command_idle c s) as (st & s' & E & M) end.
      - cbn. unfold sys_cryptsetup_close. rewrite Hm.
        assert (existsb (fun e0 => source e0 =? mapper_path "luks_token")
                  (mounts m) = true) as ->; [|reflexivity].
        apply existsb_exists. exists e. split; [exact He|].
        rewrite Hs. apply String.eqb_refl.
      - rewrite E. cbn [snd]. rewrite M. exact I0. }
    take_step Ib st2 sb.
    apply (cleanup_all_tail_keeps u Inv); [..|exact Ib]; clear Ib sb st2.
    - (* dd over the image *)
      intros m' (I1 & I2) F. unfold sys_dd_urandom. rewrite F.
      cbn [snd]. unfold Inv.
      split; [unfold write_file; now rewrite F|].
      unfold is_mapped, write_file; now rewrite F.
    - (* rm of the image *)
      intros m' (I1 & I2). unfold sys_rm_f.
      destruct (is_file _ m');
        [|destruct (is_dir _ m'); now repeat split].
      cbn [snd]. split; [exact I1|exact I2].
    - (* dd over a file of the store *)
      intros m' f (I1 & I2) F Uf. unfold sys_dd_urandom. rewrite F.
      cbn [snd]. unfold Inv.
      split; [unfold write_file; now rewrite F|].
      unfold is_mapped, write_file; now rewrite F.
    - (* umount of the store *)
      intros m' (I1 & I2). unfold sys_umount.
      destruct (is_mountpoint _ m'); [|now repeat split].
      cbn [snd]. split; [|exact I2].
      cbn. apply remove_mount_keeps; [exact I1|]. now rewrite Ht.
    - (* rmdir of the store *)
      intros m' (I1 & I2). unfold sys_rmdir.
      destruct (_ && _); now repeat split. }
  destruct I as (I1 & I2).
  split; [exact I1|]. split; [|exact I2].
  rewrite <- Ht. now apply is_mountpoint_In.
Qed.

Lemma busy_volume_is_left_mounted_and_open_witness :
  let e := {| target := "/tmp/LUKS-TOKEN-2MB";
              source := "/dev/mapper/luks_token"; options := "" |} in
  let after :=
    cleanup_all sample_unit
      {| sh_machine := sample_machine; sh_faults := [true]; sh_log := [] |} in
  In e (mounts sample_machine) /\
  is_mapped "luks_token" sample_machine = true /\
  is_file "/tmp/LUKS-TOKEN-2MB.img" (sh_machine (snd after)) = false /\
  fst after = 0 /\
  In e (mounts (sh_machine (snd after))) /\
  is_mountpoint "/tmp/LUKS-TOKEN-2MB" (sh_machine (snd after)) = true /\
  is_mapped "luks_token" (sh_machine (snd after)) = true.
Proof.
  cbv zeta.
  assert (He : In {| target := "/tmp/LUKS-TOKEN-2MB";
                     source := "/dev/mapper/luks_token"; options := "" |}
                 (mounts sample_machine)) by (left; reflexivity).
  split; [exact He|]. split; [reflexivity|].
  split; [vm_compute; reflexivity|].
  exact (busy_volume_is_left_mounted_and_open 60 sample_machine _ [] []
           He eq_refl eq_refl eq_refl).
Defined.

(* ================================================================== *)
(** * What the parts of the session leave alone *)
(* ================================================================== *)

#[export] Instance same_PreOrder {X : Type} (f : world -> X) :
  PreOrder (same f).
Proof.
  split.
  - intros w. reflexivity.
  - intros a b c H1 H2. unfold same in *. congruence.
Qed.

#[export] Instance only_shows_PreOrder : PreOrder only_shows.
Proof.
  split.
  - intros w. exists []. now rewrite app_nil_r.
  - intros a b c (n1 & E1 & F1) (n2 & E2 & F2). exists (n1 ++ n2).
    split; [now rewrite E2, E1, app_assoc|]. apply Forall_app. auto.
Qed.

Section Keeps.

Variable R : world -> world -> Prop.
Context {R_PreOrder : PreOrder R}.

Lemma keeps_ret {A} (a : A) : keeps R (ret a).
Proof. intros w r w' H. inversion H. reflexivity. Qed.

Lemma keeps_raise {A} (e : exn) : keeps R (@raise A e).
Proof. intros w r w' H. inversion H. reflexivity. Qed.

Lemma keeps_bind {A B} (c : Py A) (k : A -> Py B) :
  keeps R c -> (forall a, keeps R (k a)) -> keeps R (bind c k).
Proof.
  intros Hc Hk w r w' H. unfold bind in H.
  destruct (c w) as [[a|e] w1] eqn:E.
  - transitivity w1; [eapply Hc; eauto|eapply Hk; eauto].
  - inversion H; subst. eapply Hc; eauto.
Qed.

Lemma keeps_try {A} (c : Py A) (h : exn -> option (Py A)) :
  keeps R c -> (forall e k, h e = Some k -> keeps R k) ->
  keeps R (try_except c h).
Proof.
  intros Hc Hh w r w' H. unfold try_except in H.
  destruct (c w) as [[a|e] w1] eqn:E.
  - inversion H; subst. eapply Hc; eauto.
  - destruct (h e) as [k|] eqn:K.
    + transitivity w1; [eapply Hc; eauto|eapply Hh; eauto].
    + inversion H; subst. eapply Hc; eauto.
Qed.

Lemma keeps_loop {A} (body : Py (option A)) :
  keeps R body -> keeps R (loop body).
Proof.
  intros Hb w r w' H.
  apply (loop_inv body (fun w _ w' => R w w')) in H; auto.
  - intros. eapply Hb; eauto.
  - intros. eapply Hb; eauto.
  - intros v v1 r' v' E Q. transitivity v1; [eapply Hb; eauto|exact Q].
  - intros. reflexivity.
Qed.

Lemma keeps_for_return {X A} (xs : list X) (body : X -> Py (option A)) :
  (forall x, keeps R (body x)) -> keeps R (for_return xs body).
Proof.
  intros Hb. induction xs as [|x xs IH]; cbn [for_return].
  - apply keeps_ret.
  - apply keeps_bind; [apply Hb|].
    intros [v|]; [apply keeps_ret|exact IH].
Qed.

End Keeps.

Create HintDb frame discriminated.

(** A builtin is one step: its effect is read off its definition. *)
Ltac one_step :=
  let w := fresh "w" in let r := fresh "r" in
  let w' := fresh "w'" in let H := fresh "H" in
  intros w r w' H;
  cbv beta iota zeta delta [emit print read_key input getpass geteuid fault
                  os_makedirs spawn subprocess_run Popen_communicate
                  nohup_bash Popen_shell open_write open_read os_chmod
                  os_path_exists os_path_ismount os_remove progress_hook
                  bind ret raise sys_exit] in H;
  split_match H; inversion H; subst; try discriminate;
  try reflexivity.

Ltac keeps_step :=
  match goal with
  | |- keeps ?R (ret _) => apply (keeps_ret R)
  | |- keeps ?R (raise _) => apply (keeps_raise R)
  | |- keeps ?R (sys_exit _) => apply (keeps_raise R)
  | |- keeps ?R (bind _ _) => apply (keeps_bind R); [|intros ?]
  | |- keeps ?R (try_except _ _) =>
      apply (keeps_try R);
      [|let e := fresh "e" in let k := fresh "k" in let H := fresh "H" in
        intros e k H; destruct e; cbn in H; inversion H; subst; clear H]
  | |- keeps ?R (loop _) => apply (keeps_loop R)
  | |- keeps ?R (for_return _ _) => apply (keeps_for_return R); intros ?
  | |- keeps _ (if ?b then _ else _) => destruct b
  | |- keeps _ (match ?x with _ => _ end) => destruct x
  | |- keeps _ _ => first [solve [auto with frame] | solve [one_step]]
  end.

Ltac keeps_all := repeat keeps_step.

Lemma same_progress_hook_any {X : Type} (obs : world -> X) :
  (forall w l, obs (set_out l w) = obs w) ->
  forall a b c, keeps (same obs) (progress_hook a b c).
Proof.
  intros O a b c w r w' H. rewrite progress_hook_spec in H.
  inversion H; subst. unfold same. destruct (_ >? _)%Z; [apply O|reflexivity].
Qed.

(** Two worlds written with the setters are equal when their fields are. *)
Ltac world_eq w :=
  destruct w;
  cbv beta iota delta [set_out set_sys set_faults set_tty set_net set_detached asked
                       asked_secret out sys euid tty interactive net faults detached];
  rewrite <- ?app_assoc; reflexivity.

(** A builtin raises what its definition says. *)
Ltac one_raise :=
  let w := fresh "w" in let e := fresh "e" in
  let w' := fresh "w'" in let H := fresh "H" in
  intros w e w' H;
  cbv beta iota zeta delta [emit print read_key input getpass geteuid fault
                  os_makedirs spawn subprocess_run Popen_communicate
                  nohup_bash Popen_shell open_write open_read os_chmod
                  os_path_exists os_path_ismount os_remove progress_hook
                  bind ret raise sys_exit] in H;
  split_match H; inversion H; subst; try discriminate; reflexivity.

(** ** Without root *)

(** X4. Started without root privileges, the program prints its banner and
    the two lines of [check_root] and exits with status 1; it has read
    nothing from the terminal, fetched nothing, started no process and
    changed nothing on the machine. *)
Theorem without_root_nothing_is_touched (w : world) :
  euid w <> 0 ->
  program w
  = (1, set_out
          (out w ++
           [Printed "🔐 LUKS Token Self-Destruct System";
            Printed (repeat_str "=" 40);
            Printed "❌ This script requires root privileges for LUKS operations!";
            Printed "Please run with: sudo python3 script.py"]) w).
Proof.
  intros H. apply Z.eqb_neq in H.
  unfold program, main. cbv zeta. unfold bind at 1. unfold run.
  rewrite !bind_print. unfold try_except, bind at 1.
  unfold check_root. unfold bind at 1, geteuid.
  cbn [euid set_out]. rewrite H. cbn [negb].
  rewrite !bind_print. unfold sys_exit, raise. cbn [is_Exception exit_status].
  unfold set_out. cbn [out sys euid tty interactive net faults detached].
  rewrite <- !app_assoc. reflexivity.
Qed.

Lemma without_root_nothing_is_touched_witness :
  let w := {| sys := fresh_machine; euid := 1000; tty := [Line "1"];
              interactive := true; net := Served None token_image;
              faults := []; detached := []; out := [] |} in
  fst (program w) = 1 /\ sys (snd (program w)) = fresh_machine /\
  tty (snd (program w)) = [Line "1"] /\
  List.length (out (snd (program w))) = 4%nat.
Proof.
  cbv zeta.
  rewrite (without_root_nothing_is_touched
             {| sys := fresh_machine; euid := 1000; tty := [Line "1"];
                interactive := true; net := Served None token_image;
                faults := []; detached := []; out := [] |}
             ltac:(discriminate)).
  repeat split.
Defined.

(** ** The RAM disk *)

Lemma under_self (d : string) : under d d = false.
Proof.
  unfold under. induction d as [|c d IH]; [reflexivity|].
  cbn. destruct (Ascii.ascii_dec c c); [exact IH|reflexivity].
Qed.

Lemma os_makedirs_spec (path : string) (w : world) (r : result unit)
  (w' : world) :
  os_makedirs path w = (r, w') ->
  out w' = out w /\ tty w' = tty w /\ detached w' = detached w /\
  mounts (sys w') = mounts (sys w) /\ mapper (sys w') = mapper (sys w) /\
  files (sys w') = files (sys w) /\
  match r with
  | Return _ =>
      is_dir path (sys w') = true /\
      (forall d, d <> path -> is_dir d (sys w') = is_dir d (sys w))
  | Raise e => sys w' = sys w /\ exists msg, e = OSError msg
  end.
Proof.
  unfold os_makedirs, bind, fault. destruct (pop_fault (faults w)) as [b fs].
  destruct b; cbv beta iota.
  - unfold raise. intros H. inversion H; subst. cbn. eauto 10.
  - cbn [sys set_faults]. destruct (is_file path (sys w)).
    + intros H. inversion H; subst. cbn. eauto 10.
    + destruct (is_dir path (sys w)) eqn:D; intros H; inversion H; subst; cbn.
      * auto 10.
      * repeat (split; [reflexivity|]). unfold is_dir. cbn. split.
        -- rewrite existsb_app. cbn. rewrite String.eqb_refl.
           apply orb_true_r.
        -- intros d N. rewrite existsb_app. cbn.
           assert ((path =? d) = false) as -> by now apply String.eqb_neq.
           now rewrite !orb_false_r.
Qed.

Lemma execute_mount_tmpfs (opts p : string) (m : machine) :
  execute ["mount"; "-t"; "tmpfs"; "-o"; opts; "tmpfs"; p] None m
  = ((fst (sys_mount_tmpfs opts p m), ""), snd (sys_mount_tmpfs opts p m)).
Proof. reflexivity. Qed.

Lemma create_ramdisk_spec (self : LUKSTokenSystem) (w : world)
  (r : result bool) (w' : world) :
  create_ramdisk self w = (r, w') ->
  tty w' = tty w /\ detached w' = detached w /\
  mapper (sys w') = mapper (sys w) /\
  match r with
  | Return true =>
      exists m0,
        mounts m0 = mounts (sys w) /\ files m0 = files (sys w) /\
        is_dir (ramdisk_path self) m0 = true /\
        (forall d, d <> ramdisk_path self -> is_dir d m0 = is_dir d (sys w)) /\
        tmpfs_options_ok ("size=" +++ ramdisk_size self) = true /\
        sys w' = set_mounts (tmpfs_entry self :: mounts m0)
                   (cover_under (ramdisk_path self) m0) /\
        out w' = out w ++
          [Printed ("🚀 Creating " +++ ramdisk_size self +++ " RAM disk at "
                    +++ ramdisk_path self +++ "...");
           Exec (tmpfs_argv self) None 0;
           Printed ("✅ RAM disk created successfully at "
                    +++ ramdisk_path self)]
  | Return false =>
      mounts (sys w') = mounts (sys w) /\ files (sys w') = files (sys w) /\
      exists rc,
        rc <> 0 /\
        out w' = out w ++
          [Printed ("🚀 Creating " +++ ramdisk_size self +++ " RAM disk at "
                    +++ ramdisk_path self +++ "...");
           Exec (tmpfs_argv self) None rc;
           Printed ("❌ Failed to create RAM disk: "
                    +++ str_exn (CalledProcessError (tmpfs_argv self) rc))]
  | Raise e =>
      sys w' = sys w /\ (exists msg, e = OSError msg) /\
      out w' = out w ++
        [Printed ("🚀 Creating " +++ ramdisk_size self +++ " RAM disk at "
                  +++ ramdisk_path self +++ "...")]
  end.
Proof.
  unfold create_ramdisk. rewrite bind_print. unfold try_except.
  unfold bind at 1.
  match goal with |- context [os_makedirs ?p ?v] =>
    pose proof (os_makedirs_spec p v) as M;
    destruct (os_makedirs p v) as [[[]|e] w0] end;
    specialize (M _ _ eq_refl);
    destruct M as (O0 & T0 & D0 & M0 & Ma0 & F0 & R0);
    cbn [out tty detached sys set_out] in O0, T0, D0, M0, Ma0, F0, R0.
  2:{ destruct R0 as (S0 & msg & ->). cbn. intros H. inversion H; subst.
      rewrite T0, D0, Ma0, O0. eauto 10. }
  destruct R0 as (Dir & Others).
  fold (tmpfs_argv self). unfold bind at 1.
  destruct (subprocess_run_check_spec (tmpfs_argv self) w0)
    as (rc & m' & fs & E).
  pose proof E as E'. unfold subprocess_run, bind in E'.
  destruct (spawn_spec (tmpfs_argv self) None w0)
    as (rc' & err & m'' & fs' & Sp & _ & Hrc).
  rewrite Sp in E'. cbn [fst andb] in E'.
  assert (rc' = rc /\ m'' = m') as (-> & ->).
  { destruct (rc' =? 0)%Z eqn:Z1, (rc =? 0)%Z eqn:Z2; cbn in E';
      unfold ret, raise in E'; inversion E'; subst; auto;
      try (apply Z.eqb_eq in Z1; subst; auto);
      try (apply Z.eqb_eq in Z2; subst; auto). }
  clear E' Sp. rewrite E.
  destruct (rc =? 0)%Z eqn:Z.
  - apply Z.eqb_eq in Z. subst rc. rewrite bind_print. unfold ret.
    intros H. inversion H; subst. cbn [tty detached sys out set_out set_sys
                                       set_faults].
    destruct Hrc as [[? _]|X]; [discriminate|].
    unfold tmpfs_argv in X. rewrite execute_mount_tmpfs in X.
    unfold sys_mount_tmpfs in X. rewrite Dir in X. cbn [andb] in X.
    destruct (tmpfs_options_ok ("size=" +++ ramdisk_size self)) eqn:Ok;
      cbn [fst snd] in X; inversion X; subst.
    cbn [mapper set_mounts cover_under set_covers drop_under set_dirs
         set_files].
    split; [exact T0|]. split; [exact D0|]. split; [exact Ma0|].
    exists (sys w0). repeat (split; [assumption|]).
    split; [reflexivity|]. split; [reflexivity|].
    rewrite O0, <- !app_assoc. reflexivity.
  - apply Z.eqb_neq in Z. cbn [is_Exception]. rewrite bind_print. unfold ret.
    intros H. inversion H; subst. cbn [tty detached sys out set_out set_sys
                                       set_faults].
    assert (m' = sys w0) as ->.
    { destruct Hrc as [[_ ?]|X]; [assumption|].
      unfold tmpfs_argv in X. rewrite execute_mount_tmpfs in X.
      unfold sys_mount_tmpfs in X. rewrite Dir in X. cbn [andb] in X.
      destruct (tmpfs_options_ok ("size=" +++ ramdisk_size self));
        cbn [fst snd] in X; inversion X; subst; congruence. }
    split; [exact T0|]. split; [exact D0|]. split; [exact Ma0|].
    split; [exact M0|]. split; [exact F0|]. exists rc. split; [exact Z|].
    rewrite O0, <- !app_assoc. reflexivity.
Qed.

(** X5. What [create_ramdisk] leaves when it returns [True]: a tmpfs of the
    configured size mounted on top of the mount table at the RAM disk
    path, the directory there and nothing below it, every path outside it
    reading as before.  When it returns [False] the [mount] ended with a
    status other than 0 and nothing is mounted.  It catches
    [CalledProcessError] only: an [OSError] of [os.makedirs] (the path is a
    regular file, say) leaves the function, with the machine as it was. *)
Theorem create_ramdisk_outcomes (self : LUKSTokenSystem) (w : world)
  (r : result bool) (w' : world) :
  create_ramdisk self w = (r, w') ->
  match r with
  | Return true =>
      mounts (sys w') = tmpfs_entry self :: mounts (sys w) /\
      is_dir (ramdisk_path self) (sys w') = true /\
      is_empty_dir (ramdisk_path self) (sys w') = true /\
      (forall p, under (ramdisk_path self) p = false ->
                 read_file p (sys w') = read_file p (sys w))
  | Return false =>
      mounts (sys w') = mounts (sys w) /\ files (sys w') = files (sys w) /\
      exists rc, rc <> 0 /\ In (Exec (tmpfs_argv self) None rc) (out w')
  | Raise e => sys w' = sys w /\ exists msg, e = OSError msg
  end.
Proof.
  intros H. apply create_ramdisk_spec in H.
  destruct H as (_ & _ & _ & H). destruct r as [[|]|e].
  - destruct H as (m0 & M0 & F0 & D0 & _ & _ & -> & _).
    cbn [mounts sys set_mounts]. split; [now rewrite M0|]. split; [|split].
    + unfold is_dir in *. cbn.
      rewrite existsb_filter_keep; [exact D0|].
      intros q E. apply String.eqb_eq in E. subst q.
      now rewrite under_self.
    + apply (is_empty_dir_drop_same (ramdisk_path self) m0).
    + intros p U.
      change (read_file p (drop_under (ramdisk_path self) m0)
              = read_file p (sys w)).
      rewrite read_file_drop_under by exact U.
      unfold read_file. now rewrite F0.
  - destruct H as (M & F & rc & N & O). split; [exact M|]. split; [exact F|].
    exists rc. split; [exact N|]. rewrite O. apply in_or_app. right.
    cbn. auto.
  - destruct H as (S & M & _). auto.
Qed.

Lemma create_ramdisk_outcomes_witness :
  create_ramdisk init sample_w0 = (Return true, sample_w1) /\
  mounts (sys sample_w1) = tmpfs_entry init :: mounts (sys sample_w0) /\
  is_dir (ramdisk_path init) (sys sample_w1) = true /\
  is_empty_dir (ramdisk_path init) (sys sample_w1) = true /\
  (forall p, under (ramdisk_path init) p = false ->
             read_file p (sys sample_w1) = read_file p (sys sample_w0)).
Proof.
  assert (E : create_ramdisk init sample_w0 = (Return true, sample_w1))
    by (vm_compute; reflexivity).
  split; [exact E|].
  exact (create_ramdisk_outcomes init sample_w0 (Return true) sample_w1 E).
Defined.

(** ** The download *)

Lemma keeps_report_blocks (R : world -> world -> Prop) {P : PreOrder R}
  (hook : Z -> Z -> Z -> Py unit) (n : nat) :
  (forall a b c, keeps R (hook a b c)) ->
  forall first bs size, keeps R (report_blocks hook n first bs size).
Proof.
  intros Hh. induction n as [|n IH]; intros first bs size; cbn [report_blocks].
  - apply (keeps_ret R).
  - apply (keeps_bind R); [apply Hh|]. intros _. apply IH.
Qed.

Lemma open_write_spec (path : string) (c : content) (w : world)
  (r : result unit) (w' : world) :
  open_write path c w = (r, w') ->
  tty w' = tty w /\ detached w' = detached w /\ net w' = net w /\
  match r with
  | Return _ =>
      sys w' = write_file path c (sys w) /\ out w' = out w ++ [Written path]
  | Raise e => sys w' = sys w /\ out w' = out w /\ exists msg, e = OSError msg
  end.
Proof.
  unfold open_write, bind, fault, raise.
  destruct (pop_fault (faults w)) as [[|] fs]; cbv beta iota.
  - intros H. inversion H; subst. cbn. eauto 10.
  - cbn [sys set_faults]. destruct (is_dir path (sys w));
      intros H; inversion H; subst; cbn; eauto 10.
Qed.

(** What was read of a body is the body, or what the Content-Length leaves
    of it. *)
Lemma received_cases (header : option Z) (body : content) :
  (received header body = body /\
   forall n, header = Some n -> 0 <= n -> content_length body <= n) \/
  (exists n, header = Some n /\ 0 <= n < content_length body /\
             received header body = Partial n body).
Proof.
  unfold received. destruct header as [n|]; [|left; split; easy].
  destruct (0 <=? n)%Z eqn:P; cbn [andb].
  - destruct (n <? content_length body)%Z eqn:L.
    + right. exists n. apply Z.leb_le in P. apply Z.ltb_lt in L. auto.
    + left. split; [reflexivity|]. intros k K _. injection K as <-.
      now apply Z.ltb_ge in L.
  - left. split; [reflexivity|]. intros k K Hk. injection K as <-.
    apply Z.leb_gt in P. lia.
Qed.

Lemma urlretrieve_spec (url filename : string) (w : world)
  (r : result unit) (w' : world) :
  urlretrieve url filename progress_hook w = (r, w') ->
  tty w' = tty w /\ detached w' = detached w /\
  match net w with
  | Refused reason => r = Raise (URLError reason) /\ sys w' = sys w
  | Aborted => r = Raise KeyboardInterrupt /\ sys w' = sys w
  | Served header body =>
      (sys w' = sys w /\ exists msg, r = Raise (OSError msg)) \/
      (sys w' = write_file filename (received header body) (sys w) /\
       ((r = Return tt /\
         forall n, header = Some n -> 0 <= n ->
                   content_length (received header body) = n) \/
        ((exists msg, r = Raise (ContentTooShortError msg)) /\
         exists n, header = Some n /\ content_length body < n /\
                   received header body = body)))
  end.
Proof.
  unfold urlretrieve. unfold bind at 1. unfold emit at 1. cbv beta iota.
  cbn [net set_out].
  destruct (net w) as [header body|reason|] eqn:Net.
  - cbv zeta.
    set (size := match header with Some n => n | None => -1 end).
    set (w0 := set_out (out w ++ [Get url]) w).
    unfold bind at 1.
    destruct (open_write filename (received header body) w0)
      as [[[]|e] w1] eqn:E1;
      destruct (open_write_spec _ _ _ _ _ E1) as (T1 & D1 & _ & R1);
      cbn [tty detached sys out set_out w0] in T1, D1, R1.
    + destruct R1 as (S1 & _).
      unfold bind at 1. rewrite progress_hook_spec. unfold bind at 1.
      match goal with
      | |- context [report_blocks progress_hook ?n 1 ?bs size ?x] =>
          destruct (report_blocks_progress n 1 bs size x) as (w2 & E2 & _);
          pose proof (keeps_report_blocks (same sys) progress_hook n
                        (same_progress_hook_any sys (fun _ _ => eq_refl))
                        1 bs size _ _ _ E2)
            as S2;
          pose proof (keeps_report_blocks (same tty) progress_hook n
                        (same_progress_hook_any tty (fun _ _ => eq_refl))
                        1 bs size _ _ _ E2)
            as T2;
          pose proof (keeps_report_blocks (same detached) progress_hook n
                        (same_progress_hook_any detached (fun _ _ => eq_refl))
                        1 bs size _ _ _ E2)
            as D2
      end.
      rewrite E2. unfold same in S2, T2, D2.
      assert (Q : forall v : world,
                 sys (if (size >? 0)%Z
                      then set_out (out v ++ [Progress (0 * (1024 * 8)) size]) v
                      else v) = sys v /\
                 tty (if (size >? 0)%Z
                      then set_out (out v ++ [Progress (0 * (1024 * 8)) size]) v
                      else v) = tty v /\
                 detached (if (size >? 0)%Z
                      then set_out (out v ++ [Progress (0 * (1024 * 8)) size]) v
                      else v) = detached v)
        by (intros v; now destruct (size >? 0)%Z).
      destruct (Q w1) as (Q1 & Q2 & Q3).
      rewrite Q1 in S2. rewrite Q2 in T2. rewrite Q3 in D2.
      destruct ((0 <=? size)%Z
                && (content_length (received header body) <? size)%Z)
        eqn:Short;
        unfold raise, ret; intros H; inversion H; subst.
      * split; [congruence|]. split; [congruence|]. right.
        split; [congruence|]. right. split; [eauto|].
        apply andb_true_iff in Short. destruct Short as [P L].
        apply Z.ltb_lt in L. apply Z.leb_le in P. subst size.
        destruct header as [n|]; [|lia]. exists n.
        destruct (received_cases (Some n) body)
          as [(Eq & _)|(k & K & Hk & Eq)].
        -- rewrite Eq in L. auto.
        -- injection K as <-. rewrite Eq in L. cbn in L. lia.
      * split; [congruence|]. split; [congruence|]. right.
        split; [congruence|]. left. split; [reflexivity|].
        intros n -> Hn. subst size.
        assert (L : n <= content_length (received (Some n) body)).
        { apply andb_false_iff in Short. destruct Short as [L|L].
          - apply Z.leb_gt in L. lia.
          - now apply Z.ltb_ge in L. }
        destruct (received_cases (Some n) body)
          as [(Eq & Le)|(k & K & Hk & Eq)].
        -- rewrite Eq in *. specialize (Le n eq_refl Hn). lia.
        -- injection K as <-. rewrite Eq. reflexivity.
    + destruct R1 as (S1 & _ & msg & ->).
      intros H. inversion H; subst. eauto 10.
  - intros H. inversion H; subst. cbn. auto.
  - intros H. inversion H; subst. cbn. auto.
Qed.

Lemma download_luks_volume_spec (self : LUKSTokenSystem) (w : world)
  (r : result bool) (w' : world) :
  download_luks_volume self w = (r, w') ->
  tty w' = tty w /\ detached w' = detached w /\
  match r with
  | Return true =>
      exists header body,
        net w = Served header body /\
        sys w' = write_file (luks_file self) (received header body) (sys w) /\
        (forall n, header = Some n -> 0 <= n ->
                   content_length (received header body) = n)
  | Return false =>
      (sys w' = sys w /\ net w <> Aborted) \/
      (exists n body,
          net w = Served (Some n) body /\ content_length body < n /\
          sys w' = write_file (luks_file self) body (sys w))
  | Raise e => e = KeyboardInterrupt /\ net w = Aborted /\ sys w' = sys w
  end.
Proof.
  unfold download_luks_volume. rewrite bind_print.
  set (w0 := set_out _ w).
  unfold try_except. unfold bind at 1.
  destruct (urlretrieve _ _ _ w0) as [[[]|e] w1] eqn:E;
    destruct (urlretrieve_spec _ _ _ _ _ E) as (T & D & N);
    cbn [tty detached net sys set_out w0] in T, D, N.
  - rewrite bind_print. unfold ret. intros H. inversion H; subst. clear H.
    cbn [tty detached sys set_out]. split; [exact T|]. split; [exact D|].
    destruct (net w) as [header body|reason|].
    + destruct N as [(_ & msg & N)|(S & [(_ & C)|((msg & N) & _)])];
        try discriminate.
      exists header, body. auto.
    + destruct N as (N & _). discriminate.
    + destruct N as (N & _). discriminate.
  - destruct (net w) as [header body|reason|] eqn:Net.
    + destruct N as [(S & msg & N)
                    |(S & [(N & _)|((msg & N) & n & Hd & Lt & Eq)])];
        try discriminate; inversion N; subst e; cbn [is_Exception];
        rewrite bind_print; unfold ret; intros H; inversion H; subst;
        cbn [tty detached sys set_out];
        (split; [exact T|]); (split; [exact D|]).
      * left. split; [exact S|discriminate].
      * right. exists n, body. rewrite Eq in S. auto.
    + destruct N as (N & S). inversion N; subst e. cbn [is_Exception].
      rewrite bind_print. unfold ret. intros H. inversion H; subst.
      cbn [tty detached sys set_out]. split; [exact T|]. split; [exact D|].
      left. split; [exact S|discriminate].
    + destruct N as (N & S). inversion N; subst e. cbn [is_Exception].
      intros H. inversion H; subst. auto.
Qed.

Lemma write_file_rest (p : string) (c : content) (m : machine) :
  mounts (write_file p c m) = mounts m /\
  mapper (write_file p c m) = mapper m /\
  dirs (write_file p c m) = dirs m.
Proof. unfold write_file. now destruct (is_file p m). Qed.

(** X6. [download_luks_volume] touches one path, the image file.  It returns
    [True] only when the file holds what was read of the body the server
    sent: all of it, or, when a Content-Length was announced, exactly that
    many bytes, a longer body being cut there.  When the server sends less
    than it announced, the function returns [False] and the short file, if
    it could be written, is left in place; when the fetch is refused it
    returns [False] and nothing has changed; an interrupt during the fetch
    is not caught here. *)
Theorem download_luks_volume_outcomes (self : LUKSTokenSystem) (w : world)
  (r : result bool) (w' : world) :
  download_luks_volume self w = (r, w') ->
  (forall p, p <> luks_file self ->
             read_file p (sys w') = read_file p (sys w)) /\
  mounts (sys w') = mounts (sys w) /\ mapper (sys w') = mapper (sys w) /\
  dirs (sys w') = dirs (sys w) /\
  (r = Return true ->
   exists header body,
     net w = Served header body /\
     read_file (luks_file self) (sys w') = Some (received header body) /\
     (header = None -> received header body = body) /\
     (forall n, header = Some n -> 0 <= n ->
                content_length (received header body) = n)) /\
  (forall n body,
      net w = Served (Some n) body -> 0 <= n -> content_length body < n ->
      r = Return false /\
      (read_file (luks_file self) (sys w') = Some body \/ sys w' = sys w)) /\
  (forall reason,
      net w = Refused reason -> r = Return false /\ sys w' = sys w) /\
  (net w = Aborted -> r = Raise KeyboardInterrupt).
Proof.
  intros H. apply download_luks_volume_spec in H.
  destruct H as (_ & _ & H).
  assert (W : forall body,
             sys w' = write_file (luks_file self) body (sys w) ->
             (forall p, p <> luks_file self ->
                        read_file p (sys w') = read_file p (sys w)) /\
             mounts (sys w') = mounts (sys w) /\
             mapper (sys w') = mapper (sys w) /\
             dirs (sys w') = dirs (sys w) /\
             read_file (luks_file self) (sys w') = Some body).
  { intros body ->.
    destruct (write_file_rest (luks_file self) body (sys w)) as (A & B & C).
    split; [|split; [exact A|split; [exact B|split; [exact C|]]]].
    - intros p N. now apply read_file_write_file_other.
    - apply read_file_write_file. }
  destruct r as [[|]|e].
  - destruct H as (header & body & N & S & C).
    destruct (W _ S) as (F & A & B & D & I).
    repeat (split; [assumption|]). split; [|split; [|split]].
    + intros _. exists header, body.
      repeat (split; [assumption|]). split; [|exact C]. now intros ->.
    + intros n b Hn Pos Short. exfalso. rewrite N in Hn.
      injection Hn as -> ->. specialize (C n eq_refl Pos).
      destruct (received_cases (Some n) b) as [(Eq & _)|(k & K & Hk & _)].
      * rewrite Eq in C. lia.
      * injection K as <-. lia.
    + intros reason Hn. congruence.
    + intros Hn. congruence.
  - assert (G : (forall p, p <> luks_file self ->
                           read_file p (sys w') = read_file p (sys w)) /\
                mounts (sys w') = mounts (sys w) /\
                mapper (sys w') = mapper (sys w) /\
                dirs (sys w') = dirs (sys w)).
    { destruct H as [(S & N)|(n & body & N & L & S)].
      - rewrite S. auto.
      - destruct (W body S) as (F & A & B & D & I). auto. }
    destruct G as (F & A & B & D).
    repeat (split; [assumption|]). split; [discriminate|].
    split; [|split].
    + intros n b Hn Pos Short. split; [reflexivity|].
      destruct H as [(S & _)|(k & body & N & L & S)]; [now right|].
      left. rewrite N in Hn. injection Hn as -> ->.
      now destruct (W b S) as (_ & _ & _ & _ & I).
    + intros reason Hn. split; [reflexivity|].
      destruct H as [(S & _)|(k & body & N & _)]; [exact S|congruence].
    + intros Hn. destruct H as [(_ & N)|(k & body & N & _)]; congruence.
  - destruct H as (-> & N & S). rewrite S.
    repeat (split; [reflexivity|]). split; [discriminate|].
    split; [|split]; intros; congruence.
Qed.

(** A server that announces 100 bytes and sends the whole image: the
    client stops at 100, and the function returns [True]. *)
Lemma download_luks_volume_outcomes_witness :
  download_luks_volume init cut_short_w1 = (Return true, cut_short_w2) /\
  read_file (luks_file init) (sys cut_short_w2)
  = Some (Partial 100 token_image) /\
  content_length (Partial 100 token_image) = 100 /\
  mounts (sys cut_short_w2) = mounts (sys cut_short_w1).
Proof.
  assert (E : download_luks_volume init cut_short_w1
              = (Return true, cut_short_w2)) by (vm_compute; reflexivity).
  split; [exact E|]. split; [reflexivity|]. split; [reflexivity|].
  exact (proj1 (proj2
    (download_luks_volume_outcomes init cut_short_w1 (Return true)
       cut_short_w2 E))).
Defined.

(** ** The two prompt loops, round by round *)

Lemma while_true_mono {A} (body : Py (option A)) :
  forall n w r, while_true n body w = Some r ->
  forall n', (n <= n')%nat -> while_true n' body w = Some r.
Proof.
  induction n as [|n IH]; intros w r H n' L; [discriminate|].
  destruct n' as [|n']; [lia|]. cbn in *.
  destruct (body w) as [[[v|]|e] w1]; try exact H.
  apply IH; [exact H|lia].
Qed.

Lemma loop_done {A} (body : Py (option A)) (w : world) (v : A) (w1 : world) :
  body w = (Return (Some v), w1) -> loop body w = (Return v, w1).
Proof. intros E. unfold loop. cbn. now rewrite E. Qed.

Lemma loop_raise {A} (body : Py (option A)) (w : world) (e : exn)
  (w1 : world) :
  body w = (Raise e, w1) -> loop body w = (Raise e, w1).
Proof. intros E. unfold loop. cbn. now rewrite E. Qed.

Lemma loop_again {A} (body : Py (option A)) (w w1 : world) :
  (forall v, exists r,
      while_true (S (List.length (tty v))) body v = Some r) ->
  body w = (Return None, w1) ->
  (List.length (tty w1) < List.length (tty w))%nat ->
  loop body w = loop body w1.
Proof.
  intros T E L. unfold loop.
  destruct (T w1) as (r1 & E1). rewrite E1.
  cbn [while_true]. rewrite E.
  rewrite (while_true_mono body _ _ _ E1); [reflexivity|lia].
Qed.

Lemma get_timer_selection_round_line (w : world) (l : string)
  (rest : list key) :
  tty w = Line l :: rest ->
  get_timer_selection_round w
  = match dict_get (strip l) timer_map with
    | Some (seconds, description) =>
        (Return (Some seconds),
         set_out (out w ++ [Ask timer_prompt;
                            Printed ("⏱️ Selected: " +++ description)])
           (set_tty rest w))
    | None =>
        (Return None, set_out (out w ++ timer_retry) (set_tty rest w))
    end.
Proof.
  intros T. unfold get_timer_selection_round, try_except.
  unfold bind at 1. fold timer_prompt. rewrite input_spec, T.
  cbv beta iota.
  destruct (dict_get (strip l) timer_map) as [[seconds description]|];
    rewrite bind_print; unfold ret, asked, timer_retry, set_out, set_tty;
    cbn [out sys euid tty interactive net faults detached];
    rewrite <- app_assoc; reflexivity.
Qed.

Lemma timer_loop_skips (bads : list string) :
  forall (w : world) (tail : list key),
    Forall (fun b => dict_get (strip b) timer_map = None) bads ->
    tty w = map Line bads ++ tail ->
    loop get_timer_selection_round w
    = loop get_timer_selection_round
        (set_out (out w ++ flat_map (fun _ => timer_retry) bads)
           (set_tty tail w)).
Proof.
  induction bads as [|b bads IH]; intros w tail F T.
  - cbn in *. rewrite app_nil_r. destruct w; cbn in *. now subst.
  - cbn [map app] in T. inversion F as [|? ? Fb Fs]; subst.
    pose proof (get_timer_selection_round_line w b _ T) as E.
    rewrite Fb in E.
    rewrite (loop_again _ _ _ get_timer_selection_terminates E)
      by (cbn; rewrite T; cbn; lia).
    rewrite (IH _ tail Fs) by reflexivity.
    cbn [flat_map]. unfold set_out, set_tty.
    cbn [out sys euid tty interactive net faults detached].
    now rewrite <- app_assoc.
Qed.

(** X7. [get_timer_selection] reads the terminal up to the first line that,
    stripped, is one of the keys 1, 2, 3, answering every line before it
    with "Invalid choice" and a new prompt; it returns the seconds of that
    key and leaves the rest of the input unread.  Ctrl-C at the prompt is
    answered with the cancellation line and [sys.exit(1)]; the end of the
    input is not handled, and the [EOFError] of [input()] leaves the
    function (it has no message at a terminal, and the message "EOF when
    reading a line" when the input is read as a file).  Nothing but the
    terminal and the output changes.  White space is what [str.strip()]
    takes for it: a line made of the key and a no-break space is the
    key. *)
Theorem get_timer_selection_reads_to_the_first_valid_choice
  (self : LUKSTokenSystem) (w : world) (bads : list string) :
  Forall (fun b => dict_get (strip b) timer_map = None) bads ->
  let shown := out w ++ timer_menu ++ flat_map (fun _ => timer_retry) bads in
  (forall good seconds description rest,
      tty w = map Line bads ++ Line good :: rest ->
      dict_get (strip good) timer_map = Some (seconds, description) ->
      get_timer_selection self w
      = (Return seconds,
         set_out (shown ++ [Ask timer_prompt;
                            Printed ("⏱️ Selected: " +++ description)])
           (set_tty rest w))) /\
  (forall rest,
      tty w = map Line bads ++ CtrlC :: rest ->
      get_timer_selection self w
      = (Raise (SystemExit 1),
         set_out (shown ++ [Ask timer_prompt; cancelled]) (set_tty rest w))) /\
  (tty w = map Line bads ->
   get_timer_selection self w
   = (Raise (EOFError (if interactive w
                       then "" else "EOF when reading a line")),
      set_out (shown ++ [Ask timer_prompt]) (set_tty [] w))).
Proof.
  intros F shown.
  assert (G : forall tail,
             tty w = map Line bads ++ tail ->
             get_timer_selection self w
             = loop get_timer_selection_round
                 (set_out shown (set_tty tail w))).
  { intros tail T. unfold get_timer_selection. rewrite !bind_print.
    rewrite (timer_loop_skips bads _ tail F) by exact T.
    subst shown. unfold timer_menu, set_out, set_tty.
    cbn [out sys euid tty interactive net faults detached].
    now rewrite <- !app_assoc. }
  split; [|split].
  - intros good seconds description rest T D. rewrite (G _ T).
    erewrite loop_done;
      [|rewrite (get_timer_selection_round_line _ good rest) by reflexivity;
        rewrite D; reflexivity].
    reflexivity.
  - intros rest T. rewrite (G _ T).
    erewrite loop_raise; [reflexivity|].
    unfold get_timer_selection_round, try_except, bind at 1.
    fold timer_prompt. rewrite input_spec. cbn [tty set_out set_tty].
    rewrite bind_print. unfold sys_exit, raise, cancelled, asked, set_out,
      set_tty. cbn [out sys euid tty interactive net faults detached].
    now rewrite <- !app_assoc.
  - intros T. rewrite (G []) by now rewrite app_nil_r.
    erewrite loop_raise; [reflexivity|].
    unfold get_timer_selection_round, try_except, bind at 1.
    fold timer_prompt. rewrite input_spec. cbn [tty set_out set_tty].
    unfold asked, input_eof, set_out, set_tty.
    cbn [out sys euid tty interactive net faults detached]. reflexivity.
Qed.

Lemma get_timer_selection_reads_to_the_first_valid_choice_witness :
  let no_break_space := String (ascii_of_nat 194) (String (ascii_of_nat 160) "") in
  let w := set_tty [Line "4"; Line "one"; Line (" 2" +++ no_break_space);
                    Line "3"] sample_w2 in
  exists w',
    get_timer_selection init w = (Return 300, w') /\
    tty w' = [Line "3"] /\ sys w' = sys w.
Proof.
  cbv zeta.
  pose proof (get_timer_selection_reads_to_the_first_valid_choice init
                (set_tty [Line "4"; Line "one";
                          Line (" 2" +++ String (ascii_of_nat 194)
                                           (String (ascii_of_nat 160) ""));
                          Line "3"]
                   sample_w2)
                ["4"; "one"]
                ltac:(repeat constructor)) as H.
  cbv zeta in H. destruct H as (H & _).
  eexists. split; [|split].
  - exact (H _ 300 "5 minutes" [Line "3"] eq_refl eq_refl).
  - reflexivity.
  - reflexivity.
Defined.

(** ** Writing and launching the unit *)

Lemma create_destruct_script_spec (self : LUKSTokenSystem)
  (timer_seconds : Z) (w : world) :
  let p := ramdisk_path self +++ "/dd-destruct.sh" in
  exists r w',
    create_destruct_script self timer_seconds w = (Return r, w') /\
    tty w' = tty w /\ detached w' = detached w /\
    match r with
    | Some q =>
        q = p /\
        sys w' = write_file p (Script (script_content self timer_seconds))
                   (sys w) /\
        out w' = out w ++
                 [Written p;
                  Printed ("🔥 Self-destruct script created at " +++ p)]
    | None =>
        sys w' = sys w /\
        exists msg,
          out w' = out w ++
                   [Printed ("❌ Failed to create destruct script: " +++ msg)]
    end.
Proof.
  intros p. unfold create_destruct_script, try_except. fold p.
  unfold bind at 1.
  destruct (open_write p _ w) as [[[]|e] w1] eqn:E1;
    destruct (open_write_spec _ _ _ _ _ E1) as (T1 & D1 & _ & R1).
  - destruct R1 as (S1 & O1).
    unfold bind at 1. unfold os_chmod.
    rewrite S1, is_file_write_file. rewrite bind_print. unfold ret.
    eexists _, _. split; [reflexivity|].
    cbn [tty detached sys out set_out].
    split; [exact T1|]. split; [exact D1|]. split; [reflexivity|].
    split; [exact S1|]. rewrite O1, <- app_assoc. reflexivity.
  - destruct R1 as (S1 & O1 & msg & ->). cbn [is_Exception].
    rewrite bind_print. unfold ret. eexists _, _. split; [reflexivity|].
    cbn [tty detached sys out set_out].
    split; [exact T1|]. split; [exact D1|]. split; [exact S1|].
    exists msg. now rewrite O1.
Qed.

(** X8. [create_destruct_script] never raises.  It returns the path
    [<ramdisk_path>/dd-destruct.sh] exactly when it wrote the file, which
    then holds the script for the given timer and the paths of the session;
    every other path reads as before.  When the file cannot be written it
    prints the failure and returns [None], and the machine is as it was. *)
Theorem create_destruct_script_outcomes (self : LUKSTokenSystem)
  (timer_seconds : Z) (w : world) :
  let p := ramdisk_path self +++ "/dd-destruct.sh" in
  exists r w',
    create_destruct_script self timer_seconds w = (Return r, w') /\
    mounts (sys w') = mounts (sys w) /\ mapper (sys w') = mapper (sys w) /\
    dirs (sys w') = dirs (sys w) /\
    (forall q, q <> p -> read_file q (sys w') = read_file q (sys w)) /\
    match r with
    | Some q =>
        q = p /\
        read_file p (sys w')
        = Some (Script {| script_timer_seconds := timer_seconds;
                          script_failsafe_timer := timer_seconds + 180;
                          RAMDISK := ramdisk_path self;
                          LUKS_FILE := luks_file self;
                          MOUNT_POINT := mount_point self |}) /\
        In (Written p) (out w')
    | None =>
        sys w' = sys w /\
        ~ In (Written p) (skipn (List.length (out w)) (out w'))
    end.
Proof.
  intros p.
  destruct (create_destruct_script_spec self timer_seconds w)
    as (r & w' & E & _ & _ & R).
  fold p in R. exists r, w'. split; [exact E|].
  destruct r as [q|].
  - destruct R as (-> & S & O). rewrite S.
    destruct (write_file_rest p (Script (script_content self timer_seconds))
                (sys w)) as (A & B & C).
    repeat (split; [assumption|]).
    split; [intros q N; now apply read_file_write_file_other|].
    split; [reflexivity|]. split; [apply read_file_write_file|].
    rewrite O. apply in_or_app. right. now left.
  - destruct R as (S & msg & O). rewrite S.
    repeat (split; [reflexivity|]).
    rewrite O, skipn_app, skipn_all, Nat.sub_diag. cbn.
    intros [X|[]]. discriminate.
Qed.

Lemma start_destruct_timer_spec (self : LUKSTokenSystem)
  (script_path : string) (w : world) :
  exists b w',
    start_destruct_timer self script_path w = (Return b, w') /\
    sys w' = sys w /\ tty w' = tty w /\
    detached w' = detached w ++
                  (if b
                   then match read_file script_path (sys w) with
                        | Some (Script u) => [u]
                        | _ => []
                        end
                   else []).
Proof.
  unfold start_destruct_timer, try_except, bind at 1.
  unfold Popen_shell. unfold bind at 1, fault.
  destruct (pop_fault (faults w)) as [[|] fs]; cbv beta iota.
  - unfold raise. cbn [is_Exception]. rewrite bind_print. unfold ret.
    eexists _, _. split; [reflexivity|]. cbn. now rewrite app_nil_r.
  - unfold bind at 1, emit. unfold nohup_bash.
    cbn [sys set_out set_faults].
    destruct (read_file script_path (sys w)) as [[bytes|u|len k inner|len|len whole]|];
      rewrite bind_print; unfold ret; eexists _, _;
      (split; [reflexivity|]); cbn; now rewrite ?app_nil_r.
Qed.

(** X9. [start_destruct_timer] never raises and changes nothing on the
    machine.  It returns [True] whenever the shell could be started: the
    unit that then runs in the background is the script the file at
    [script_path] holds at that moment, and none when the file holds no
    script or is not there, which the function does not notice.  It
    returns [False] only when [Popen] itself fails, and then nothing was
    started. *)
Theorem start_destruct_timer_outcomes (self : LUKSTokenSystem)
  (script_path : string) (w : world) :
  exists b w',
    start_destruct_timer self script_path w = (Return b, w') /\
    sys w' = sys w /\
    (b = false -> detached w' = detached w) /\
    (b = true ->
     (forall u, read_file script_path (sys w) = Some (Script u) ->
                detached w' = detached w ++ [u]) /\
     ((forall u, read_file script_path (sys w) <> Some (Script u)) ->
      detached w' = detached w)).
Proof.
  destruct (start_destruct_timer_spec self script_path w)
    as (b & w' & E & S & _ & D).
  exists b, w'. split; [exact E|]. split; [exact S|]. split.
  - intros ->. now rewrite app_nil_r in D.
  - intros ->. split.
    + intros u R. now rewrite R in D.
    + intros N.
      destruct (read_file script_path (sys w)) as [[bytes|u|len k inner|len|len whole]|];
        rewrite ?app_nil_r in D; try exact D.
      now elim (N u).
Qed.

(** ** The unlock loop, attempt by attempt *)

Lemma execute_cryptsetup_open (img name pass : string) (m : machine) :
  execute ["cryptsetup"; "open"; img; name] (Some pass) m
  = sys_cryptsetup_open img name pass m.
Proof. reflexivity. Qed.

Lemma execute_mount_dev (dev p : string) (m : machine) :
  execute ["mount"; dev; p] None m
  = ((fst (sys_mount_dev dev p m), ""), snd (sys_mount_dev dev p m)).
Proof. reflexivity. Qed.

Lemma sys_mount_dev_failed (dev p : string) (m : machine) :
  fst (sys_mount_dev dev p m) <> 0 -> snd (sys_mount_dev dev p m) = m.
Proof.
  unfold sys_mount_dev. destruct (find _ (mapper m)); [|reflexivity].
  destruct (is_dir p m); [|reflexivity]. cbn. intros H. now elim H.
Qed.

(** [subprocess.run(argv, check=True)] with what the program did. *)
Lemma subprocess_run_check_full (argv : list string) (w : world) :
  exists rc m' fs,
    subprocess_run argv true w
    = ((if (rc =? 0)%Z then Return rc
        else Raise (CalledProcessError argv rc)),
       set_out (out w ++ [Exec argv None rc]) (set_sys m' (set_faults fs w)))
    /\ ((rc = 1 /\ m' = sys w) \/
        exists err, (rc, err, m') = execute argv None (sys w)).
Proof.
  unfold subprocess_run, bind.
  destruct (spawn_spec argv None w) as (rc & err & m' & fs & -> & _ & H).
  exists rc, m', fs. cbn [fst andb]. split.
  - destruct (rc =? 0)%Z; reflexivity.
  - destruct H as [H|H]; [now left|right; now exists err].
Qed.

Lemma mount_luks_volume_attempt_ends (self : LUKSTokenSystem) (attempt : Z)
  (w : world) (r : result (option bool)) (w' : world) :
  mount_luks_volume_attempt self attempt w = (r, w') ->
  attempt_ends self attempt w r w'.
Proof.
  unfold mount_luks_volume_attempt, try_except.
  unfold bind at 1. fold (attempt_prompt attempt).
  rewrite getpass_spec. destruct (tty w) as [|[p|] rest] eqn:T.
  - cbv beta iota. intros H. inversion H; subst. now constructor.
  - cbv beta iota. fold (cryptsetup_argv self). fold (mount_argv self).
    unfold bind at 1. unfold Popen_communicate.
    destruct (spawn_spec (cryptsetup_argv self) (Some p)
                (set_tty rest (asked_secret (attempt_prompt attempt) w)))
      as (rc & err & m1 & fs & -> & _ & Hrc).
    cbn [sys set_tty asked_secret set_out] in Hrc.
    unfold cryptsetup_argv in Hrc at 1.
    rewrite execute_cryptsetup_open in Hrc.
    cbv beta iota.
    destruct (rc =? 0)%Z eqn:Z.
    + apply Z.eqb_eq in Z. subst rc.
      destruct Hrc as [[? _]|Hopen]; [discriminate|]. symmetry in Hopen.
      rewrite bind_print. unfold bind at 1.
      match goal with |- context [subprocess_run ?a true ?x] =>
        destruct (subprocess_run_check_full a x)
          as (rc2 & m2 & fs2 & -> & Hrc2) end.
      cbn [sys set_out set_sys set_faults set_tty asked_secret] in Hrc2.
      unfold mount_argv in Hrc2 at 1. rewrite execute_mount_dev in Hrc2.
      destruct (rc2 =? 0)%Z eqn:Z2; cbv beta iota.
      * apply Z.eqb_eq in Z2. subst rc2.
        destruct Hrc2 as [[? _]|(e2 & Hm)]; [discriminate|].
        rewrite bind_print. unfold ret. intros H. inversion H; subst.
        match goal with |- attempt_ends _ _ _ _ ?x =>
          replace x with
            (set_out
               (out w ++
                [AskSecret (attempt_prompt attempt);
                 Exec (cryptsetup_argv self) (Some p) 0;
                 Printed "✅ LUKS device opened successfully";
                 Exec (mount_argv self) None 0;
                 Printed ("✅ LUKS volume mounted at " +++ mount_point self)])
               (set_sys m2 (set_faults fs2 (set_tty rest w))))
        end.
        -- apply (ends_mounted self attempt w p rest err m1 m2 fs2 T Hopen).
           rewrite (surjective_pairing (sys_mount_dev _ _ m1)).
           injection Hm as <- _ <-. reflexivity.
        -- clear. world_eq w.
      * apply Z.eqb_neq in Z2.
        rewrite bind_print. unfold ret. intros H. inversion H; subst.
        assert (m2 = m1) as ->.
        { destruct Hrc2 as [[_ ?]|(e2 & Hm)]; [assumption|].
          injection Hm as A _ B. subst m2.
          apply sys_mount_dev_failed. congruence. }
        match goal with |- attempt_ends _ _ _ _ ?x =>
          replace x with
            (set_out
               (out w ++
                [AskSecret (attempt_prompt attempt);
                 Exec (cryptsetup_argv self) (Some p) 0;
                 Printed "✅ LUKS device opened successfully";
                 Exec (mount_argv self) None rc2;
                 Printed ("❌ Mount failed: "
                          +++ str_exn
                                (CalledProcessError (mount_argv self) rc2))])
               (set_sys m1 (set_faults fs2 (set_tty rest w))))
        end.
        -- now apply (ends_mount_failed self attempt w p rest err m1 rc2 fs2).
        -- clear. world_eq w.
    + apply Z.eqb_neq in Z.
      assert (m1 = sys w) as ->.
      { destruct Hrc as [[_ ?]|Hopen]; [assumption|].
        pose proof (cryptsetup_open_rejected (luks_file self) "luks_token" p
                      (sys w)) as U.
        rewrite <- Hopen in U. cbn in U. now apply U. }
      rewrite bind_print.
      pose proof (ends_rejected self attempt w p rest rc err fs T Z) as E.
      destruct (attempt =? max_attempts - 1)%Z.
      * rewrite bind_print. unfold ret. intros H. inversion H; subst.
        match goal with |- attempt_ends _ _ _ _ ?x =>
          match type of E with attempt_ends _ _ _ _ ?y =>
            replace x with y; [exact E|] end end.
        clear. world_eq w.
      * unfold ret. intros H. inversion H; subst.
        match goal with |- attempt_ends _ _ _ _ ?x =>
          match type of E with attempt_ends _ _ _ _ ?y =>
            replace x with y; [exact E|] end end.
        clear. world_eq w.
  - cbv beta iota. rewrite bind_print. unfold ret.
    intros H. inversion H; subst.
    match goal with |- attempt_ends _ _ _ _ ?x =>
      replace x with
        (set_out (out w ++ [AskSecret (attempt_prompt attempt); cancelled])
           (set_tty rest w))
    end.
    + now constructor.
    + clear. unfold cancelled. world_eq w.
Qed.

Lemma attempt_goes_on (self : LUKSTokenSystem) (attempt : Z) (w w1 : world) :
  attempt_ends self attempt w (Return None) w1 ->
  attempt <> max_attempts - 1 /\
  exists p, tty w = Line p :: tty w1 /\ sys w1 = sys w /\
            detached w1 = detached w.
Proof.
  intros H. remember (Return None) as r eqn:R.
  destruct H as [T|rest T|p rest rc err fs T N|p rest err m1 rc fs T O N
                |p rest err m1 m2 fs T O M]; try discriminate.
  destruct (attempt =? max_attempts - 1)%Z eqn:E; [discriminate|].
  apply Z.eqb_neq in E. split; [exact E|]. exists p. cbn. auto.
Qed.

(** [mount_luks_volume] is [os.makedirs] and then at most three rounds:
    the rounds that go on to the next leave the machine as it is and each
    read one line; the last one decides. *)
Lemma mount_luks_volume_cases (self : LUKSTokenSystem) (w : world)
  (r : result (option bool)) (w' : world) :
  mount_luks_volume self w = (r, w') ->
  (sys w' = sys w /\ tty w' = tty w /\ detached w' = detached w /\
   exists msg, r = Raise (OSError msg)) \/
  exists w0 wrongs wn,
    mounts (sys w0) = mounts (sys w) /\ mapper (sys w0) = mapper (sys w) /\
    files (sys w0) = files (sys w) /\
    is_dir (mount_point self) (sys w0) = true /\
    (forall d, d <> mount_point self -> is_dir d (sys w0) = is_dir d (sys w)) /\
    (List.length wrongs <= 2)%nat /\
    tty w = map Line wrongs ++ tty wn /\
    sys wn = sys w0 /\ detached wn = detached w /\
    attempt_ends self (Z.of_nat (List.length wrongs)) wn r w' /\
    r <> Return None.
Proof.
  unfold mount_luks_volume. rewrite bind_print. unfold bind at 1.
  match goal with |- context [os_makedirs ?p ?v] =>
    pose proof (os_makedirs_spec p v) as M;
    destruct (os_makedirs p v) as [[[]|e] w0] end;
    specialize (M _ _ eq_refl);
    destruct M as (O0 & T0 & D0 & M0 & Ma0 & F0 & R0);
    cbn [out tty detached sys set_out] in O0, T0, D0, M0, Ma0, F0, R0.
  2:{ destruct R0 as (S0 & msg & ->). intros H. inversion H; subst.
      left. eauto 10. }
  intros H. destruct R0 as (Dir & Others). right.
  assert (Done : forall wrongs wn,
             (List.length wrongs <= 2)%nat ->
             tty w = map Line wrongs ++ tty wn ->
             sys wn = sys w0 -> detached wn = detached w ->
             attempt_ends self (Z.of_nat (List.length wrongs)) wn r w' ->
             r <> Return None ->
             exists w0 wrongs wn,
               mounts (sys w0) = mounts (sys w) /\
               mapper (sys w0) = mapper (sys w) /\
               files (sys w0) = files (sys w) /\
               is_dir (mount_point self) (sys w0) = true /\
               (forall d, d <> mount_point self ->
                          is_dir d (sys w0) = is_dir d (sys w)) /\
               (List.length wrongs <= 2)%nat /\
               tty w = map Line wrongs ++ tty wn /\
               sys wn = sys w0 /\ detached wn = detached w /\
               attempt_ends self (Z.of_nat (List.length wrongs)) wn r w' /\
               r <> Return None).
  { intros wrongs wn. exists w0, wrongs, wn. auto 12. }
  change (range max_attempts) with [0; 1; 2] in H. cbn [for_return] in H.
  (* first round *)
  unfold bind at 1 in H.
  destruct (mount_luks_volume_attempt self 0 w0) as [[[v|]|e] w1] eqn:E1;
    apply mount_luks_volume_attempt_ends in E1.
  1,3: inversion H; subst; apply (Done [] w0);
       [cbn; lia|cbn; congruence|reflexivity|exact D0|exact E1|discriminate].
  destruct (attempt_goes_on _ _ _ _ E1) as (_ & p1 & T1 & S1 & D1).
  (* second round *)
  unfold bind at 1 in H.
  destruct (mount_luks_volume_attempt self 1 w1) as [[[v|]|e] w2] eqn:E2;
    apply mount_luks_volume_attempt_ends in E2.
  1,3: inversion H; subst; apply (Done [p1] w1);
       [cbn; lia|cbn; congruence|exact S1|congruence|exact E2|discriminate].
  destruct (attempt_goes_on _ _ _ _ E2) as (_ & p2 & T2 & S2 & D2).
  (* third round *)
  unfold bind at 1 in H.
  destruct (mount_luks_volume_attempt self 2 w2) as [[[v|]|e] w3] eqn:E3;
    apply mount_luks_volume_attempt_ends in E3.
  2:{ destruct (attempt_goes_on _ _ _ _ E3) as (N & _). now elim N. }
  all: inversion H; subst; apply (Done [p1; p2] w2);
    [cbn; lia|cbn; congruence|congruence|congruence|exact E3|discriminate].
Qed.

Section Text.

Lemma append_assoc (a b c : string) : (a +++ b) +++ c = a +++ b +++ c.
Proof. induction a as [|x a IH]; cbn; [reflexivity|now rewrite IH]. Qed.

Lemma prefix_append (a b : string) : String.prefix a (a +++ b) = true.
Proof.
  induction a as [|x a IH]; cbn; [now destruct b|].
  destruct (Ascii.ascii_dec x x) as [_|N]; [exact IH|now elim N].
Qed.

Lemma eqb_append_left (a b c : string) : (a +++ b =? a +++ c) = (b =? c).
Proof.
  induction a as [|x a IH]; cbn; [reflexivity|].
  now rewrite Ascii.eqb_refl.
Qed.

Lemma under_child (d name : string) : under d (d +++ "/" +++ name) = true.
Proof. unfold under. rewrite <- append_assoc. apply prefix_append. Qed.

End Text.

Lemma find_app_none {A} (f : A -> bool) (l l' : list A) :
  (forall x, In x l -> f x = false) -> find f (l ++ l') = find f l'.
Proof.
  intros H. induction l as [|a l IH]; [reflexivity|]. cbn.
  rewrite (H a (or_introl eq_refl)). apply IH. intros x Hx. apply H. now right.
Qed.

Lemma last_app_cons {A} (l l' : list A) (x d : A) :
  last (l ++ x :: l') d = last (x :: l') d.
Proof.
  induction l as [|a l IH]; [reflexivity|].
  cbn [app]. rewrite <- IH. cbn [last].
  destruct (l ++ x :: l') eqn:E; [now destruct l|reflexivity].
Qed.

Lemma cryptsetup_open_ok (img name pass err : string) (m m1 : machine) :
  sys_cryptsetup_open img name pass m = ((0, err), m1) ->
  is_mapped name m = false /\
  exists len inner,
    read_file img m = Some (Luks len pass inner) /\
    m1 = set_mapper ((name, inner) :: mapper m) m.
Proof.
  unfold sys_cryptsetup_open. destruct (is_mapped name m); [discriminate|].
  destruct (read_file img m) as [[bytes|u|len k inner|len|len whole]|];
    try discriminate.
  destruct (String.eqb_spec pass k) as [->|N]; [|discriminate].
  intros H. inversion H; subst. eauto.
Qed.

Lemma mount_dev_ok (name : string) (inner : list (string * string))
  (p : string) (m m2 : machine) :
  sys_mount_dev (mapper_path name) p
    (set_mapper ((name, inner) :: mapper m) m) = (0, m2) ->
  is_dir p m = true /\
  m2 = set_mounts ({| target := p; source := mapper_path name;
                      options := "" |} :: mounts m)
         (set_files
            (files (drop_under p m) ++
             map (fun f => (p +++ "/" +++ fst f, Data (snd f))) inner)
            (cover_under p (set_mapper ((name, inner) :: mapper m) m))).
Proof.
  unfold sys_mount_dev. cbn [mapper set_mapper find fst].
  rewrite String.eqb_refl.
  change (is_dir p (set_mapper ((name, inner) :: mapper m) m))
    with (is_dir p m).
  destruct (is_dir p m); [|discriminate].
  intros H. inversion H; subst. split; reflexivity.
Qed.

Lemma read_mounted_file (p : string) (inner : list (string * string))
  (fs : list (string * content)) (name text : string) :
  (forall f, In f fs -> under p (fst f) = false) ->
  dict_get name inner = Some text ->
  option_map snd
    (find (fun f => fst f =? p +++ "/" +++ name)
       (fs ++ map (fun f => (p +++ "/" +++ fst f, Data (snd f))) inner))
  = Some (Data text).
Proof.
  intros U D. rewrite find_app_none.
  - unfold dict_get in D.
    induction inner as [|[a b] inner IH]; [discriminate|].
    cbn [map find fst snd option_map] in *. rewrite !eqb_append_left.
    destruct (a =? name); [cbn in *; congruence|].
    now apply IH.
  - intros f Hf. apply String.eqb_neq. intros E.
    pose proof (U f Hf) as X. rewrite E, under_child in X. discriminate.
Qed.

(** What a successful [mount_luks_volume] found and left. *)
Lemma mount_luks_volume_mounted (self : LUKSTokenSystem) (w w' : world) :
  mount_luks_volume self w = (Return (Some true), w') ->
  detached w' = detached w /\
  exists len pass inner wrongs,
    read_file (luks_file self) (sys w) = Some (Luks len pass inner) /\
    tty w = map Line wrongs ++ Line pass :: tty w' /\
    (List.length wrongs <= 2)%nat /\
    is_mapped "luks_token" (sys w) = false /\
    mapper (sys w') = ("luks_token", inner) :: mapper (sys w) /\
    mounts (sys w')
    = {| target := mount_point self; source := "/dev/mapper/luks_token";
         options := "" |} :: mounts (sys w) /\
    files (sys w')
    = filter (fun f => negb (under (mount_point self) (fst f)))
        (files (sys w)) ++
      map (fun f => (mount_point self +++ "/" +++ fst f, Data (snd f))) inner.
Proof.
  intros H. apply mount_luks_volume_cases in H.
  destruct H as [(_ & _ & _ & msg & X)|H]; [discriminate|].
  destruct H as (w0 & wrongs & wn & M0 & Ma0 & F0 & Dir & _ & Len & T & S & D
                 & E & _).
  remember (Return (Some true)) as r eqn:R.
  destruct E as [Te|rest Te|p rest rc err fs Te N|p rest err m1 rc fs Te O N
                |p rest err m1 m2 fs Te O M]; try discriminate.
  { destruct (_ =? _)%Z; discriminate. }
  clear R. rewrite S in O.
  apply cryptsetup_open_ok in O.
  destruct O as (Nm & len & inner & Rd & ->).
  change "/dev/mapper/luks_token" with (mapper_path "luks_token") in M.
  apply mount_dev_ok in M. destruct M as (_ & ->).
  cbn [detached sys tty set_out set_sys set_faults set_tty].
  split; [exact D|].
  exists len, p, inner, wrongs.
  split; [|split; [|split; [exact Len|split; [|split; [|split]]]]].
  - unfold read_file in *. now rewrite <- F0.
  - now rewrite T, Te.
  - unfold is_mapped in *. now rewrite <- Ma0.
  - cbn. now rewrite Ma0.
  - cbn. now rewrite M0.
  - cbn. now rewrite F0.
Qed.

(** X10. [mount_luks_volume] returns [True] only when one of the lines the
    operator typed, after at most two others, is the passphrase of the
    container the image file holds; that line is the last one read.  The
    device is then mapped as [luks_token], mounted at the mount point on top
    of the mount table, and every file of the volume reads below the mount
    point with its content. *)
Theorem unlock_needs_the_passphrase (self : LUKSTokenSystem) (w w' : world) :
  mount_luks_volume self w = (Return (Some true), w') ->
  exists len pass inner wrongs,
    read_file (luks_file self) (sys w) = Some (Luks len pass inner) /\
    tty w = map Line wrongs ++ Line pass :: tty w' /\
    (List.length wrongs <= 2)%nat /\
    is_mapped "luks_token" (sys w) = false /\
    mapper (sys w') = ("luks_token", inner) :: mapper (sys w) /\
    mounts (sys w')
    = {| target := mount_point self; source := "/dev/mapper/luks_token";
         options := "" |} :: mounts (sys w) /\
    forall name text,
      dict_get name inner = Some text ->
      read_file (mount_point self +++ "/" +++ name) (sys w')
      = Some (Data text).
Proof.
  intros H. apply mount_luks_volume_mounted in H.
  destruct H as (_ & len & pass & inner & wrongs & Rd & T & Len & Nm & Ma & M
                 & F).
  exists len, pass, inner, wrongs.
  repeat (split; [assumption|]).
  intros name text D. unfold read_file. rewrite F.
  apply read_mounted_file; [|exact D].
  intros f Hf. apply filter_In in Hf. destruct Hf as (_ & Hf).
  now apply negb_true_iff in Hf.
Qed.

Lemma unlock_needs_the_passphrase_witness :
  mount_luks_volume init sample_w4 = (Return (Some true), sample_w5) /\
  exists len pass inner wrongs,
    read_file (luks_file init) (sys sample_w4) = Some (Luks len pass inner) /\
    tty sample_w4 = map Line wrongs ++ Line pass :: tty sample_w5 /\
    (List.length wrongs <= 2)%nat /\
    is_mapped "luks_token" (sys sample_w4) = false /\
    mapper (sys sample_w5) = ("luks_token", inner) :: mapper (sys sample_w4) /\
    mounts (sys sample_w5)
    = {| target := mount_point init; source := "/dev/mapper/luks_token";
         options := "" |} :: mounts (sys sample_w4) /\
    forall name text,
      dict_get name inner = Some text ->
      read_file (mount_point init +++ "/" +++ name) (sys sample_w5)
      = Some (Data text).
Proof.
  assert (E : mount_luks_volume init sample_w4
              = (Return (Some true), sample_w5)) by (vm_compute; reflexivity).
  split; [exact E|].
  exact (unlock_needs_the_passphrase init sample_w4 sample_w5 E).
Defined.

(** ** The right passphrase *)

Lemma os_makedirs_undisturbed (path : string) (w : world) :
  faults w = [] -> is_file path (sys w) = false ->
  exists w0,
    os_makedirs path w = (Return tt, w0) /\
    faults w0 = [] /\ tty w0 = tty w /\
    mapper (sys w0) = mapper (sys w) /\ files (sys w0) = files (sys w) /\
    is_dir path (sys w0) = true.
Proof.
  intros F P. unfold os_makedirs, bind, fault. rewrite F. cbn [pop_fault].
  cbv beta iota. cbn [sys set_faults]. rewrite P.
  destruct (is_dir path (sys w)) eqn:D; eexists; (split; [reflexivity|]);
    cbn [faults tty sys mapper files set_faults set_sys set_dirs].
  - auto 10.
  - repeat (split; [reflexivity|]). unfold is_dir. cbn.
    rewrite existsb_app. cbn. rewrite String.eqb_refl. apply orb_true_r.
Qed.

Lemma attempt_wrong (self : LUKSTokenSystem) (attempt : Z) (w : world)
  (p : string) (rest : list key) (len : Z) (pass : string)
  (inner : list (string * string)) :
  faults w = [] -> tty w = Line p :: rest ->
  is_mapped "luks_token" (sys w) = false ->
  read_file (luks_file self) (sys w) = Some (Luks len pass inner) ->
  p <> pass -> attempt <> max_attempts - 1 ->
  exists w1,
    mount_luks_volume_attempt self attempt w = (Return None, w1) /\
    faults w1 = [] /\ tty w1 = rest /\ sys w1 = sys w.
Proof.
  intros F T Nm Rd Np Nk.
  apply String.eqb_neq in Np. apply Z.eqb_neq in Nk.
  unfold mount_luks_volume_attempt, try_except.
  unfold bind at 1. rewrite getpass_spec, T. cbv beta iota.
  unfold bind at 1. unfold Popen_communicate, spawn.
  unfold bind at 1. unfold fault.
  cbn [faults set_tty asked_secret set_out]. rewrite F. cbn [pop_fault].
  cbv beta iota. cbn [sys set_faults set_tty asked_secret set_out].
  rewrite execute_cryptsetup_open. unfold sys_cryptsetup_open.
  rewrite Nm, Rd, Np. cbv beta iota. cbn [fst snd Z.eqb].
  rewrite bind_print, Nk. unfold ret. eexists. split; [reflexivity|].
  cbn. auto.
Qed.

Lemma attempt_right (self : LUKSTokenSystem) (attempt : Z) (w : world)
  (rest : list key) (len : Z) (pass : string)
  (inner : list (string * string)) :
  faults w = [] -> tty w = Line pass :: rest ->
  is_mapped "luks_token" (sys w) = false ->
  read_file (luks_file self) (sys w) = Some (Luks len pass inner) ->
  is_dir (mount_point self) (sys w) = true ->
  exists w1,
    mount_luks_volume_attempt self attempt w = (Return (Some true), w1) /\
    tty w1 = rest /\ faults w1 = [].
Proof.
  intros F T Nm Rd Dir.
  unfold mount_luks_volume_attempt, try_except.
  unfold bind at 1. rewrite getpass_spec, T. cbv beta iota.
  unfold bind at 1. unfold Popen_communicate, spawn.
  unfold bind at 1. unfold fault.
  cbn [faults set_tty asked_secret set_out]. rewrite F. cbn [pop_fault].
  cbv beta iota. cbn [sys set_faults set_tty asked_secret set_out].
  rewrite execute_cryptsetup_open. unfold sys_cryptsetup_open.
  rewrite Nm, Rd, String.eqb_refl. cbv beta iota. cbn [fst snd Z.eqb].
  rewrite bind_print. unfold bind at 1. unfold subprocess_run.
  unfold bind at 1. unfold spawn. unfold bind at 1. unfold fault.
  cbn [faults set_out set_sys set_faults pop_fault]. cbv beta iota.
  cbn [sys set_faults set_out set_sys].
  rewrite execute_mount_dev.
  change "/dev/mapper/luks_token" with (mapper_path "luks_token").
  unfold sys_mount_dev. cbn [mapper set_mapper find fst].
  rewrite String.eqb_refl.
  change (is_dir (mount_point self)
            (set_mapper (("luks_token", inner) :: mapper (sys w)) (sys w)))
    with (is_dir (mount_point self) (sys w)).
  rewrite Dir. cbn [fst snd Z.eqb andb negb]. unfold ret at 1.
  rewrite bind_print. unfold ret. eexists. split; [reflexivity|].
  cbn. auto.
Qed.

(** X11. When nothing fails from outside, the mount point is not a regular
    file, no device is mapped as [luks_token] and the image file holds a
    container, the passphrase typed after at most two other lines unlocks
    it: [mount_luks_volume] returns [True] and has read exactly these
    lines. *)
Theorem right_passphrase_within_three_attempts_unlocks
  (self : LUKSTokenSystem) (w : world) (len : Z) (pass : string)
  (inner : list (string * string)) (wrongs : list string)
  (rest : list key) :
  faults w = [] ->
  is_file (mount_point self) (sys w) = false ->
  is_mapped "luks_token" (sys w) = false ->
  read_file (luks_file self) (sys w) = Some (Luks len pass inner) ->
  tty w = map Line wrongs ++ Line pass :: rest ->
  (List.length wrongs <= 2)%nat ->
  Forall (fun p => p <> pass) wrongs ->
  exists w',
    mount_luks_volume self w = (Return (Some true), w') /\ tty w' = rest.
Proof.
  intros F P Nm Rd T Len Wr.
  unfold mount_luks_volume. rewrite bind_print. unfold bind at 1.
  destruct (os_makedirs_undisturbed (mount_point self)
              (set_out (out w ++ [Printed (nl +++ "🔐 Mounting LUKS volume...")])
                 w) F P)
    as (w0 & -> & F0 & T0 & Ma0 & Fi0 & Dir).
  cbn [tty sys set_out] in T0, Ma0, Fi0.
  assert (Nm0 : is_mapped "luks_token" (sys w0) = false)
    by (unfold is_mapped in *; now rewrite Ma0).
  assert (Rd0 : read_file (luks_file self) (sys w0)
                = Some (Luks len pass inner))
    by (unfold read_file in *; now rewrite Fi0).
  rewrite T in T0. clear T.
  change (range max_attempts) with [0; 1; 2]. cbn [for_return].
  destruct wrongs as [|p1 [|p2 [|p3 wrongs]]]; cbn in Len; try lia;
    cbn [map app] in T0.
  - unfold bind at 1.
    destruct (attempt_right self 0 w0 rest len pass inner F0 T0 Nm0 Rd0 Dir)
      as (w1 & -> & T1 & _).
    unfold ret. eauto.
  - inversion Wr as [|? ? W1 _]; subst.
    unfold bind at 1.
    destruct (attempt_wrong self 0 w0 p1 _ len pass inner F0 T0 Nm0 Rd0 W1)
      as (w1 & -> & F1 & T1 & S1); [discriminate|].
    rewrite <- S1 in Nm0, Rd0, Dir. unfold bind at 1.
    destruct (attempt_right self 1 w1 rest len pass inner F1 T1 Nm0 Rd0 Dir)
      as (w2 & -> & T2 & _).
    unfold ret. eauto.
  - inversion Wr as [|? ? W1 Wr']; subst.
    inversion Wr' as [|? ? W2 _]; subst.
    unfold bind at 1.
    destruct (attempt_wrong self 0 w0 p1 _ len pass inner F0 T0 Nm0 Rd0 W1)
      as (w1 & -> & F1 & T1 & S1); [discriminate|].
    rewrite <- S1 in Nm0, Rd0, Dir. unfold bind at 1.
    destruct (attempt_wrong self 1 w1 p2 _ len pass inner F1 T1 Nm0 Rd0 W2)
      as (w2 & -> & F2 & T2 & S2); [discriminate|].
    rewrite <- S2 in Nm0, Rd0, Dir. unfold bind at 1.
    destruct (attempt_right self 2 w2 rest len pass inner F2 T2 Nm0 Rd0 Dir)
      as (w3 & -> & T3 & _).
    unfold ret. eauto.
Qed.

Lemma right_passphrase_within_three_attempts_unlocks_witness :
  let w := set_tty [Line "a"; Line "b"; Line "correct horse"; Line "1"]
             sample_w4 in
  faults w = [] /\
  read_file (luks_file init) (sys w) = Some token_image /\
  exists w',
    mount_luks_volume init w = (Return (Some true), w') /\
    tty w' = [Line "1"].
Proof.
  cbv zeta. split; [reflexivity|]. split; [reflexivity|].
  refine (right_passphrase_within_three_attempts_unlocks init
            (set_tty [Line "a"; Line "b"; Line "correct horse"; Line "1"]
               sample_w4)
            20000 "correct horse"
            [("Notes.txt", "remember the milk");
             ("GitHub Token", "ghp_example")]
            ["a"; "b"] [Line "1"] eq_refl eq_refl eq_refl eq_refl eq_refl
            _ _).
  - cbn. lia.
  - repeat constructor; discriminate.
Defined.

(** ** When the unlock fails *)

(** Unless it returns [True], [mount_luks_volume] leaves the mount table
    and the files as they are, and it never returns [None]. *)
Lemma mount_luks_volume_not_mounted (self : LUKSTokenSystem) (w : world)
  (r : result (option bool)) (w' : world) :
  mount_luks_volume self w = (r, w') ->
  r <> Return (Some true) ->
  detached w' = detached w /\
  mounts (sys w') = mounts (sys w) /\ files (sys w') = files (sys w) /\
  (r = Return (Some false) \/
   (exists msg, r = Raise (OSError msg)) \/
   (r = Raise (EOFError "") /\ tty w' = [])).
Proof.
  intros H NT. apply mount_luks_volume_cases in H.
  destruct H as [(S & _ & D & msg & ->)|H].
  { rewrite S. eauto 10. }
  destruct H as (w0 & wrongs & wn & M0 & Ma0 & F0 & Dir & _ & Len & T & S & D
                 & E & NN).
  destruct E as [Te|rest Te|p rest rc1 err fs Te N|p rest err m1 rc1 fs Te O N
                |p rest err m1 m2 fs Te O M];
    cbn [detached sys tty set_out set_sys set_faults set_tty asked_secret].
  - rewrite S. auto 10.
  - rewrite S. auto 10.
  - destruct (_ =? _)%Z; [|now elim NN]. rewrite S. auto 10.
  - rewrite S in O. apply cryptsetup_open_ok in O.
    destruct O as (_ & len & inner & _ & ->). cbn. auto 10.
  - now elim NT.
Qed.

(** X12. When [mount_luks_volume] ends with "Mount failed" (it then
    returns [False]), the passphrase was accepted and the device opened
    before: the function leaves it open, mapped as [luks_token], with
    nothing mounted; no [cryptsetup close] follows the failed [mount]. *)
Theorem failed_mount_leaves_the_device_open
  (self : LUKSTokenSystem) (w w' : world) (rc : Z) :
  mount_luks_volume self w = (Return (Some false), w') ->
  last (out w') (Printed "")
  = Printed ("❌ Mount failed: "
             +++ str_exn (CalledProcessError (mount_argv self) rc)) ->
  is_mapped "luks_token" (sys w) = false /\
  is_mapped "luks_token" (sys w') = true /\
  mounts (sys w') = mounts (sys w) /\
  exists len pass inner,
    read_file (luks_file self) (sys w) = Some (Luks len pass inner) /\
    In (Line pass) (tty w) /\
    mapper (sys w') = ("luks_token", inner) :: mapper (sys w).
Proof.
  intros H L. apply mount_luks_volume_cases in H.
  destruct H as [(_ & _ & _ & msg & X)|H]; [discriminate|].
  destruct H as (w0 & wrongs & wn & M0 & Ma0 & F0 & Dir & _ & Len & T & S & _
                 & E & _).
  remember (Return (Some false)) as r eqn:R.
  destruct E as [Te|rest Te|p rest rc1 err fs Te N|p rest err m1 rc1 fs Te O N
                |p rest err m1 m2 fs Te O M]; try discriminate.
  - exfalso. cbn [out set_out] in L. rewrite last_app_cons in L.
    cbn in L. discriminate.
  - exfalso. destruct (_ =? _)%Z; [|discriminate].
    cbn [out set_out app] in L. rewrite last_app_cons in L.
    cbn in L. discriminate.
  - clear R L. rewrite S in O. apply cryptsetup_open_ok in O.
    destruct O as (Nm & len & inner & Rd & ->).
    cbn [sys set_out set_sys set_faults set_tty].
    split; [unfold is_mapped in *; now rewrite <- Ma0|].
    split; [unfold is_mapped; cbn; reflexivity|].
    split; [cbn; exact M0|].
    exists len, p, inner.
    split; [unfold read_file in *; now rewrite <- F0|].
    split; [|cbn; now rewrite Ma0].
    rewrite T, Te. apply in_or_app. right. now left.
Qed.

Lemma failed_mount_leaves_the_device_open_witness :
  mount_luks_volume init mount_failed_world
  = (Return (Some false), mount_failed_end) /\
  tty mount_failed_end = [Line "1"] /\
  is_mapped "luks_token" (sys mount_failed_world) = false /\
  is_mapped "luks_token" (sys mount_failed_end) = true /\
  mounts (sys mount_failed_end) = mounts (sys mount_failed_world) /\
  exists len pass inner,
    read_file (luks_file init) (sys mount_failed_world)
    = Some (Luks len pass inner) /\
    In (Line pass) (tty mount_failed_world) /\
    mapper (sys mount_failed_end)
    = ("luks_token", inner) :: mapper (sys mount_failed_world).
Proof.
  assert (E : mount_luks_volume init mount_failed_world
              = (Return (Some false), mount_failed_end))
    by (vm_compute; reflexivity).
  split; [exact E|]. split; [reflexivity|].
  exact (failed_mount_leaves_the_device_open init mount_failed_world
           mount_failed_end 1 E eq_refl).
Defined.

(** X13. However [mount_luks_volume] ends, the volume is mounted or the
    mount table is untouched: when it returns [True] the device is mapped
    and mounted at the mount point; in every other case, [False] or an
    exception it does not catch, the mount table and the files are as
    before (the device may be left mapped, when it was opened and its
    mount failed).  It never falls off the end of its loop (never returns
    [None]), and it launches nothing in the background. *)
Theorem mount_luks_volume_outcomes (self : LUKSTokenSystem) (w : world)
  (r : result (option bool)) (w' : world) :
  mount_luks_volume self w = (r, w') ->
  detached w' = detached w /\
  match r with
  | Return (Some true) =>
      is_mountpoint (mount_point self) (sys w') = true /\
      is_mapped "luks_token" (sys w') = true
  | Return (Some false) =>
      mounts (sys w') = mounts (sys w) /\ files (sys w') = files (sys w)
  | Return None => False
  | Raise e =>
      mounts (sys w') = mounts (sys w) /\ files (sys w') = files (sys w)
  end.
Proof.
  intros H. apply mount_luks_volume_cases in H.
  destruct H as [(S & _ & D & msg & ->)|H].
  { rewrite S. auto. }
  destruct H as (w0 & wrongs & wn & M0 & Ma0 & F0 & Dir & _ & Len & T & S & D
                 & E & NN).
  destruct E as [Te|rest Te|p rest rc1 err fs Te N|p rest err m1 rc1 fs Te O N
                |p rest err m1 m2 fs Te O M];
    cbn [detached sys tty set_out set_sys set_faults set_tty asked_secret].
  - split; [exact D|]. rewrite S. auto.
  - split; [exact D|]. rewrite S. auto.
  - split; [exact D|]. destruct (_ =? _)%Z; [|now elim NN].
    rewrite S. auto.
  - split; [exact D|]. rewrite S in O. apply cryptsetup_open_ok in O.
    destruct O as (_ & len & inner & _ & ->). cbn. auto.
  - split; [exact D|]. rewrite S in O. apply cryptsetup_open_ok in O.
    destruct O as (_ & len & inner & _ & ->).
    change "/dev/mapper/luks_token" with (mapper_path "luks_token") in M.
    apply mount_dev_ok in M. destruct M as (_ & ->).
    unfold is_mountpoint, is_mapped. cbn.
    now rewrite !String.eqb_refl.
Qed.

Lemma mount_luks_volume_outcomes_witness :
  mount_luks_volume init (set_tty [Line "a"; CtrlC; Line "b"] sample_w4)
  = (Return (Some false),
     snd (mount_luks_volume init
            (set_tty [Line "a"; CtrlC; Line "b"] sample_w4))) /\
  tty (snd (mount_luks_volume init
              (set_tty [Line "a"; CtrlC; Line "b"] sample_w4)))
  = [Line "b"] /\
  mounts (sys (snd (mount_luks_volume init
                      (set_tty [Line "a"; CtrlC; Line "b"] sample_w4))))
  = mounts (sys sample_w4).
Proof.
  assert (E : mount_luks_volume init
                (set_tty [Line "a"; CtrlC; Line "b"] sample_w4)
              = (Return (Some false),
                 snd (mount_luks_volume init
                        (set_tty [Line "a"; CtrlC; Line "b"] sample_w4))))
    by (vm_compute; reflexivity).
  split; [exact E|]. split; [vm_compute; reflexivity|].
  exact (proj1 (proj2 (mount_luks_volume_outcomes init _ _ _ E))).
Defined.

(** ** The file menu only reads *)

Lemma only_shows_print (text : string) : keeps only_shows (print text).
Proof.
  intros w r w' H. inversion H; subst. exists [Printed text].
  split; [reflexivity|]. repeat constructor.
Qed.

Lemma only_shows_input (prompt : string) : keeps only_shows (input prompt).
Proof.
  intros w r w' H. rewrite input_spec in H.
  exists [Ask prompt]. split; [|repeat constructor].
  destruct (tty w) as [|[l|] rest]; inversion H; reflexivity.
Qed.

Lemma only_shows_os_path_exists (path : string) :
  keeps only_shows (os_path_exists path).
Proof. intros w r w' H. inversion H; subst. reflexivity. Qed.

Lemma only_shows_open_read (path : string) :
  keeps only_shows (open_read path).
Proof.
  intros w r w' H. exists []. split; [|constructor]. rewrite app_nil_r.
  revert H. unfold open_read, bind, fault, raise.
  destruct (pop_fault (faults w)) as [[|] fs]; cbv beta iota.
  - intros H. now inversion H.
  - cbn [sys set_faults].
    destruct (read_file path (sys w)) as [[bytes|u|len k inner|len|len whole]|];
      intros H; now inversion H.
Qed.

#[local] Hint Resolve only_shows_print only_shows_input
  only_shows_os_path_exists only_shows_open_read : frame.

Lemma display_file_menu_keeps (R : world -> world -> Prop) {P : PreOrder R}
  (self : LUKSTokenSystem) :
  (forall text, keeps R (print text)) ->
  (forall prompt, keeps R (input prompt)) ->
  (forall path, keeps R (os_path_exists path)) ->
  (forall path, keeps R (open_read path)) ->
  keeps R (display_file_menu self).
Proof.
  intros Hp Hi He Hr.
  unfold display_file_menu, display_file_menu_round, display_file_content.
  keeps_all; auto.
Qed.

Lemma while_true_raises_at {A} (body : Py (option A))
  (P : exn -> world -> Prop) :
  (forall w e w', body w = (Raise e, w') -> P e w') ->
  forall n w e w', while_true n body w = Some (Raise e, w') -> P e w'.
Proof.
  intros Hb. induction n as [|n IH]; intros w e w' H; [discriminate|].
  cbn in H. destruct (body w) as [[[v|]|e1] w1] eqn:E.
  - discriminate.
  - eapply IH; eauto.
  - inversion H; subst. eapply Hb; eauto.
Qed.

Lemma display_file_menu_round_raises (self : LUKSTokenSystem) (w : world)
  (e : exn) (w' : world) :
  display_file_menu_round self w = (Raise e, w') ->
  e = EOFError (input_eof w') /\ tty w' = [].
Proof.
  unfold display_file_menu_round, try_except. unfold bind at 1.
  rewrite input_spec. destruct (tty w) as [|[l|] rest] eqn:T.
  - intros H. inversion H; subst. cbn. auto.
  - cbv beta iota.
    destruct (if strip l =? "1" then _ else _) as [[file_path file_name]|].
    + unfold bind at 1.
      destruct (display_file_content_spec file_path file_name
                  (set_tty rest (asked (nl +++ "Enter your choice (1-2): ") w)))
        as (w1 & -> & T1).
      cbn in T1. unfold bind at 1. rewrite input_spec. rewrite T1.
      destruct rest as [|[l2|] rest2].
      * intros H. inversion H; subst. cbn. auto.
      * cbv beta iota. destruct (negb _); intros H; inversion H.
      * intros H. inversion H.
    + intros H. inversion H.
  - intros H. inversion H.
Qed.

Lemma display_file_menu_only_reads_parts (self : LUKSTokenSystem)
  (w : world) (r : result unit) (w' : world) :
  display_file_menu self w = (r, w') ->
  sys w' = sys w /\ detached w' = detached w /\
  (forall e, r = Raise e ->
             e = EOFError (input_eof w) /\ tty w' = []).
Proof.
  intros H.
  assert (I : interactive w' = interactive w).
  { apply (display_file_menu_keeps (same interactive) self) in H; auto;
      intros; one_step. }
  split; [|split].
  - apply (display_file_menu_keeps (same sys) self) in H; auto;
      intros; one_step.
  - apply (display_file_menu_keeps (same detached) self) in H; auto;
      intros; one_step.
  - intros e ->. unfold display_file_menu in H.
    rewrite !bind_print in H. unfold loop in H.
    match type of H with context [while_true ?n ?b ?x] =>
      destruct (display_file_menu_terminates self x) as (r1 & E);
      rewrite E in H; subst r1;
      apply (while_true_raises_at b
               (fun e v => e = EOFError (input_eof v) /\ tty v = []))
        in E; [unfold input_eof in *; now rewrite <- I|]
    end.
    apply display_file_menu_round_raises.
Qed.

(** X14. The file menu only reads: however [display_file_menu] ends, the
    machine and the units running in the background are as before, and all
    it did was print and prompt (no file written or removed, no process
    started).  A file that is missing or cannot be read is reported and the
    menu goes on; the only exception that leaves the menu is the [EOFError]
    of a prompt at the end of the input (without a message at a terminal,
    with "EOF when reading a line" when the input is read as a file). *)
Theorem display_file_menu_only_reads (self : LUKSTokenSystem) (w : world)
  (r : result unit) (w' : world) :
  display_file_menu self w = (r, w') ->
  sys w' = sys w /\ detached w' = detached w /\
  (exists new, out w' = out w ++ new /\ Forall shown new) /\
  (forall e, r = Raise e ->
             e = EOFError (if interactive w
                           then "" else "EOF when reading a line") /\
             tty w' = []).
Proof.
  intros H.
  destruct (display_file_menu_only_reads_parts self w r w' H) as (S & D & X).
  split; [exact S|]. split; [exact D|]. split; [|exact X].
  apply (display_file_menu_keeps only_shows self) in H; auto with frame.
Qed.

Lemma display_file_menu_only_reads_witness :
  display_file_menu init (ready 60 eof_w6)
  = (Raise (EOFError ""), eof_w7) /\
  sys eof_w7 = sys eof_w6 /\ detached eof_w7 = detached eof_w6 /\
  tty eof_w7 = [].
Proof.
  assert (E : display_file_menu init (ready 60 eof_w6)
              = (Raise (EOFError ""), eof_w7))
    by (vm_compute; reflexivity).
  split; [exact E|].
  destruct (display_file_menu_only_reads init _ _ _ E) as (S & D & _ & R).
  split; [exact S|]. split; [exact D|].
  exact (proj2 (R _ eq_refl)).
Defined.

(** Once the menu is reached, how [run] ends is how the menu ends. *)
Lemma run_at_the_menu (self : LUKSTokenSystem) (w : world)
  (timer_seconds : Z) (w6 : world) :
  reaches_menu self w timer_seconds w6 ->
  run self w
  = match display_file_menu self (ready timer_seconds w6) with
    | (Return _, w7) => (Return true, snd (print session_ended w7))
    | (Raise KeyboardInterrupt, w7) =>
        (Return false,
         snd (print (nl +++ nl +++ "🛑 Operation cancelled by user") w7))
    | (Raise e, w7) =>
        if is_Exception e
        then (Return false,
              snd (print (nl +++ "❌ Unexpected error: " +++ str_exn e) w7))
        else (Raise e, w7)
    end.
Proof.
  intros (p & w4 & w5 & (w0 & w1 & w2 & w3 & E0 & E1 & E2 & E3 & E4)
          & E5 & E6).
  pose proof (create_destruct_script_path _ _ _ _ _ E4) as P.
  unfold run.
  change ((_ <- print "🔐 LUKS Token Self-Destruct System";;
           _ <- print (repeat_str "=" 40);; ?c) w)
    with (c (greeted w)).
  unfold try_except.
  unfold bind at 1. rewrite E0. cbv beta iota.
  unfold bind at 1. rewrite E1. cbv beta iota delta [negb].
  unfold bind at 1. rewrite E2. cbv beta iota delta [negb].
  unfold bind at 1. rewrite E3. cbv beta iota.
  unfold bind at 1. rewrite E4. cbv beta iota.
  rewrite P, script_path_nonempty.
  unfold bind at 1. rewrite E5. cbv beta iota delta [negb].
  unfold bind at 1. rewrite <- P, E6. cbv beta iota delta [negb].
  change ((_ <- print (nl +++ "🎯 LUKS token system ready! Timer: "
                       +++ str_of_Z (timer_seconds / 60) +++ " minute(s)");;
           _ <- print "⚠️  RAM disk will self-destruct automatically!";; ?c) w6)
    with (c (ready timer_seconds w6)).
  unfold bind at 1.
  destruct (display_file_menu self (ready timer_seconds w6)) as [[[]|e] w7].
  - reflexivity.
  - destruct e; reflexivity.
Qed.

(** X15. The end of the input at the file menu is not a Ctrl-C: when the
    session has reached the menu and the menu raises, it is the [EOFError]
    of a prompt with nothing left to read; [run] reports it as an
    unexpected error, with the message of the exception (none at a
    terminal, "EOF when reading a line" when the input is read as a file),
    and returns [False], and the program exits with status 1, the machine
    and the launched unit being as the menu found them. *)
Theorem end_of_input_at_the_menu_exits_one
  (w : world) (timer_seconds : Z) (w6 : world) (e : exn) (w7 : world) :
  reaches_menu init w timer_seconds w6 ->
  display_file_menu init (ready timer_seconds w6) = (Raise e, w7) ->
  tty w7 = [] /\ sys w7 = sys w6 /\ detached w7 = detached w6 /\
  program w
  = (1, set_out
          (out w7 ++
           [Printed (nl +++ "❌ Unexpected error: "
                     +++ (if interactive w6
                          then "" else "EOF when reading a line"))])
          w7).
Proof.
  intros Rm Em.
  destruct (display_file_menu_only_reads_parts init _ _ _ Em)
    as (S & D & X).
  destruct (X e eq_refl) as (-> & T).
  change (input_eof (ready timer_seconds w6))
    with (if interactive w6 then "" else "EOF when reading a line") in *.
  split; [exact T|]. split; [exact S|]. split; [exact D|].
  unfold program, main. cbv zeta. unfold bind at 1.
  rewrite (run_at_the_menu init w timer_seconds w6 Rm), Em.
  reflexivity.
Qed.

Lemma eof_reaches_menu : reaches_menu init eof_world 60 eof_w6.
Proof.
  exists "/tmp/luks_ramdisk/dd-destruct.sh", eof_w4, eof_w5.
  split; [|split; vm_compute; reflexivity].
  exists eof_w0, eof_w1, eof_w2, eof_w3.
  repeat split; vm_compute; reflexivity.
Qed.

Lemma end_of_input_at_the_menu_exits_one_witness :
  reaches_menu init eof_world 60 eof_w6 /\
  display_file_menu init (ready 60 eof_w6)
  = (Raise (EOFError ""), eof_w7) /\
  fst (program eof_world) = 1 /\
  detached (snd (program eof_world)) = [script_content init 60].
Proof.
  assert (E : display_file_menu init (ready 60 eof_w6)
              = (Raise (EOFError ""), eof_w7))
    by (vm_compute; reflexivity).
  split; [exact eof_reaches_menu|]. split; [exact E|].
  destruct (end_of_input_at_the_menu_exits_one eof_world 60 eof_w6 _ eof_w7
              eof_reaches_menu E) as (_ & _ & _ & ->).
  split; reflexivity.
Defined.

(** ** The manual cleanup *)

Lemma execute_umount (p : string) (m : machine) :
  execute ["umount"; p] None m
  = ((fst (sys_umount p m), ""), snd (sys_umount p m)).
Proof. reflexivity. Qed.

Lemma execute_cryptsetup_close (name : string) (m : machine) :
  execute ["cryptsetup"; "close"; name] None m
  = ((fst (sys_cryptsetup_close name m), ""),
     snd (sys_cryptsetup_close name m)).
Proof. reflexivity. Qed.

(** [subprocess.run(argv, check=False)] never raises. *)
Lemma subprocess_run_unchecked (argv : list string) (w : world) :
  exists rc,
    subprocess_run argv false w
    = (Return rc,
       set_out (out w ++ [Exec argv None rc])
         (set_sys (if fst (pop_fault (faults w)) then sys w
                   else snd (execute argv None (sys w)))
            (set_faults (snd (pop_fault (faults w))) w))).
Proof.
  unfold subprocess_run, bind, spawn, bind, fault.
  destruct (pop_fault (faults w)) as [[|] fs]; cbv beta iota.
  - cbn. eexists. reflexivity.
  - cbn [sys set_faults]. destruct (execute argv None (sys w)) as [[rc err] m'].
    cbn. eexists. reflexivity.
Qed.

Lemma same_but_volume_refl (self : LUKSTokenSystem) (m : machine) :
  same_but_volume self m m.
Proof. now repeat split. Qed.

Lemma same_but_volume_trans (self : LUKSTokenSystem) (m1 m2 m3 : machine) :
  same_but_volume self m1 m2 -> same_but_volume self m2 m3 ->
  same_but_volume self m1 m3.
Proof.
  intros (F1 & D1 & M1 & P1) (F2 & D2 & M2 & P2). repeat split.
  - intros p H1 H2. now rewrite F2, F1.
  - intros d H. now rewrite D2, D1.
  - congruence.
  - congruence.
Qed.

Lemma same_but_volume_umount (self : LUKSTokenSystem) (m : machine) :
  same_but_volume self m (snd (sys_umount (mount_point self) m)).
Proof.
  unfold sys_umount.
  destruct (is_mountpoint _ m); [|apply same_but_volume_refl].
  cbn [snd]. repeat split.
  - intros p _ U. rewrite read_file_uncover by exact U.
    now rewrite read_file_drop_under.
  - intros d U. rewrite is_dir_uncover by exact U.
    now rewrite is_dir_drop_under.
  - cbn. apply filter_remove_mount. intros e E. unfold off_mount_point.
    now rewrite E, String.eqb_refl.
Qed.

Lemma same_but_volume_close (self : LUKSTokenSystem) (m : machine) :
  same_but_volume self m (snd (sys_cryptsetup_close "luks_token" m)).
Proof.
  unfold sys_cryptsetup_close.
  destruct (is_mapped _ m); [|apply same_but_volume_refl].
  destruct (existsb _ (mounts m)); [apply same_but_volume_refl|].
  cbn [snd]. repeat split. cbn.
  apply (filter_filter_same foreign_mapping).
Qed.

Lemma same_but_volume_unlink (self : LUKSTokenSystem) (m : machine) :
  same_but_volume self m (unlink (luks_file self) m).
Proof.
  repeat split. intros p N _. now apply read_file_unlink_other.
Qed.

#[export] Instance volume_only_PreOrder (self : LUKSTokenSystem) :
  PreOrder (volume_only self).
Proof.
  split.
  - intros w. apply same_but_volume_refl.
  - intros a b c. apply same_but_volume_trans.
Qed.

Lemma volume_only_quiet {A} (self : LUKSTokenSystem) (c : Py A) :
  keeps (same sys) c -> keeps (volume_only self) c.
Proof.
  intros H w r w' E. apply H in E. unfold same in E. unfold volume_only.
  rewrite E. apply same_but_volume_refl.
Qed.

Lemma volume_only_umount (self : LUKSTokenSystem) :
  keeps (volume_only self)
    (subprocess_run ["umount"; mount_point self] false).
Proof.
  intros w r w' E.
  destruct (subprocess_run_unchecked ["umount"; mount_point self] w)
    as (rc & X).
  rewrite X in E. inversion E; subst. unfold volume_only.
  cbn [sys set_out set_sys].
  destruct (fst (pop_fault (faults w))); [apply same_but_volume_refl|].
  exact (same_but_volume_umount self (sys w)).
Qed.

Lemma volume_only_close (self : LUKSTokenSystem) :
  keeps (volume_only self)
    (subprocess_run ["cryptsetup"; "close"; "luks_token"] false).
Proof.
  intros w r w' E.
  destruct (subprocess_run_unchecked ["cryptsetup"; "close"; "luks_token"] w)
    as (rc & X).
  rewrite X in E. inversion E; subst. unfold volume_only.
  cbn [sys set_out set_sys].
  destruct (fst (pop_fault (faults w))); [apply same_but_volume_refl|].
  exact (same_but_volume_close self (sys w)).
Qed.

Lemma volume_only_remove (self : LUKSTokenSystem) :
  keeps (volume_only self) (os_remove (luks_file self)).
Proof.
  intros w r w'. unfold os_remove, bind, fault, raise, volume_only.
  destruct (pop_fault (faults w)) as [[|] fs]; cbv beta iota.
  - intros E. inversion E; subst. apply same_but_volume_refl.
  - cbn [sys set_faults]. destruct (is_file (luks_file self) (sys w));
      intros E; inversion E; subst; cbn [sys set_out set_sys set_faults].
    + apply same_but_volume_unlink.
    + apply same_but_volume_refl.
Qed.

Lemma cleanup_on_exit_keeps (R : world -> world -> Prop) {P : PreOrder R}
  (self : LUKSTokenSystem) :
  keeps R (os_path_ismount (mount_point self)) ->
  keeps R (subprocess_run ["umount"; mount_point self] false) ->
  keeps R (subprocess_run ["cryptsetup"; "close"; "luks_token"] false) ->
  keeps R (os_path_exists (luks_file self)) ->
  keeps R (os_remove (luks_file self)) ->
  keeps R (cleanup_on_exit self).
Proof.
  intros H1 H2 H3 H4 H5. unfold cleanup_on_exit. keeps_all; auto.
Qed.

(** Every exception [cleanup_on_exit] could raise is swallowed. *)
Lemma cleanup_on_exit_returns (self : LUKSTokenSystem) (w : world) :
  exists w', cleanup_on_exit self w = (Return tt, w').
Proof.
  destruct (cleanup_on_exit self w) as [[[]|e] w'] eqn:E; [eauto|].
  exfalso. revert E. unfold cleanup_on_exit, try_except.
  match goal with |- context [bind ?c ?k w] =>
    assert (X : raises_only (fun e => is_Exception e = true) (bind c k)) end.
  { apply raises_only_bind; [one_raise|intros mounted].
    apply raises_only_bind.
    { destruct mounted; [|apply raises_only_ret].
      apply raises_only_bind; [one_raise|intros; apply raises_only_ret]. }
    intros _. apply raises_only_bind; [one_raise|intros rc].
    apply raises_only_bind; [one_raise|intros present].
    destruct present; [one_raise|apply raises_only_ret]. }
  match goal with |- context [bind ?c ?k w] =>
    destruct (bind c k w) as [[[]|e1] w1] eqn:E1 end.
  - discriminate.
  - apply X in E1. rewrite E1. discriminate.
Qed.


(** X16. [cleanup_on_exit] always returns, whatever fails: every exception
    is swallowed.  It is about the volume only: the image file, what lies
    below the mount point, the mounts on it and the mapping.  Everything
    else is as before; in particular the RAM disk stays mounted with what
    it holds, and the units running in the background are not stopped. *)
Theorem cleanup_on_exit_spares_the_ramdisk (self : LUKSTokenSystem)
  (w : world) :
  exists w',
    cleanup_on_exit self w = (Return tt, w') /\
    detached w' = detached w /\ tty w' = tty w /\
    same_but_volume self (sys w) (sys w') /\
    (ramdisk_path self <> mount_point self ->
     is_mountpoint (ramdisk_path self) (sys w')
     = is_mountpoint (ramdisk_path self) (sys w)).
Proof.
  destruct (cleanup_on_exit_returns self w) as (w' & E). exists w'.
  split; [exact E|].
  assert (D : detached w' = detached w).
  { apply (cleanup_on_exit_keeps (same detached) self) in E; auto;
      one_step. }
  assert (T : tty w' = tty w).
  { apply (cleanup_on_exit_keeps (same tty) self) in E; auto; one_step. }
  assert (V : same_but_volume self (sys w) (sys w')).
  { apply (cleanup_on_exit_keeps (volume_only self) self) in E; auto.
    - apply volume_only_quiet. one_step.
    - apply volume_only_umount.
    - apply volume_only_close.
    - apply volume_only_quiet. one_step.
    - apply volume_only_remove. }
  repeat (split; [assumption|]).
  intros N. destruct V as (_ & _ & M & _).
  unfold is_mountpoint.
  rewrite <- (existsb_filter_keep _ (off_mount_point self) (mounts (sys w'))),
          <- (existsb_filter_keep _ (off_mount_point self) (mounts (sys w))).
  - now rewrite M.
  - intros e X. apply String.eqb_eq in X. unfold off_mount_point.
    rewrite X. apply negb_true_iff. now apply String.eqb_neq.
  - intros e X. apply String.eqb_eq in X. unfold off_mount_point.
    rewrite X. apply negb_true_iff. now apply String.eqb_neq.
Qed.

Lemma subprocess_run_undisturbed (argv : list string) (w : world) :
  faults w = [] ->
  exists rc,
    subprocess_run argv false w
    = (Return rc,
       set_out (out w ++ [Exec argv None rc])
         (set_sys (snd (execute argv None (sys w))) (set_faults [] w))).
Proof.
  intros F. destruct (subprocess_run_unchecked argv w) as (rc & E).
  rewrite F in E. exists rc. exact E.
Qed.

(** X17. Undisturbed, on a machine where no target is mounted twice and
    the unlocked device is mounted nowhere but at the mount point,
    [cleanup_on_exit] does what it is for: afterwards the volume is not
    mounted, the device is not mapped and the image file is gone. *)
Theorem cleanup_on_exit_undisturbed (self : LUKSTokenSystem) (w : world) :
  faults w = [] ->
  NoDup (map target (mounts (sys w))) ->
  (forall e, In e (mounts (sys w)) ->
             source e = "/dev/mapper/luks_token" ->
             target e = mount_point self) ->
  exists w',
    cleanup_on_exit self w = (Return tt, w') /\
    is_mountpoint (mount_point self) (sys w') = false /\
    is_mapped "luks_token" (sys w') = false /\
    is_file (luks_file self) (sys w') = false.
Proof.
  intros F ND Hdev.
  change "/dev/mapper/luks_token" with (mapper_path "luks_token") in Hdev.
  set (MP := mount_point self) in *.
  unfold cleanup_on_exit, try_except.
  unfold bind at 1. unfold os_path_ismount. cbv beta iota. fold MP.
  (* the mount point *)
  unfold bind at 1.
  assert (exists wa,
    (if is_mountpoint MP (sys w)
     then (_ <- subprocess_run ["umount"; MP] false;; ret tt)
     else ret tt) w = (Return tt, wa) /\
    faults wa = [] /\
    is_mountpoint MP (sys wa) = false /\
    existsb (fun e => source e =? mapper_path "luks_token") (mounts (sys wa))
    = false)
    as (wa & -> & Fa & A1 & A2).
  { destruct (is_mountpoint MP (sys w)) eqn:E.
    - unfold bind.
      destruct (subprocess_run_undisturbed ["umount"; MP] w F) as (rc & ->).
      unfold ret. eexists. split; [reflexivity|].
      cbn [faults sys set_out set_sys set_faults].
      rewrite execute_umount. cbn [snd]. unfold sys_umount. rewrite E.
      cbn [snd]. split; [reflexivity|].
      assert (G : existsb (fun e => target e =? MP)
                    (remove_mount MP (mounts (sys w))) = false)
        by now apply remove_mount_gone.
      split; [exact G|].
      apply existsb_false. intros e He. cbn in He.
      destruct (source e =? mapper_path "luks_token") eqn:S; [|reflexivity].
      apply String.eqb_eq in S.
      assert (T : target e = MP).
      { apply Hdev; [|exact S]. eapply remove_mount_In; eauto. }
      rewrite existsb_false in G. specialize (G e He).
      rewrite T, String.eqb_refl in G. discriminate.
    - unfold ret. exists w. split; [reflexivity|]. split; [exact F|].
      split; [exact E|].
      apply existsb_false. intros e He.
      destruct (source e =? mapper_path "luks_token") eqn:S; [|reflexivity].
      apply String.eqb_eq in S. pose proof (Hdev e He S) as T.
      unfold is_mountpoint in E. rewrite existsb_false in E.
      specialize (E e He). rewrite T, String.eqb_refl in E. discriminate. }
  cbv beta iota.
  (* the mapping *)
  unfold bind at 1.
  destruct (subprocess_run_undisturbed ["cryptsetup"; "close"; "luks_token"]
              wa Fa) as (rc & ->).
  cbv beta iota. rewrite execute_cryptsetup_close. cbn [snd].
  set (m2 := snd (sys_cryptsetup_close "luks_token" (sys wa))).
  assert (B : mounts m2 = mounts (sys wa) /\
              is_mapped "luks_token" m2 = false).
  { subst m2. unfold sys_cryptsetup_close.
    destruct (is_mapped "luks_token" (sys wa)) eqn:Mp; [rewrite A2|];
      cbn [snd].
    - split; [reflexivity|]. unfold is_mapped. cbn.
      apply (existsb_filter_false (fun d => fst d =? "luks_token")).
    - auto. }
  destruct B as (B1 & B2).
  (* the image *)
  unfold bind at 1. unfold os_path_exists. cbv beta iota.
  cbn [sys set_out set_sys].
  destruct (path_exists (luks_file self) m2) eqn:Px.
  - unfold os_remove, bind, fault.
    cbn [faults set_out set_sys set_faults pop_fault]. cbv beta iota.
    cbn [sys set_out set_sys set_faults].
    destruct (is_file (luks_file self) m2) eqn:Fi.
    + eexists. split; [reflexivity|].
      cbn [sys set_out set_sys set_faults].
      split; [unfold is_mountpoint; cbn; now rewrite B1|].
      split; [exact B2|].
      unfold is_file, unlink. cbn.
      apply (existsb_filter_false (fun f => fst f =? luks_file self)).
    + cbn [is_Exception]. unfold ret. eexists. split; [reflexivity|].
      cbn [sys set_out set_sys set_faults].
      split; [unfold is_mountpoint; now rewrite B1|]. auto.
  - unfold ret. eexists. split; [reflexivity|].
    cbn [sys set_out set_sys set_faults].
    split; [unfold is_mountpoint; now rewrite B1|]. split; [exact B2|].
    unfold path_exists in Px. apply orb_false_iff in Px.
    destruct Px as (Px & _). apply orb_false_iff in Px. apply Px.
Qed.

Lemma cleanup_on_exit_undisturbed_witness :
  let w := snd sample_end in
  faults w = [] /\
  is_mountpoint (mount_point init) (sys w) = true /\
  is_mapped "luks_token" (sys w) = true /\
  is_file (luks_file init) (sys w) = true /\
  exists w',
    cleanup_on_exit init w = (Return tt, w') /\
    is_mountpoint (mount_point init) (sys w') = false /\
    is_mapped "luks_token" (sys w') = false /\
    is_file (luks_file init) (sys w') = false.
Proof.
  cbv zeta. repeat (split; [reflexivity|]).
  refine (cleanup_on_exit_undisturbed init (snd sample_end) eq_refl _ _).
  - cbn. repeat constructor; cbn; intuition discriminate.
  - cbn. intros e [<-|[<-|[]]]; cbn; [reflexivity|discriminate].
Defined.

(* ================================================================== *)
(** * The session as a whole *)
(* ================================================================== *)

Lemma check_root_passed (self : LUKSTokenSystem) (v v0 : world) :
  check_root self v = (Return tt, v0) -> v0 = v.
Proof.
  intros H. destruct (Z.eq_dec (euid v) 0) as [E|E].
  - rewrite (proj1 (check_root_spec self v) E) in H. now inversion H.
  - destruct (proj2 (check_root_spec self v) E) as (x & X). congruence.
Qed.

Lemma create_ramdisk_same_net (self : LUKSTokenSystem) :
  keeps (same net) (create_ramdisk self).
Proof. unfold create_ramdisk. keeps_all. Qed.

Lemma get_timer_selection_same_sys (self : LUKSTokenSystem) :
  keeps (same sys) (get_timer_selection self).
Proof. unfold get_timer_selection, get_timer_selection_round. keeps_all. Qed.

Lemma get_timer_selection_same_detached (self : LUKSTokenSystem) :
  keeps (same detached) (get_timer_selection self).
Proof. unfold get_timer_selection, get_timer_selection_round. keeps_all. Qed.

(** The machine when [run] gets to [mount_luks_volume]: the RAM disk
    mounted on the machine the session started on, the image and the
    script written, in this order. *)
Lemma reaches_unlock_machine (self : LUKSTokenSystem) (w : world)
  (timer_seconds : Z) (p : string) (w4 : world) :
  reaches_unlock self w timer_seconds p w4 ->
  p = ramdisk_path self +++ "/dd-destruct.sh" /\
  detached w4 = detached w /\
  In timer_seconds [60; 300; 600] /\
  exists m0 header body,
    net w = Served header body /\
    mounts m0 = mounts (sys w) /\ files m0 = files (sys w) /\
    is_dir (ramdisk_path self) m0 = true /\
    (forall d, d <> ramdisk_path self -> is_dir d m0 = is_dir d (sys w)) /\
    sys w4 = write_file p (Script (script_content self timer_seconds))
               (write_file (luks_file self) (received header body)
                  (set_mounts (tmpfs_entry self :: mounts m0)
                     (cover_under (ramdisk_path self) m0))).
Proof.
  intros (w0 & w1 & w2 & w3 & E0 & E1 & E2 & E3 & E4).
  apply check_root_passed in E0. subst w0.
  pose proof (create_ramdisk_same_net self _ _ _ E1) as N1.
  apply create_ramdisk_spec in E1.
  destruct E1 as (_ & D1 & _ & m0 & M0 & F0 & Dir & Others & _ & S1 & _).
  apply download_luks_volume_spec in E2.
  destruct E2 as (_ & D2 & header & body & N2 & S2 & _).
  pose proof (get_timer_selection_values self _ _ _ E3) as V.
  pose proof (get_timer_selection_same_sys self _ _ _ E3) as S3.
  pose proof (get_timer_selection_same_detached self _ _ _ E3) as D3.
  destruct (create_destruct_script_spec self timer_seconds w3)
    as (r & w4' & E4' & _ & D4 & R4).
  rewrite E4 in E4'. inversion E4'; subst r w4'. clear E4'.
  destruct R4 as (-> & S4 & _).
  unfold same in *.
  change (detached (greeted w)) with (detached w) in D1.
  change (sys (greeted w)) with (sys w) in M0, F0, Others.
  change (net (greeted w)) with (net w) in N1.
  split; [reflexivity|]. split; [congruence|]. split; [exact V|].
  exists m0, header, body.
  split; [congruence|]. split; [exact M0|]. split; [exact F0|].
  split; [exact Dir|]. split; [exact Others|]. now rewrite S4, S3, S2, S1.
Qed.

Lemma find_app_some {A} (f : A -> bool) (l l' : list A) (x : A) :
  find f l = Some x -> find f (l ++ l') = Some x.
Proof.
  induction l as [|a l IH]; [discriminate|]. cbn.
  destruct (f a); auto.
Qed.

(** The script is still in its place when the volume is mounted. *)
Lemma script_survives_the_mount (w : world) (timer_seconds : Z) (p : string)
  (w4 w5 : world) :
  reaches_unlock init w timer_seconds p w4 ->
  mount_luks_volume init w4 = (Return (Some true), w5) ->
  read_file p (sys w5) = Some (Script (script_content init timer_seconds)).
Proof.
  intros Ru Em.
  destruct (reaches_unlock_machine init w timer_seconds p w4 Ru)
    as (-> & _ & _ & m0 & header & body & _ & _ & _ & _ & _ & S4).
  apply mount_luks_volume_mounted in Em.
  destruct Em as (_ & len & pass & inner & wrongs & _ & _ & _ & _ & _ & _ & F).
  assert (R4 : read_file (ramdisk_path init +++ "/dd-destruct.sh") (sys w4)
               = Some (Script (script_content init timer_seconds)))
    by (rewrite S4; apply read_file_write_file).
  unfold read_file in *. rewrite F.
  destruct (find _ (files (sys w4))) as [x|] eqn:X; [|discriminate].
  erewrite find_app_some; [exact R4|].
  rewrite find_filter_keep; [exact X|].
  intros [q c] E. cbn in *. apply String.eqb_eq in E. now subst q.
Qed.

Lemma reaches_menu_detached (w : world) (timer_seconds : Z) (w6 : world) :
  reaches_menu init w timer_seconds w6 ->
  detached w6 = detached w ++ [script_content init timer_seconds] /\
  read_file "/tmp/luks_ramdisk/dd-destruct.sh" (sys w6)
  = Some (Script (script_content init timer_seconds)).
Proof.
  intros (p & w4 & w5 & Ru & Em & Es).
  pose proof (script_survives_the_mount w timer_seconds p w4 w5 Ru Em) as R5.
  destruct (reaches_unlock_machine init w timer_seconds p w4 Ru)
    as (-> & D4 & V & _).
  apply mount_luks_volume_mounted in Em. destruct Em as (D5 & _).
  destruct (start_destruct_timer_spec init
              (ramdisk_path init +++ "/dd-destruct.sh") w5)
    as (b & w6' & Es' & S6 & _ & D6).
  rewrite Es in Es'. inversion Es'; subst b w6'. clear Es'.
  rewrite R5 in D6. split.
  - rewrite D6, D5, D4. reflexivity.
  - rewrite S6. exact R5.
Qed.

(** X18. A session that gets to the file menu has launched exactly one
    destruct unit, and it is the one for the lifetime the operator chose:
    the script with that primary timer, the failsafe 180 seconds later and
    the three paths of the session, which is still in its file on the RAM
    disk. *)
Theorem session_launches_the_selected_unit
  (w : world) (timer_seconds : Z) (w6 : world) :
  reaches_menu init w timer_seconds w6 ->
  In timer_seconds [60; 300; 600] /\
  detached w6
  = detached w ++
    [{| script_timer_seconds := timer_seconds;
        script_failsafe_timer := timer_seconds + 180;
        RAMDISK := "/tmp/luks_ramdisk";
        LUKS_FILE := "/tmp/LUKS-TOKEN-2MB.img";
        MOUNT_POINT := "/tmp/LUKS-TOKEN-2MB" |}] /\
  read_file "/tmp/luks_ramdisk/dd-destruct.sh" (sys w6)
  = Some (Script (script_content init timer_seconds)).
Proof.
  intros Rm. destruct (reaches_menu_detached w timer_seconds w6 Rm) as (D & R).
  destruct Rm as (p & w4 & w5 & Ru & _).
  destruct (reaches_unlock_machine init w timer_seconds p w4 Ru)
    as (_ & _ & V & _).
  split; [exact V|]. split; [exact D|exact R].
Qed.

Lemma session_launches_the_selected_unit_witness :
  reaches_menu init sample_world 60 sample_w6 /\
  detached sample_w6
  = [{| script_timer_seconds := 60;
        script_failsafe_timer := 240;
        RAMDISK := "/tmp/luks_ramdisk";
        LUKS_FILE := "/tmp/LUKS-TOKEN-2MB.img";
        MOUNT_POINT := "/tmp/LUKS-TOKEN-2MB" |}].
Proof.
  split; [exact sample_reaches_menu|].
  exact (proj1 (proj2 (session_launches_the_selected_unit sample_world 60
                         sample_w6 sample_reaches_menu))).
Defined.

(** ** A session that fails at the unlock *)

Lemma run_at_the_unlock (self : LUKSTokenSystem) (w : world)
  (timer_seconds : Z) (p : string) (w4 : world)
  (r : result (option bool)) (w5 : world) :
  reaches_unlock self w timer_seconds p w4 ->
  mount_luks_volume self w4 = (r, w5) ->
  r <> Return (Some true) ->
  exists w',
    run self w = (Return false, w') /\
    sys w' = sys w5 /\ detached w' = detached w5 /\ tty w' = tty w5.
Proof.
  intros Ru E5 NT.
  destruct (mount_luks_volume_not_mounted self w4 r w5 E5 NT)
    as (_ & _ & _ & R).
  destruct Ru as (w0 & w1 & w2 & w3 & E0 & E1 & E2 & E3 & E4).
  pose proof (create_destruct_script_path _ _ _ _ _ E4) as P.
  unfold run.
  change ((_ <- print "🔐 LUKS Token Self-Destruct System";;
           _ <- print (repeat_str "=" 40);; ?c) w)
    with (c (greeted w)).
  unfold try_except.
  unfold bind at 1. rewrite E0. cbv beta iota.
  unfold bind at 1. rewrite E1. cbv beta iota delta [negb].
  unfold bind at 1. rewrite E2. cbv beta iota delta [negb].
  unfold bind at 1. rewrite E3. cbv beta iota.
  unfold bind at 1. rewrite E4. cbv beta iota.
  rewrite P, script_path_nonempty.
  unfold bind at 1. rewrite E5.
  destruct R as [->|[(msg & ->)|(-> & _)]]; eexists;
    (split; [reflexivity|]); auto.
Qed.

(** X19. [run] starts the destruct unit only after the volume is mounted.
    So when the session gets to the unlock and [mount_luks_volume] does not
    return [True] (three wrong passphrases, Ctrl-C, a failed mount, the end
    of the input), the program exits with status 1 and leaves behind,
    with no unit running to remove them: the RAM disk, still mounted, the
    script in it, and in the image file what was read of the body the
    server sent: the whole body, unless the server announced a length
    smaller than it. *)
Theorem failed_unlock_leaves_the_token_behind
  (w : world) (timer_seconds : Z) (p : string) (w4 : world)
  (r : result (option bool)) (w5 : world) :
  reaches_unlock init w timer_seconds p w4 ->
  mount_luks_volume init w4 = (r, w5) ->
  r <> Return (Some true) ->
  exists w',
    program w = (1, w') /\
    detached w' = detached w /\
    is_mountpoint "/tmp/luks_ramdisk" (sys w') = true /\
    read_file "/tmp/luks_ramdisk/dd-destruct.sh" (sys w')
    = Some (Script (script_content init timer_seconds)) /\
    exists header body,
      net w = Served header body /\
      read_file "/tmp/LUKS-TOKEN-2MB.img" (sys w')
      = Some (received header body) /\
      ((forall n, header = Some n -> content_length body <= n) ->
       read_file "/tmp/LUKS-TOKEN-2MB.img" (sys w') = Some body).
Proof.
  intros Ru E5 NT.
  destruct (run_at_the_unlock init w timer_seconds p w4 r w5 Ru E5 NT)
    as (w' & Er & S & D & _).
  destruct (mount_luks_volume_not_mounted init w4 r w5 E5 NT)
    as (D5 & M5 & F5 & _).
  destruct (reaches_unlock_machine init w timer_seconds p w4 Ru)
    as (-> & D4 & _ & m0 & header & body & N & _ & _ & _ & _ & S4).
  exists w'. split.
  { unfold program, main. cbv zeta. unfold bind at 1. now rewrite Er. }
  split; [congruence|].
  set (m1 := set_mounts (tmpfs_entry init :: mounts m0)
               (cover_under (ramdisk_path init) m0)) in *.
  set (m2 := write_file (luks_file init) (received header body) m1) in *.
  destruct (write_file_rest (luks_file init) (received header body) m1)
    as (A1 & _).
  destruct (write_file_rest (ramdisk_path init +++ "/dd-destruct.sh")
              (Script (script_content init timer_seconds)) m2) as (A2 & _).
  split; [|split].
  - unfold is_mountpoint. rewrite S, M5, S4, A2. unfold m2. rewrite A1.
    reflexivity.
  - unfold read_file. rewrite S, F5. fold (read_file
      "/tmp/luks_ramdisk/dd-destruct.sh" (sys w4)).
    rewrite S4. apply read_file_write_file.
  - exists header, body. split; [exact N|].
    assert (I : read_file "/tmp/LUKS-TOKEN-2MB.img" (sys w')
                = Some (received header body)).
    { unfold read_file. rewrite S, F5.
      fold (read_file "/tmp/LUKS-TOKEN-2MB.img" (sys w4)). rewrite S4.
      rewrite read_file_write_file_other by discriminate.
      apply read_file_write_file. }
    split; [exact I|]. intros Whole. rewrite I.
    destruct (received_cases header body) as [(-> & _)|(n & Hn & L & _)];
      [reflexivity|].
    specialize (Whole n Hn). lia.
Qed.

Lemma failed_unlock_leaves_the_token_behind_witness :
  reaches_unlock init locked_out_world 60 "/tmp/luks_ramdisk/dd-destruct.sh"
    locked_out_w4 /\
  mount_luks_volume init locked_out_w4 = (Return (Some false), locked_out_w5) /\
  exists w',
    program locked_out_world = (1, w') /\
    detached w' = [] /\
    is_mountpoint "/tmp/luks_ramdisk" (sys w') = true /\
    read_file "/tmp/luks_ramdisk/dd-destruct.sh" (sys w')
    = Some (Script (script_content init 60)) /\
    exists header body,
      net locked_out_world = Served header body /\
      read_file "/tmp/LUKS-TOKEN-2MB.img" (sys w')
      = Some (received header body) /\
      ((forall n, header = Some n -> content_length body <= n) ->
       read_file "/tmp/LUKS-TOKEN-2MB.img" (sys w') = Some body).
Proof.
  assert (E : mount_luks_volume init locked_out_w4
              = (Return (Some false), locked_out_w5))
    by (vm_compute; reflexivity).
  split; [exact locked_out_reaches_unlock|]. split; [exact E|].
  exact (failed_unlock_leaves_the_token_behind locked_out_world 60 _
           locked_out_w4 _ locked_out_w5 locked_out_reaches_unlock E
           ltac:(discriminate)).
Defined.

(** ** A session that gets to the menu *)

Lemma reaches_menu_mounts (w : world) (timer_seconds : Z) (w6 : world) :
  reaches_menu init w timer_seconds w6 ->
  mounts (sys w6)
  = {| target := "/tmp/LUKS-TOKEN-2MB"; source := "/dev/mapper/luks_token";
       options := "" |}
    :: tmpfs_entry init :: mounts (sys w).
Proof.
  intros (p & w4 & w5 & Ru & Em & Es).
  destruct (reaches_unlock_machine init w timer_seconds p w4 Ru)
    as (-> & _ & _ & m0 & header & body & _ & M0 & _ & _ & _ & S4).
  apply mount_luks_volume_mounted in Em.
  destruct Em as (_ & len & pass & inner & wrongs & _ & _ & _ & _ & _ & M5 & _).
  destruct (start_destruct_timer_spec init
              (ramdisk_path init +++ "/dd-destruct.sh") w5)
    as (b & w6' & Es' & S6 & _).
  rewrite Es in Es'. inversion Es'; subst b w6'. clear Es'.
  rewrite S6, M5, S4.
  set (m1 := set_mounts (tmpfs_entry init :: mounts m0)
               (cover_under (ramdisk_path init) m0)) in *.
  destruct (write_file_rest (luks_file init) (received header body) m1)
    as (A1 & _).
  destruct (write_file_rest (ramdisk_path init +++ "/dd-destruct.sh")
              (Script (script_content init timer_seconds))
              (write_file (luks_file init) (received header body) m1))
    as (A2 & _).
  rewrite A2, A1. unfold m1. cbn. now rewrite M0.
Qed.

(** The unlock leaves what the RAM disk hides as it is. *)
Lemma spawn_ramdisk_cover (argv : list string) (stdin : option string) :
  argv = cryptsetup_argv init \/ argv = mount_argv init ->
  keeps (same (ramdisk_cover init)) (spawn argv stdin).
Proof.
  intros Hargv w r w' H.
  destruct (spawn_spec argv stdin w) as (rc & err & m' & fs & E & _ & X).
  rewrite E in H. inversion H; subst. clear H E.
  unfold same, ramdisk_cover. cbn [sys set_out set_sys].
  destruct X as [(_ & ->)|X]; [reflexivity|].
  destruct Hargv as [-> | ->].
  - unfold cryptsetup_argv in X. cbn [execute] in X.
    change ("cryptsetup" =? "cryptsetup") with true in X.
    change ("open" =? "open") with true in X. cbn [andb] in X.
    unfold sys_cryptsetup_open in X.
    destruct (is_mapped _ _); [now inversion X|].
    destruct (read_file _ _) as [[bytes|u|len k inner|len|len whole]|];
      try (now inversion X).
    destruct (_ =? k); now inversion X.
  - change (execute (mount_argv init) stdin (sys w))
      with ((fst (sys_mount_dev "/dev/mapper/luks_token" (mount_point init)
                    (sys w)), ""),
            snd (sys_mount_dev "/dev/mapper/luks_token" (mount_point init)
                   (sys w))) in X.
    inversion X. unfold sys_mount_dev.
    destruct (find _ (mapper (sys w))); [|reflexivity].
    destruct (is_dir _ _); reflexivity.
Qed.

Lemma mount_luks_volume_ramdisk_cover :
  keeps (same (ramdisk_cover init)) (mount_luks_volume init).
Proof.
  unfold mount_luks_volume, mount_luks_volume_attempt, Popen_communicate,
    subprocess_run.
  fold (cryptsetup_argv init). fold (mount_argv init).
  keeps_all; apply spawn_ramdisk_cover; auto.
Qed.

Lemma write_file_covers (p : string) (c : content) (m : machine) :
  covers (write_file p c m) = covers m.
Proof. unfold write_file. now destruct (is_file p m). Qed.

(** A RAM disk mounted on an empty directory hides nothing. *)
Lemma reaches_menu_hides_nothing (w : world) (timer_seconds : Z)
  (w6 : world) :
  reaches_menu init w timer_seconds w6 ->
  is_empty_dir "/tmp/luks_ramdisk" (sys w) = true ->
  uncovered_files "/tmp/luks_ramdisk" (sys w6) = [] /\
  uncovered_dirs "/tmp/luks_ramdisk" (sys w6) = [].
Proof.
  intros (p & w4 & w5 & Ru & Em & Es) Empty.
  destruct (reaches_unlock_machine init w timer_seconds p w4 Ru)
    as (-> & _ & _ & m0 & header & body & _ & _ & F0 & _ & Others & S4).
  pose proof (mount_luks_volume_ramdisk_cover _ _ _ Em) as C5.
  destruct (start_destruct_timer_spec init
              (ramdisk_path init +++ "/dd-destruct.sh") w5)
    as (b & w6' & Es' & S6 & _).
  rewrite Es in Es'. inversion Es'; subst b w6'. clear Es'.
  unfold same, ramdisk_cover in C5.
  assert (C4 : find (fun c => over c =? ramdisk_path init) (covers (sys w4))
               = Some {| over := ramdisk_path init;
                         covered_files :=
                           filter (fun f => under (ramdisk_path init) (fst f))
                             (files m0);
                         covered_dirs :=
                           filter (under (ramdisk_path init)) (dirs m0) |}).
  { rewrite S4, !write_file_covers. reflexivity. }
  unfold is_empty_dir in Empty. apply andb_true_iff in Empty.
  destruct Empty as (Ef & Ed). apply negb_true_iff in Ef, Ed.
  unfold uncovered_files, uncovered_dirs. rewrite S6.
  change "/tmp/luks_ramdisk" with (ramdisk_path init) in *.
  rewrite C5, C4. cbn [covered_files covered_dirs]. split.
  - rewrite filter_filter_same, F0. now apply filter_none.
  - rewrite filter_filter_same. apply filter_none.
    apply existsb_false. intros q Hq.
    destruct (under (ramdisk_path init) q) eqn:U; [|reflexivity].
    assert (N : q <> ramdisk_path init).
    { intros ->. now rewrite under_self in U. }
    assert (I : is_dir q m0 = true).
    { unfold is_dir. apply existsb_exists. exists q.
      split; [exact Hq|apply String.eqb_refl]. }
    rewrite (Others q N) in I. unfold is_dir in I.
    apply existsb_exists in I. destruct I as (x & Hx & Ex).
    apply String.eqb_eq in Ex. subst x.
    rewrite existsb_false in Ed. specialize (Ed q Hx). congruence.
Qed.

(** X20. When the session starts on a machine where no target is mounted
    twice, nothing is mounted at the two paths of the session, nothing lies
    in the directory of the RAM disk (if it is there at all) and the device
    [luks_token] is mounted nowhere, and it gets to the file menu, the
    machine is one the launched unit is armed on.  When nothing else
    touches the machine and no command of the unit fails, the two timers
    then both run [cleanup_all] to status 0 and nothing of the token is
    left: no mount, no mapping, no image, no RAM disk. *)
Theorem session_leaves_the_unit_armed
  (w : world) (timer_seconds : Z) (w6 : world) (t0 : Z) :
  reaches_menu init w timer_seconds w6 ->
  NoDup (map target (mounts (sys w))) ->
  is_mountpoint "/tmp/luks_ramdisk" (sys w) = false ->
  is_mountpoint "/tmp/LUKS-TOKEN-2MB" (sys w) = false ->
  is_empty_dir "/tmp/luks_ramdisk" (sys w) = true ->
  (forall e, In e (mounts (sys w)) ->
             source e <> "/dev/mapper/luks_token") ->
  let u := script_content init timer_seconds in
  armed u (sys w6) /\
  let after := timeline [] (launch u t0) (quiet_shell (sys w6)) in
  map (fun r => snd r) (fst after) = [0; 0] /\
  destroyed u (sh_machine (snd after)).
Proof.
  intros Rm ND Nr Nm Empty Ns u.
  pose proof (reaches_menu_mounts w timer_seconds w6 Rm) as M.
  destruct (reaches_menu_hides_nothing w timer_seconds w6 Rm Empty)
    as (Hf & Hd).
  assert (V : 0 <= timer_seconds).
  { destruct Rm as (p & w4 & w5 & Ru & _).
    destruct (reaches_unlock_machine init w timer_seconds p w4 Ru)
      as (_ & _ & V & _).
    destruct V as [<-|[<-|[<-|[]]]]; lia. }
  assert (A : armed u (sys w6)).
  { unfold armed.
    split; [reflexivity|]. split; [reflexivity|].
    rewrite M. cbn [map target tmpfs_entry MOUNT_POINT RAMDISK
                    u script_content ramdisk_path mount_point init].
    unfold is_mountpoint in Nr, Nm. rewrite existsb_false in Nr, Nm.
    split; [|split].
    - constructor; [|constructor; [|exact ND]].
      + intros [X|X]; [discriminate|].
        apply in_map_iff in X. destruct X as (e & Te & He).
        specialize (Nm e He). rewrite Te, String.eqb_refl in Nm.
        discriminate.
      + intros X. apply in_map_iff in X. destruct X as (e & Te & He).
        specialize (Nr e He). rewrite Te, String.eqb_refl in Nr.
        discriminate.
    - intros e [<-|[<-|He]] Se; [reflexivity|discriminate|].
      now elim (Ns e He).
    - left. split; [|split; [exact Hf|exact Hd]].
      unfold is_mountpoint. rewrite M. reflexivity. }
  split; [exact A|]. cbv zeta.
  destruct (timeline_both init timer_seconds t0 (quiet_shell (sys w6)) V)
    as (E & St).
  fold u in E, St. rewrite E, St. clear E St.
  unfold quiet_shell.
  destruct (cleanup_all_quiet u (sys w6) []) as (l1 & E1). rewrite E1.
  cbn [fst snd].
  destruct (cleanup_all_quiet u (wiped u (sys w6)) l1) as (l2 & E2).
  rewrite E2. cbn [fst snd sh_machine]. split; [reflexivity|].
  apply wiped_destroyed.
  pose proof (cleanup_all_keeps_armed u
                {| sh_machine := sys w6; sh_faults := []; sh_log := [] |} A)
    as A1.
  now rewrite E1 in A1.
Qed.

Lemma session_leaves_the_unit_armed_witness :
  reaches_menu init sample_world 60 sample_w6 /\
  armed (script_content init 60) (sys sample_w6) /\
  is_file "/tmp/LUKS-TOKEN-2MB.img" (sys sample_w6) = true /\
  let after :=
    timeline [] (launch (script_content init 60) 0)
      (quiet_shell (sys sample_w6)) in
  map (fun r => snd r) (fst after) = [0; 0] /\
  destroyed (script_content init 60) (sh_machine (snd after)).
Proof.
  split; [exact sample_reaches_menu|].
  pose proof (session_leaves_the_unit_armed sample_world 60 sample_w6 0
                sample_reaches_menu (NoDup_nil _) eq_refl eq_refl eq_refl
                (fun e H => match H with end)) as (A & B).
  split; [exact A|]. split; [reflexivity|]. exact B.
Defined.

(** ** A unit that cannot be launched *)

Lemma run_at_the_launch (self : LUKSTokenSystem) (w : world)
  (timer_seconds : Z) (p : string) (w4 w5 w6 : world) :
  reaches_unlock self w timer_seconds p w4 ->
  mount_luks_volume self w4 = (Return (Some true), w5) ->
  start_destruct_timer self p w5 = (Return false, w6) ->
  run self w = (Return false, w6).
Proof.
  intros (w0 & w1 & w2 & w3 & E0 & E1 & E2 & E3 & E4) E5 E6.
  pose proof (create_destruct_script_path _ _ _ _ _ E4) as P.
  unfold run.
  change ((_ <- print "🔐 LUKS Token Self-Destruct System";;
           _ <- print (repeat_str "=" 40);; ?c) w)
    with (c (greeted w)).
  unfold try_except.
  unfold bind at 1. rewrite E0. cbv beta iota.
  unfold bind at 1. rewrite E1. cbv beta iota delta [negb].
  unfold bind at 1. rewrite E2. cbv beta iota delta [negb].
  unfold bind at 1. rewrite E3. cbv beta iota.
  unfold bind at 1. rewrite E4. cbv beta iota.
  rewrite P, script_path_nonempty.
  unfold bind at 1. rewrite E5. cbv beta iota delta [negb].
  unfold bind at 1. rewrite <- P, E6. reflexivity.
Qed.

(** X22. The volume is unlocked and mounted before the destruct unit is
    started.  So when [start_destruct_timer] returns [False] (the shell
    could not be started), the program exits with status 1 at once and
    leaves the volume open with nothing running that would remove it: no
    unit in the background, the device still mapped as [luks_token] and
    mounted at the mount point, and every file of the volume readable
    below it. *)
Theorem failed_launch_leaves_the_volume_unlocked
  (w : world) (timer_seconds : Z) (p : string) (w4 w5 w6 : world) :
  reaches_unlock init w timer_seconds p w4 ->
  mount_luks_volume init w4 = (Return (Some true), w5) ->
  start_destruct_timer init p w5 = (Return false, w6) ->
  program w = (1, w6) /\
  detached w6 = detached w /\
  is_mapped "luks_token" (sys w6) = true /\
  is_mountpoint "/tmp/LUKS-TOKEN-2MB" (sys w6) = true /\
  is_mountpoint "/tmp/luks_ramdisk" (sys w6) = true /\
  exists len pass inner,
    read_file "/tmp/LUKS-TOKEN-2MB.img" (sys w4) = Some (Luks len pass inner) /\
    forall name text,
      dict_get name inner = Some text ->
      read_file ("/tmp/LUKS-TOKEN-2MB/" +++ name) (sys w6) = Some (Data text).
Proof.
  intros Ru E5 E6.
  pose proof (run_at_the_launch init w timer_seconds p w4 w5 w6 Ru E5 E6)
    as Er.
  destruct (reaches_unlock_machine init w timer_seconds p w4 Ru)
    as (-> & D4 & _ & m0 & header & body & _ & _ & _ & _ & _ & S4).
  destruct (mount_luks_volume_mounted init w4 w5 E5)
    as (D5 & len & pass & inner & wrongs & Rd & _ & _ & _ & Ma & M & F).
  destruct (start_destruct_timer_spec init
              (ramdisk_path init +++ "/dd-destruct.sh") w5)
    as (b & x & E & S6 & _ & D6).
  rewrite E6 in E. inversion E; subst b x. clear E.
  rewrite app_nil_r in D6.
  split.
  { unfold program, main. cbv zeta. unfold bind at 1. now rewrite Er. }
  split; [congruence|].
  split; [unfold is_mapped; rewrite S6, Ma; reflexivity|].
  split; [unfold is_mountpoint; rewrite S6, M; reflexivity|].
  split.
  - set (m1 := set_mounts (tmpfs_entry init :: mounts m0)
                 (cover_under (ramdisk_path init) m0)) in *.
    set (m2 := write_file (luks_file init) (received header body) m1) in *.
    unfold is_mountpoint. rewrite S6, M, S4.
    destruct (write_file_rest (luks_file init) (received header body) m1)
      as (A1 & _).
    destruct (write_file_rest (ramdisk_path init +++ "/dd-destruct.sh")
                (Script (script_content init timer_seconds)) m2) as (A2 & _).
    rewrite A2. unfold m2. rewrite A1. reflexivity.
  - exists len, pass, inner. split; [exact Rd|].
    intros name text D. unfold read_file. rewrite S6, F.
    apply (read_mounted_file (mount_point init)); [|exact D].
    intros f Hf. apply filter_In in Hf. destruct Hf as (_ & Hf).
    now apply negb_true_iff in Hf.
Qed.

Lemma failed_launch_leaves_the_volume_unlocked_witness :
  reaches_unlock init launch_failed_world 60
    "/tmp/luks_ramdisk/dd-destruct.sh" launch_failed_w4 /\
  program launch_failed_world = (1, launch_failed_w6) /\
  detached launch_failed_w6 = detached launch_failed_world /\
  is_mapped "luks_token" (sys launch_failed_w6) = true /\
  is_mountpoint "/tmp/LUKS-TOKEN-2MB" (sys launch_failed_w6) = true /\
  is_mountpoint "/tmp/luks_ramdisk" (sys launch_failed_w6) = true /\
  exists len pass inner,
    read_file "/tmp/LUKS-TOKEN-2MB.img" (sys launch_failed_w4)
    = Some (Luks len pass inner) /\
    forall name text,
      dict_get name inner = Some text ->
      read_file ("/tmp/LUKS-TOKEN-2MB/" +++ name) (sys launch_failed_w6)
      = Some (Data text).
Proof.
  assert (Ru : reaches_unlock init launch_failed_world 60
                 "/tmp/luks_ramdisk/dd-destruct.sh" launch_failed_w4).
  { exists launch_failed_w0, launch_failed_w1, launch_failed_w2,
      launch_failed_w3.
    repeat split; vm_compute; reflexivity. }
  split; [exact Ru|].
  apply (failed_launch_leaves_the_volume_unlocked launch_failed_world 60
           "/tmp/luks_ramdisk/dd-destruct.sh" launch_failed_w4
           launch_failed_w5 launch_failed_w6 Ru);
    vm_compute; reflexivity.
Defined.

(** ** How the program leaves the machine *)

Lemma download_luks_volume_mounts (self : LUKSTokenSystem) (w : world)
  (r : result bool) (w' : world) :
  download_luks_volume self w = (r, w') ->
  mounts (sys w') = mounts (sys w) /\ detached w' = detached w.
Proof.
  intros H. apply download_luks_volume_spec in H.
  destruct H as (_ & D & H). split; [|exact D].
  destruct r as [[|]|e].
  - destruct H as (h & b & _ & -> & _). apply write_file_rest.
  - destruct H as [(-> & _)|(n & b & _ & _ & ->)];
      [reflexivity|apply write_file_rest].
  - destruct H as (_ & _ & ->). reflexivity.
Qed.

Lemma create_destruct_script_mounts (self : LUKSTokenSystem)
  (timer_seconds : Z) (w : world) (r : result (option string)) (w' : world) :
  create_destruct_script self timer_seconds w = (r, w') ->
  mounts (sys w') = mounts (sys w) /\ detached w' = detached w /\
  exists v, r = Return v.
Proof.
  intros H.
  destruct (create_destruct_script_spec self timer_seconds w)
    as (v & w1 & E & _ & D & R).
  rewrite E in H. inversion H; subst. split; [|eauto].
  destruct v as [q|].
  - destruct R as (_ & -> & _). apply write_file_rest.
  - destruct R as (-> & _). reflexivity.
Qed.

(** What the clauses of [run] do with an exception: they print, or let it
    through. *)
Lemma run_handler_quiet (e : exn) (w1 : world) (r : result bool)
  (w' : world) :
  match
    match e with
    | KeyboardInterrupt =>
        Some (_ <- print (nl +++ nl +++ "🛑 Operation cancelled by user");;
              ret false)
    | _ =>
        if is_Exception e
        then Some (_ <- print (nl +++ "❌ Unexpected error: " +++ str_exn e);;
                   ret false)
        else None
    end
  with
  | Some h => h w1
  | None => (Raise e, w1)
  end = (r, w') ->
  sys w' = sys w1 /\ detached w' = detached w1 /\ r <> Return true.
Proof.
  destruct e; cbn [is_Exception]; try rewrite bind_print; unfold ret;
    intros H; inversion H; subst; cbn; repeat split; discriminate.
Qed.

(** The four ways [run] leaves the mount table and the background. *)
Lemma run_ends (w : world) (r : result bool) (w' : world) :
  run init w = (r, w') ->
  let volume := {| target := "/tmp/LUKS-TOKEN-2MB";
                   source := "/dev/mapper/luks_token"; options := "" |} in
  (mounts (sys w') = mounts (sys w) /\ detached w' = detached w /\
   r <> Return true) \/
  (mounts (sys w') = tmpfs_entry init :: mounts (sys w) /\
   detached w' = detached w /\ r <> Return true) \/
  (mounts (sys w') = volume :: tmpfs_entry init :: mounts (sys w) /\
   detached w' = detached w /\ r = Return false) \/
  (exists timer_seconds w6,
      reaches_menu init w timer_seconds w6 /\
      mounts (sys w') = volume :: tmpfs_entry init :: mounts (sys w) /\
      detached w' = detached w ++ [script_content init timer_seconds]).
Proof.
  intros HR volume. unfold run in HR.
  change ((_ <- print "🔐 LUKS Token Self-Destruct System";;
           _ <- print (repeat_str "=" 40);; ?c) w)
    with (c (greeted w)) in HR.
  unfold try_except in HR.
  (* check_root *)
  unfold bind at 1 in HR.
  destruct (check_root init (greeted w)) as [[[]|e] w0] eqn:E0.
  2:{ apply run_handler_quiet in HR. destruct HR as (S & D & N).
      assert (K : keeps (same (fun v => (sys v, detached v)))
                    (check_root init))
        by (unfold check_root; keeps_all).
      apply K in E0. unfold same in E0. injection E0 as S0 D0.
      left. rewrite S, D, S0, D0. auto. }
  pose proof (check_root_passed _ _ _ E0) as ->.
  (* create_ramdisk *)
  unfold bind at 1 in HR.
  destruct (create_ramdisk init (greeted w)) as [[created|e] w1] eqn:E1;
    pose proof (create_ramdisk_spec _ _ _ _ E1) as (_ & D1 & _ & R1);
    change (detached (greeted w)) with (detached w) in D1;
    change (sys (greeted w)) with (sys w) in R1.
  2:{ apply run_handler_quiet in HR. destruct HR as (S & D & N).
      destruct R1 as (S1 & _). left. rewrite S, D, S1, D1. auto. }
  destruct created; cbv beta iota delta [negb] in HR.
  2:{ inversion HR; subst. destruct R1 as (M1 & _). left.
      split; [exact M1|]. split; [exact D1|discriminate]. }
  assert (M1 : mounts (sys w1) = tmpfs_entry init :: mounts (sys w)).
  { destruct R1 as (m0 & M0 & _ & _ & _ & _ & -> & _). cbn. now rewrite M0. }
  clear R1.
  (* download *)
  unfold bind at 1 in HR.
  destruct (download_luks_volume init w1) as [[downloaded|e] w2] eqn:E2;
    pose proof (download_luks_volume_mounts _ _ _ _ E2) as (M2 & D2).
  2:{ apply run_handler_quiet in HR. destruct HR as (S & D & N).
      right. left. rewrite S, D, M2, D2. auto. }
  destruct downloaded; cbv beta iota delta [negb] in HR.
  2:{ inversion HR; subst. right. left.
      split; [congruence|]. split; [congruence|discriminate]. }
  (* timer *)
  unfold bind at 1 in HR.
  destruct (get_timer_selection init w2) as [[timer_seconds|e] w3] eqn:E3;
    pose proof (get_timer_selection_same_sys _ _ _ _ E3) as S3;
    pose proof (get_timer_selection_same_detached _ _ _ _ E3) as D3;
    unfold same in S3, D3.
  2:{ apply run_handler_quiet in HR. destruct HR as (S & D & N).
      right. left. rewrite S, D, S3, D3, M2, D2. auto. }
  (* script *)
  unfold bind at 1 in HR.
  destruct (create_destruct_script init timer_seconds w3)
    as [r4 w4] eqn:E4.
  destruct (create_destruct_script_mounts _ _ _ _ _ E4)
    as (M4 & D4 & v4 & ->).
  cbv beta iota in HR. destruct v4 as [script_path|].
  2:{ inversion HR; subst. right. left.
      split; [congruence|]. split; [congruence|discriminate]. }
  pose proof (create_destruct_script_path _ _ _ _ _ E4) as P.
  rewrite P, script_path_nonempty in HR.
  (* mount *)
  unfold bind at 1 in HR.
  destruct (mount_luks_volume init w4) as [r5 w5] eqn:E5.
  assert (NotMounted : r5 <> Return (Some true) ->
            sys w' = sys w5 /\ detached w' = detached w5 /\ r <> Return true).
  { intros N.
    destruct (mount_luks_volume_not_mounted _ _ _ _ E5 N)
      as (_ & _ & _ & [->|[(msg & ->)|(-> & _)]]).
    - cbv beta iota delta [negb] in HR. inversion HR; subst.
      repeat split. discriminate.
    - now apply (run_handler_quiet (OSError msg) w5) in HR.
    - now apply (run_handler_quiet (EOFError "") w5) in HR. }
  destruct r5 as [[[|]|]|e].
  2-4: destruct NotMounted as (S & D & N); [discriminate|];
       destruct (mount_luks_volume_not_mounted _ _ _ _ E5 ltac:(discriminate))
         as (D5 & M5 & _);
       right; left; rewrite S, D, M5, D5, M4, D4, S3, D3, M2, D2; auto.
  clear NotMounted. cbv beta iota delta [negb] in HR.
  pose proof (mount_luks_volume_mounted _ _ _ E5)
    as (D5 & len & pass & inner & wrongs & _ & _ & _ & _ & _ & M5 & _).
  assert (M5' : mounts (sys w5) = volume :: tmpfs_entry init :: mounts (sys w))
    by (rewrite M5, M4, S3, M2, M1; reflexivity).
  assert (D5' : detached w5 = detached w) by congruence.
  (* start *)
  unfold bind at 1 in HR. rewrite <- P in HR.
  destruct (start_destruct_timer_spec init script_path w5)
    as (started & w6 & E6 & S6 & _ & D6).
  rewrite E6 in HR. cbv beta iota in HR.
  destruct started; cbv beta iota delta [negb] in HR.
  2:{ inversion HR; subst. right. right. left.
      rewrite app_nil_r in D6. rewrite S6, D6. auto. }
  (* menu *)
  assert (Rm : reaches_menu init w timer_seconds w6).
  { exists script_path, w4, w5. split; [|auto].
    exists (greeted w), w1, w2, w3. auto. }
  right. right. right. exists timer_seconds, w6. split; [exact Rm|].
  destruct (reaches_menu_detached w timer_seconds w6 Rm) as (D6' & _).
  change ((_ <- print (nl +++ "🎯 LUKS token system ready! Timer: "
                       +++ str_of_Z (timer_seconds / 60) +++ " minute(s)");;
           _ <- print "⚠️  RAM disk will self-destruct automatically!";; ?c) w6)
    with (c (ready timer_seconds w6)) in HR.
  unfold bind at 1 in HR.
  destruct (display_file_menu init (ready timer_seconds w6))
    as [[[]|e] w7] eqn:E7;
    destruct (display_file_menu_only_reads_parts _ _ _ _ E7) as (S7 & D7 & _);
    change (sys (ready timer_seconds w6)) with (sys w6) in S7;
    change (detached (ready timer_seconds w6)) with (detached w6) in D7.
  - rewrite bind_print in HR. unfold ret in HR. inversion HR; subst.
    cbn [sys detached set_out]. rewrite S7, D7, S6. auto.
  - apply run_handler_quiet in HR. destruct HR as (S & D & _).
    rewrite S, D, S7, D7, S6. auto.
Qed.

(** X23. The program itself never cleans up: that is left to the unit,
    which is launched last.  So however the program ends, the mount table
    is the one it found with nothing, the RAM disk, or the RAM disk and the
    unlocked volume on top, and at most one unit was launched, the one of a
    timer of the menu, with both mounts in place.  In every other case the
    exit status is 1: a session that fails after the RAM disk is mounted
    leaves it mounted, and one in which the unit is not launched after the
    unlock leaves the unlocked volume mounted as well. *)
Theorem program_never_cleans_up (w : world) :
  let code := fst (program w) in
  let w' := snd (program w) in
  let volume := {| target := "/tmp/LUKS-TOKEN-2MB";
                   source := "/dev/mapper/luks_token"; options := "" |} in
  let ramdisk := {| target := "/tmp/luks_ramdisk"; source := "tmpfs";
                    options := "size=5M" |} in
  (mounts (sys w') = mounts (sys w) /\ detached w' = detached w /\
   code = 1) \/
  (mounts (sys w') = ramdisk :: mounts (sys w) /\ detached w' = detached w /\
   code = 1) \/
  (mounts (sys w') = volume :: ramdisk :: mounts (sys w) /\
   detached w' = detached w /\ code = 1) \/
  (exists timer_seconds,
      In timer_seconds [60; 300; 600] /\
      mounts (sys w') = volume :: ramdisk :: mounts (sys w) /\
      detached w' = detached w ++ [script_content init timer_seconds]).
Proof.
  cbv zeta. destruct (run init w) as [r w1] eqn:Er.
  assert (P : forall r0, r = r0 ->
            snd (program w) = w1 /\
            fst (program w)
            = match r0 with
              | Return true => 0
              | Return false => 1
              | Raise e => exit_status (Raise e)
              end).
  { intros r0 <-. unfold program, main. cbv zeta. unfold bind. rewrite Er.
    destruct r as [[|]|e]; split; reflexivity. }
  destruct (run_ends w r w1 Er) as [(M & D & N)|[(M & D & N)|[(M & D & N)|H]]].
  - left. destruct (P r eq_refl) as (-> & ->).
    split; [exact M|]. split; [exact D|].
    destruct (run_spec init w) as [(t & w6 & w7 & _ & _ & Hr)
                                  |(_ & x & [Hr|Hr])];
      rewrite Er in Hr; inversion Hr; subst; [now elim N|reflexivity..].
  - right. left. destruct (P r eq_refl) as (-> & ->).
    split; [exact M|]. split; [exact D|].
    destruct (run_spec init w) as [(t & w6 & w7 & _ & _ & Hr)
                                  |(_ & x & [Hr|Hr])];
      rewrite Er in Hr; inversion Hr; subst; [now elim N|reflexivity..].
  - right. right. left. destruct (P r eq_refl) as (-> & ->). subst r. auto.
  - right. right. right. destruct H as (t & w6 & Rm & M & D).
    destruct (P r eq_refl) as (-> & _).
    exists t. split; [|auto].
    destruct Rm as (p & w4 & w5 & Ru & _).
    now destruct (reaches_unlock_machine init w t p w4 Ru) as (_ & _ & V & _).
Qed.
